(** * Edge gunshot detector: feature pipeline and decision logic

    Shallow embedding of [gunshot_detector_v1192_official.c].

    - C [float] is IEEE-754 binary32, modelled with the Standard Library's
      [SpecFloat] operations at precision 24 and maximal exponent 128.
    - [int], [uint32_t] and [int8_t] are [Z] with the wrap-around written out.
    - Arrays are lists, updated by index.
    - The global variables of the program form one record, threaded through
      the functions; library calls whose result the program cannot determine
      (the clock, the configuration file, the inference job, the mail
      transfer, memory allocation) are read from an environment record.
    - [expf], [log10f], [powf], [cosf] and the FFTW transform are section
      variables: the development holds for every implementation of them. *)

From Stdlib Require Import ZArith QArith Qpower Qabs Qminmax Lia Lqa Bool List String Ascii.
From Stdlib Require Import Floats.SpecFloat.
From stdpp Require Import base list.

Local Open Scope Z_scope.

(** ** Binary32 arithmetic *)

Module F32.

Definition prec : Z := 24.
Definition emax : Z := 128.

Definition float32 := spec_float.

Definition add : float32 -> float32 -> float32 := SFadd prec emax.
Definition sub : float32 -> float32 -> float32 := SFsub prec emax.
Definition mul : float32 -> float32 -> float32 := SFmul prec emax.
Definition div : float32 -> float32 -> float32 := SFdiv prec emax.
Definition sqrt : float32 -> float32 := SFsqrt prec emax.
Definition ltb : float32 -> float32 -> bool := SFltb.
Definition leb : float32 -> float32 -> bool := SFleb.
Definition gtb (x y : float32) : bool := SFltb y x.
Definition geb (x y : float32) : bool := SFleb y x.
Definition valid : float32 -> bool := valid_binary prec emax.

(** Conversion of a C integer to [float] (round to nearest, ties to even;
    exact below 2^24). *)
Definition of_int (n : Z) : float32 := binary_normalize prec emax n 0 false.

Definition zero : float32 := S754_zero false.

(** Literals of the source, as the nearest binary32 value. *)
Definition c_0_5 : float32 := S754_finite false 8388608 (-24).
Definition c_1 : float32 := S754_finite false 8388608 (-23).
Definition c_2 : float32 := S754_finite false 8388608 (-22).
Definition c_10 : float32 := S754_finite false 10485760 (-20).
Definition c_80 : float32 := S754_finite false 10485760 (-17).
Definition c_100 : float32 := S754_finite false 13107200 (-17).
Definition c_700 : float32 := S754_finite false 11468800 (-14).
Definition c_2595 : float32 := S754_finite false 10629120 (-12).
Definition c_0_30 : float32 := S754_finite false 10066330 (-25).
Definition c_0_45 : float32 := S754_finite false 15099494 (-25).
Definition c_0_70 : float32 := S754_finite false 11744051 (-24).
Definition c_0_001 : float32 := S754_finite false 8589935 (-33).
Definition c_1em10 : float32 := S754_finite false 14411519 (-57).
(** [0.003921568859368563f], bit pattern 0x3b808081. *)
Definition c_scale : float32 := S754_finite false 8421505 (-31).

(** [fmaxf]: the other operand when one is a NaN. *)
Definition fmaxf (x y : float32) : float32 :=
  match x, y with
  | S754_nan, _ => y
  | _, S754_nan => x
  | _, _ => if ltb x y then y else x
  end.

Definition two_p (e : Z) : Z := 2 ^ e.

(** [roundf] followed by the conversion to [int]: the nearest integer, ties
    away from zero.  The conversion is defined by C only inside the range of
    [int]; outside it (and for infinities and NaN) the model saturates, as
    the conversion instruction of the aarch64 target does. *)
Definition round_half_away_mag (m : positive) (e : Z) : Z :=
  if 0 <=? e then Z.pos m * two_p e
  else (2 * Z.pos m + two_p (- e)) / (2 * two_p (- e)).

Definition INT_MIN : Z := - 2 ^ 31.
Definition INT_MAX : Z := 2 ^ 31 - 1.

Definition sat_int (z : Z) : Z := Z.max INT_MIN (Z.min INT_MAX z).

Definition roundf_to_int (x : float32) : Z :=
  match x with
  | S754_zero _ => 0
  | S754_finite s m e =>
      sat_int (if s then - round_half_away_mag m e else round_half_away_mag m e)
  | S754_infinity s => if s then INT_MIN else INT_MAX
  | S754_nan => 0
  end.

(** [floorf] followed by the conversion to [int]. *)
Definition floor_mag (m : positive) (e : Z) : Z :=
  if 0 <=? e then Z.pos m * two_p e else Z.pos m / two_p (- e).

Definition ceil_mag (m : positive) (e : Z) : Z :=
  if 0 <=? e then Z.pos m * two_p e else - ((- Z.pos m) / two_p (- e)).

Definition floorf_to_int (x : float32) : Z :=
  match x with
  | S754_zero _ => 0
  | S754_finite s m e => sat_int (if s then - ceil_mag m e else floor_mag m e)
  | S754_infinity s => if s then INT_MIN else INT_MAX
  | S754_nan => 0
  end.

(** The rational value of a finite float. *)
Definition pow2Q (e : Z) : Q := Qpower 2 e.

Definition to_Q (x : float32) : Q :=
  match x with
  | S754_finite s m e =>
      (if s then - inject_Z (Z.pos m) else inject_Z (Z.pos m)) * pow2Q e
  | _ => 0
  end%Q.

End F32.

#[global] Arguments F32.add : simpl never.
#[global] Arguments F32.sub : simpl never.
#[global] Arguments F32.mul : simpl never.
#[global] Arguments F32.div : simpl never.
#[global] Arguments F32.sqrt : simpl never.
#[global] Arguments F32.ltb : simpl never.
#[global] Arguments F32.leb : simpl never.
#[global] Arguments F32.gtb : simpl never.
#[global] Arguments F32.geb : simpl never.
#[global] Arguments F32.of_int : simpl never.
#[global] Arguments F32.roundf_to_int : simpl never.
#[global] Arguments F32.floorf_to_int : simpl never.
#[global] Arguments F32.pow2Q : simpl never.

(** Two's complement wrap-around of the C integer types. *)
Definition wrap_u32 (z : Z) : Z := z mod 2 ^ 32.
Definition wrap_s32 (z : Z) : Z := (z + 2 ^ 31) mod 2 ^ 32 - 2 ^ 31.
Definition wrap_s8 (z : Z) : Z := (z + 128) mod 256 - 128.

(** ** Constants of the source *)

Definition N_FFT : Z := 1024.
Definition HOP_LENGTH : Z := 512.
Definition N_MELS : Z := 28.
Definition N_FRAMES : Z := 160.
Definition EXPECTED_INPUT_SIZE : Z := N_MELS * N_FRAMES.
Definition AUDIO_BUFFER_SIZE : Z := 180800.
Definition INFERENCE_THRESHOLD : Z := 88000.
Definition N_FFT_BINS : Z := N_FFT / 2 + 1.
Definition TARGET_SAMPLE_RATE : Z := 22050.
Definition EMAIL_RATE_LIMIT_SECONDS : Z := 120.

(** ** Program state *)

(** What the program writes to the system log, and the mails it sends.  A
    mail is recorded with the confidence and the loudness it reports and with
    [current_time], the clock reading taken for the cooldown test, which is the
    value stored in [last_email_time]; the text of the mail, with the time
    stamp it prints from a later reading of the clock, is not represented. *)
Inductive event : Type :=
| LogConfigMissing
| LogThresholdUpdated (old new : F32.float32)
| LogThresholdOutOfRange (threshold_int : Z)
| LogThresholdParseFailed
| LogDbusParameterChanged (name value : string)
| LogDbusThresholdUpdated (old new : F32.float32)
| LogEmailRateLimited (elapsed : Z)
| LogEmailCurlInitFailed
| LogEmailSendFailed
| EmailSent (confidence rms : F32.float32) (current_time : Z)
| LogSilence (rms : F32.float32)
| LogFftAllocFailed
| LogFftPlanFailed
| LogMelInitFailed
| LogMelComputed (frame_count : Z)
| LogGunshotDetected (confidence rms : F32.float32)
| LogNoGunshot (confidence rms : F32.float32)
| LogInferenceFailed
| LogOutOfBuffers
| LogLarodInitFailed
| LogAudioInitFailed
| LogPipelineReady.

Record config : Type := Config {
  confidence_threshold : F32.float32;
  email_enabled : bool;
  smtp_server : string;
  smtp_port : Z;
  smtp_username : string;
  smtp_password : string;
  recipient_email : string
}.

Record dsp : Type := Dsp {
  mel_filter_bank : list (list F32.float32);
  mel_filters_initialized : bool;
  hann_window : list F32.float32;
  fft_initialized : bool
}.

Record world : Type := World {
  cfg : config;
  dsp_state : dsp;
  last_email_time : Z;
  audio_buffer : list F32.float32;
  samples_accumulated : Z;
  debug_counter : Z;
  ml_ready : bool;
  inference_count : Z;
  detection_count : Z;
  last_config_check : Z;
  last_mtime : Z;
  input_tensor : list Z;
  trace : list event
}.

Definition set_threshold (t : F32.float32) (c : config) : config :=
  Config t (email_enabled c) (smtp_server c) (smtp_port c) (smtp_username c)
         (smtp_password c) (recipient_email c).
Definition set_email_enabled (b : bool) (c : config) : config :=
  Config (confidence_threshold c) b (smtp_server c) (smtp_port c)
         (smtp_username c) (smtp_password c) (recipient_email c).
Definition set_smtp_server (s : string) (c : config) : config :=
  Config (confidence_threshold c) (email_enabled c) s (smtp_port c)
         (smtp_username c) (smtp_password c) (recipient_email c).
Definition set_smtp_port (p : Z) (c : config) : config :=
  Config (confidence_threshold c) (email_enabled c) (smtp_server c) p
         (smtp_username c) (smtp_password c) (recipient_email c).
Definition set_smtp_username (s : string) (c : config) : config :=
  Config (confidence_threshold c) (email_enabled c) (smtp_server c)
         (smtp_port c) s (smtp_password c) (recipient_email c).
Definition set_smtp_password (s : string) (c : config) : config :=
  Config (confidence_threshold c) (email_enabled c) (smtp_server c)
         (smtp_port c) (smtp_username c) s (recipient_email c).
Definition set_recipient_email (s : string) (c : config) : config :=
  Config (confidence_threshold c) (email_enabled c) (smtp_server c)
         (smtp_port c) (smtp_username c) (smtp_password c) s.

Definition with_cfg (f : config -> config) (w : world) : world :=
  World (f (cfg w)) (dsp_state w) (last_email_time w) (audio_buffer w)
        (samples_accumulated w) (debug_counter w) (ml_ready w)
        (inference_count w) (detection_count w) (last_config_check w)
        (last_mtime w) (input_tensor w) (trace w).
Definition with_dsp (d : dsp) (w : world) : world :=
  World (cfg w) d (last_email_time w) (audio_buffer w)
        (samples_accumulated w) (debug_counter w) (ml_ready w)
        (inference_count w) (detection_count w) (last_config_check w)
        (last_mtime w) (input_tensor w) (trace w).
Definition with_last_email_time (t : Z) (w : world) : world :=
  World (cfg w) (dsp_state w) t (audio_buffer w)
        (samples_accumulated w) (debug_counter w) (ml_ready w)
        (inference_count w) (detection_count w) (last_config_check w)
        (last_mtime w) (input_tensor w) (trace w).
Definition with_audio (buf : list F32.float32) (n : Z) (w : world) : world :=
  World (cfg w) (dsp_state w) (last_email_time w) buf n (debug_counter w)
        (ml_ready w) (inference_count w) (detection_count w)
        (last_config_check w) (last_mtime w) (input_tensor w) (trace w).
Definition with_debug_counter (n : Z) (w : world) : world :=
  World (cfg w) (dsp_state w) (last_email_time w) (audio_buffer w)
        (samples_accumulated w) n (ml_ready w)
        (inference_count w) (detection_count w) (last_config_check w)
        (last_mtime w) (input_tensor w) (trace w).
Definition with_ml_ready (b : bool) (w : world) : world :=
  World (cfg w) (dsp_state w) (last_email_time w) (audio_buffer w)
        (samples_accumulated w) (debug_counter w) b
        (inference_count w) (detection_count w) (last_config_check w)
        (last_mtime w) (input_tensor w) (trace w).
Definition with_inference_count (n : Z) (w : world) : world :=
  World (cfg w) (dsp_state w) (last_email_time w) (audio_buffer w)
        (samples_accumulated w) (debug_counter w) (ml_ready w)
        n (detection_count w) (last_config_check w)
        (last_mtime w) (input_tensor w) (trace w).
Definition with_detection_count (n : Z) (w : world) : world :=
  World (cfg w) (dsp_state w) (last_email_time w) (audio_buffer w)
        (samples_accumulated w) (debug_counter w) (ml_ready w)
        (inference_count w) n (last_config_check w)
        (last_mtime w) (input_tensor w) (trace w).
Definition with_config_check (t m : Z) (w : world) : world :=
  World (cfg w) (dsp_state w) (last_email_time w) (audio_buffer w)
        (samples_accumulated w) (debug_counter w) (ml_ready w)
        (inference_count w) (detection_count w) t m (input_tensor w) (trace w).
Definition with_input_tensor (t : list Z) (w : world) : world :=
  World (cfg w) (dsp_state w) (last_email_time w) (audio_buffer w)
        (samples_accumulated w) (debug_counter w) (ml_ready w)
        (inference_count w) (detection_count w) (last_config_check w)
        (last_mtime w) t (trace w).
(** [syslog] and the mail transfer append to the trace. *)
Definition emit (e : event) (w : world) : world :=
  World (cfg w) (dsp_state w) (last_email_time w) (audio_buffer w)
        (samples_accumulated w) (debug_counter w) (ml_ready w)
        (inference_count w) (detection_count w) (last_config_check w)
        (last_mtime w) (input_tensor w) (trace w ++ [e]).

(** What one run of a function reads from outside the program. *)
Record env : Type := Env {
  env_time : Z;                              (* time(NULL): the reading of
                                                check_config_changes and main, and
                                                current_time of the mail cooldown *)
  env_config_file : option (Z * list string); (* st_mtime and the lines fgets returns *)
  env_larod_init_ok : bool;                  (* init_larod *)
  env_alloc_ok : bool;                       (* fftwf_alloc_complex and malloc *)
  env_plan_ok : bool;                        (* fftwf_plan_dft_1d *)
  env_infer : option (Z * Z);                (* larodRunJob and the two output bytes *)
  env_curl_init_ok : bool;                   (* curl_easy_init *)
  env_curl_ok : bool                         (* curl_easy_perform = CURLE_OK *)
}.

(** ** Text scanning: [strstr], [sscanf] and [atoi] *)

Definition dquote : ascii := ascii_of_nat 34.

Fixpoint strstr (hay needle : string) : bool :=
  String.prefix needle hay ||
  match hay with
  | EmptyString => false
  | String _ rest => strstr rest needle
  end.

Fixpoint drop_prefix (p s : string) : option string :=
  match p, s with
  | EmptyString, _ => Some s
  | String a p', String b s' => if Ascii.eqb a b then drop_prefix p' s' else None
  | String _ _, EmptyString => None
  end.

Definition is_space (c : ascii) : bool :=
  let n := Z.of_N (N_of_ascii c) in (n =? 32) || ((9 <=? n) && (n <=? 13)).

Definition digit_of (c : ascii) : option Z :=
  let n := Z.of_N (N_of_ascii c) in
  if (48 <=? n) && (n <=? 57) then Some (n - 48) else None.

Fixpoint skip_spaces (s : string) : string :=
  match s with
  | String c rest => if is_space c then skip_spaces rest else s
  | EmptyString => s
  end.

Fixpoint scan_digits (s : string) (acc : Z) : Z :=
  match s with
  | String c rest =>
      match digit_of c with
      | Some d => scan_digits rest (10 * acc + d)
      | None => acc
      end
  | EmptyString => acc
  end.

(** The decimal number a [%d] conversion or [strtol] reads: blanks, an
    optional sign, at least one digit. *)
Definition scan_decimal (s : string) : option Z :=
  let s := skip_spaces s in
  let '(neg, s) :=
    match s with
    | String "-" rest => (true, rest)
    | String "+" rest => (false, rest)
    | _ => (false, s)
    end in
  match s with
  | String c rest =>
      match digit_of c with
      | Some d => let v := scan_digits rest d in Some (if neg then - v else v)
      | None => None
      end
  | EmptyString => None
  end.

(** The value is stored into an [int]; a number outside the range of [long]
    is clamped by the C library before the store truncates it. *)
Definition store_int (v : Z) : Z :=
  wrap_s32 (Z.max (- 2 ^ 63) (Z.min (2 ^ 63 - 1) v)).

(** [sscanf] of a line against the key, an equals sign, a double quote and
    [%d]; [Some] when the call returns 1. *)
Definition sscanf_int (key line : string) : option Z :=
  match drop_prefix key line with
  | Some rest => option_map store_int (scan_decimal rest)
  | None => None
  end.

(** [sscanf] of a line against the key, an equals sign, a double quote and a
    scan set of at most [width] characters other than the double quote. *)
Fixpoint scan_until_quote (width : nat) (s : string) : string :=
  match width, s with
  | S w, String c rest =>
      if Ascii.eqb c dquote then EmptyString else String c (scan_until_quote w rest)
  | _, _ => EmptyString
  end.

Definition sscanf_str (key : string) (width : nat) (line : string) : option string :=
  match drop_prefix key line with
  | Some rest =>
      match scan_until_quote width rest with
      | EmptyString => None
      | s => Some s
      end
  | None => None
  end.

Definition atoi (s : string) : Z :=
  match scan_decimal s with
  | Some v => store_int v
  | None => 0
  end.

(** ** Configuration: [load_config], [on_parameter_changed],
       [check_config_changes] *)

Definition qkey (name : string) : string :=
  name ++ "=" ++ String dquote EmptyString.

(** The threshold part of the loop body of [load_config]. *)
Definition load_threshold_line (line : string) (w : world) : world :=
  if strstr line "threshold=" then
    match sscanf_int (qkey "threshold") line with
    | Some threshold_int =>
        let threshold := F32.div (F32.of_int threshold_int) F32.c_100 in
        if F32.geb threshold F32.c_0_30 && F32.leb threshold F32.c_0_70 then
          let old_threshold := confidence_threshold (cfg w) in
          emit (LogThresholdUpdated old_threshold threshold)
               (with_cfg (set_threshold threshold) w)
        else
          emit (LogThresholdOutOfRange threshold_int) w
    | None => emit LogThresholdParseFailed w
    end
  else w.

Definition load_other_lines (line : string) (c : config) : config :=
  let c :=
    if strstr line "email_enabled=" then
      match sscanf_str (qkey "email_enabled") 15 line with
      | Some enabled_str => set_email_enabled (String.eqb enabled_str "yes") c
      | None => c
      end
    else c in
  let c :=
    if strstr line "smtp_server=" then
      match sscanf_str (qkey "smtp_server") 255 line with
      | Some s => set_smtp_server s c
      | None => c
      end
    else c in
  let c :=
    if strstr line "smtp_port=" then
      match sscanf_int (qkey "smtp_port") line with
      | Some p => set_smtp_port p c
      | None => c
      end
    else c in
  let c :=
    if strstr line "smtp_username=" then
      match sscanf_str (qkey "smtp_username") 255 line with
      | Some s => set_smtp_username s c
      | None => c
      end
    else c in
  let c :=
    if strstr line "smtp_password=" then
      match sscanf_str (qkey "smtp_password") 255 line with
      | Some s => set_smtp_password s c
      | None => c
      end
    else c in
  if strstr line "recipient_email=" then
    match sscanf_str (qkey "recipient_email") 255 line with
    | Some s => set_recipient_email s c
    | None => c
    end
  else c.

Definition load_config_line (w : world) (line : string) : world :=
  with_cfg (load_other_lines line) (load_threshold_line line w).

Definition load_config (e : env) (w : world) : world :=
  match env_config_file e with
  | None => emit LogConfigMissing w
  | Some (_, lines) => fold_left load_config_line lines w
  end.

Definition on_parameter_changed (param_name param_value : string) (w : world) : world :=
  let w := emit (LogDbusParameterChanged param_name param_value) w in
  let w :=
    if strstr param_name "threshold" then
      let threshold_int := atoi param_value in
      if (30 <=? threshold_int) && (threshold_int <=? 70) then
        let old_threshold := confidence_threshold (cfg w) in
        let new_threshold := F32.div (F32.of_int threshold_int) F32.c_100 in
        emit (LogDbusThresholdUpdated old_threshold new_threshold)
             (with_cfg (set_threshold new_threshold) w)
      else w
    else w in
  if strstr param_name "email_enabled" then
    with_cfg (set_email_enabled (String.eqb param_value "yes")) w
  else w.

Definition check_config_changes (e : env) (w : world) : world :=
  let now := env_time e in
  if now - last_config_check w <? 5 then w
  else
    let w := with_config_check now (last_mtime w) w in
    match env_config_file e with
    | Some (mtime, _) =>
        if negb (mtime =? last_mtime w) then
          load_config e (with_config_check now mtime w)
        else w
    | None => w
    end.

(** ** Mail notification: [send_email_notification] *)

Definition strlen (s : string) : Z := Z.of_nat (String.length s).

(** [current_time] is the reading of the clock that the cooldown test uses and
    that a successful transfer stores in [last_email_time].  The second
    reading, [now], only feeds the time stamp printed in the mail body, which
    the state does not hold. *)
Definition send_email_notification (e : env) (confidence rms : F32.float32)
    (w : world) : bool * world :=
  if negb (email_enabled (cfg w)) || (strlen (smtp_username (cfg w)) =? 0)
     || (strlen (recipient_email (cfg w)) =? 0) then (false, w)
  else
    let current_time := env_time e in
    if current_time - last_email_time w <? EMAIL_RATE_LIMIT_SECONDS then
      (false, emit (LogEmailRateLimited (current_time - last_email_time w)) w)
    else if negb (env_curl_init_ok e) then
      (false, emit LogEmailCurlInitFailed w)
    else if env_curl_ok e then
      (true, emit (EmailSent confidence rms current_time)
                  (with_last_email_time current_time w))
    else
      (false, emit LogEmailSendFailed w).

(** ** Arrays *)

(** Reading [a[k]]; an index outside the array reads as zero. *)
Definition rd (a : list F32.float32) (k : Z) : F32.float32 :=
  if (0 <=? k) then default F32.zero (a !! Z.to_nat k) else F32.zero.

(** Writing [a[k] = v]; a write outside the array is dropped. *)
Definition wr {A : Type} (a : list A) (k : Z) (v : A) : list A :=
  if (0 <=? k) then <[Z.to_nat k := v]> a else a.

Definition rd_row (a : list (list F32.float32)) (m : Z) : list F32.float32 :=
  if (0 <=? m) then default [] (a !! Z.to_nat m) else [].

(** [for (k = lo; k < hi; k++) body]: [n] iterations left, counter at [k]. *)
Fixpoint for_loop {A : Type} (n : nat) (k : Z) (body : Z -> A -> A) (a : A) : A :=
  match n with
  | O => a
  | S n' => for_loop n' (k + 1) body (body k a)
  end.

Definition for_range {A : Type} (lo hi : Z) (body : Z -> A -> A) (a : A) : A :=
  for_loop (Z.to_nat (hi - lo)) lo body a.

(** ** Mail payload: [email_payload_source] *)

(** [size_t] arithmetic of the aarch64 target. *)
Definition wrap_size (z : Z) : Z := z mod 2 ^ 64.

Module email_upload_status.
Record t : Type := Make {
  data : list ascii;
  length : Z;
  position : Z
}.
End email_upload_status.

(** The read callback handed to libcurl: the count it returns, the bytes it
    copies to [ptr], and the upload status it leaves. *)
Definition email_payload_source (size nmemb : Z) (upload_ctx : email_upload_status.t)
    : Z * list ascii * email_upload_status.t :=
  let data := email_upload_status.data upload_ctx in
  let room := wrap_size (size * nmemb) in
  if email_upload_status.length upload_ctx <=? email_upload_status.position upload_ctx then
    (0, [], upload_ctx)
  else
    let remaining :=
      wrap_size (email_upload_status.length upload_ctx
                 - email_upload_status.position upload_ctx) in
    let len := if remaining <? room then remaining else room in
    (len,
     take (Z.to_nat len) (drop (Z.to_nat (email_upload_status.position upload_ctx)) data),
     email_upload_status.Make data (email_upload_status.length upload_ctx)
       (wrap_size (email_upload_status.position upload_ctx + len))).

(** A transfer: libcurl calls the callback with the room of its buffer until
    the callback returns 0; the bytes it has been handed, in order. *)
Fixpoint upload (requests : list (Z * Z)) (upload_ctx : email_upload_status.t)
    : list ascii * email_upload_status.t :=
  match requests with
  | [] => ([], upload_ctx)
  | (size, nmemb) :: rest =>
      let '(len, bytes, upload_ctx') := email_payload_source size nmemb upload_ctx in
      if len =? 0 then ([], upload_ctx')
      else
        let '(more, upload_ctx'') := upload rest upload_ctx' in
        (bytes ++ more, upload_ctx'')
  end.

(** Room offered by a sequence of calls. *)
Definition total_room (requests : list (Z * Z)) : Z :=
  fold_right (fun r acc => wrap_size (fst r * snd r) + acc) 0 requests.

(** The status [send_email_notification] starts the transfer with. *)
Definition upload_start (email_body : list ascii) : email_upload_status.t :=
  email_upload_status.Make email_body (Z.of_nat (length email_body)) 0.

Section Program.

(** The C library's [expf], [log10f] and [powf]; [hann_cos i] stands for
    [cosf(2.0f * M_PI * i / (N_FFT - 1))]; [fftwf_execute] maps the [N_FFT]
    complex inputs of the plan to its outputs. *)
Variable expf log10f : F32.float32 -> F32.float32.
Variable powf : F32.float32 -> F32.float32 -> F32.float32.
Variable hann_cos : Z -> F32.float32.
Variable fftwf_execute :
  list (F32.float32 * F32.float32) -> list (F32.float32 * F32.float32).

(** ** Mel filter bank: [hz_to_mel], [mel_to_hz], [init_mel_filter_bank] *)

Definition hz_to_mel (hz : F32.float32) : F32.float32 :=
  F32.mul F32.c_2595 (log10f (F32.add F32.c_1 (F32.div hz F32.c_700))).

Definition mel_to_hz (mel : F32.float32) : F32.float32 :=
  F32.mul F32.c_700 (F32.sub (powf F32.c_10 (F32.div mel F32.c_2595)) F32.c_1).

Definition MEL_FMIN : F32.float32 := F32.zero.
Definition MEL_FMAX : F32.float32 := F32.div (F32.of_int TARGET_SAMPLE_RATE) F32.c_2.

Definition mel_point (i : Z) : F32.float32 :=
  let mel_min := hz_to_mel MEL_FMIN in
  let mel_max := hz_to_mel MEL_FMAX in
  F32.add mel_min
    (F32.div (F32.mul (F32.sub mel_max mel_min) (F32.of_int i))
             (F32.of_int (N_MELS + 1))).

Definition bin_point (i : Z) : Z :=
  let hz := mel_to_hz (mel_point i) in
  let b := F32.floorf_to_int
             (F32.div (F32.mul hz (F32.of_int N_FFT)) (F32.of_int TARGET_SAMPLE_RATE)) in
  if N_FFT_BINS <=? b then N_FFT_BINS - 1 else b.

(** The two edge loops of one band, on a zeroed row. *)
Definition rising_edge (left center : Z) (row : list F32.float32) : list F32.float32 :=
  for_range left center
    (fun k row =>
       if left <? center
       then wr row k (F32.div (F32.of_int (k - left)) (F32.of_int (center - left)))
       else row) row.

Definition falling_edge (center right : Z) (row : list F32.float32) : list F32.float32 :=
  for_range center right
    (fun k row =>
       if center <? right
       then wr row k (F32.div (F32.of_int (right - k)) (F32.of_int (right - center)))
       else row) row.

Definition triangle (left center right : Z) (row : list F32.float32) : list F32.float32 :=
  falling_edge center right (rising_edge left center row).

Definition row_area (row : list F32.float32) : F32.float32 :=
  for_range 0 N_FFT_BINS (fun k area => F32.add area (rd row k)) F32.zero.

(** Slaney normalisation of one row ([MEL_NORM_SLANEY] is 1). *)
Definition normalize_row (row : list F32.float32) : list F32.float32 :=
  let area := row_area row in
  if F32.gtb area F32.zero then
    for_range 0 N_FFT_BINS (fun k row => wr row k (F32.div (rd row k) area)) row
  else row.

Definition zero_row : list F32.float32 := replicate (Z.to_nat N_FFT_BINS) F32.zero.

Definition build_row (bin_points : Z -> Z) (m : Z) : list F32.float32 :=
  normalize_row (triangle (bin_points m) (bin_points (m + 1)) (bin_points (m + 2)) zero_row).

Definition build_filter_bank (bin_points : Z -> Z) : list (list F32.float32) :=
  for_range 0 N_MELS (fun m bank => wr bank m (build_row bin_points m))
    (replicate (Z.to_nat N_MELS) zero_row).

Definition init_mel_filter_bank (w : world) : bool * world :=
  let d := dsp_state w in
  if mel_filters_initialized d then (true, w)
  else
    (true, with_dsp (Dsp (build_filter_bank bin_point) true
                         (hann_window d) (fft_initialized d)) w).

(** ** FFT workspace: [init_fft_workspace] *)

Definition build_hann_window : list F32.float32 :=
  (fun i => F32.mul F32.c_0_5 (F32.sub F32.c_1 (hann_cos i))) <$> seqZ 0 N_FFT.

Definition init_fft_workspace (e : env) (w : world) : bool * world :=
  let d := dsp_state w in
  if fft_initialized d then (true, w)
  else if negb (env_alloc_ok e) then (false, emit LogFftAllocFailed w)
  else if negb (env_plan_ok e) then (false, emit LogFftPlanFailed w)
  else
    (true, with_dsp (Dsp (mel_filter_bank d) (mel_filters_initialized d)
                         build_hann_window true) w).

(** ** Feature extraction: [compute_mel_spectrogram] *)

Definition c_m80 : F32.float32 := SFopp F32.c_80.

(** The window loaded into [fft_in] for the frame that starts at [start]. *)
Definition load_frame (hann audio : list F32.float32) (num_samples start : Z)
    : list (F32.float32 * F32.float32) :=
  (fun i =>
     if start + i <? num_samples
     then (F32.mul (rd audio (start + i)) (rd hann i), F32.zero)
     else (F32.zero, F32.zero)) <$> seqZ 0 N_FFT.

Definition power_spectrum (fft_out : list (F32.float32 * F32.float32))
    : list F32.float32 :=
  (fun i =>
     let '(real, imag) := default (F32.zero, F32.zero) (fft_out !! Z.to_nat i) in
     F32.add (F32.mul real real) (F32.mul imag imag)) <$> seqZ 0 N_FFT_BINS.

Definition mel_energy (filter power : list F32.float32) : F32.float32 :=
  for_range 0 N_FFT_BINS
    (fun k acc => F32.add acc (F32.mul (rd filter k) (rd power k))) F32.zero.

Definition mel_normalize (energy : F32.float32) : F32.float32 :=
  let mel_db := F32.mul F32.c_10 (log10f (F32.fmaxf energy F32.c_1em10)) in
  let mel_normalized := F32.div (F32.sub mel_db c_m80) (F32.sub F32.zero c_m80) in
  let mel_normalized :=
    if F32.ltb mel_normalized F32.zero then F32.zero else mel_normalized in
  if F32.gtb mel_normalized F32.c_1 then F32.c_1 else mel_normalized.

(** The value stored at [output[frame_count * N_MELS + m]]. *)
Definition mel_value (d : dsp) (audio : list F32.float32) (num_samples start m : Z)
    : F32.float32 :=
  let power := power_spectrum (fftwf_execute (load_frame (hann_window d) audio num_samples start)) in
  mel_normalize (mel_energy (rd_row (mel_filter_bank d) m) power).

Definition frame_body (d : dsp) (audio : list F32.float32)
    (num_samples start frame_count : Z) (output : list F32.float32)
    : list F32.float32 :=
  let power := power_spectrum (fftwf_execute (load_frame (hann_window d) audio num_samples start)) in
  for_range 0 N_MELS
    (fun m output =>
       wr output (frame_count * N_MELS + m)
          (mel_normalize (mel_energy (rd_row (mel_filter_bank d) m) power)))
    output.

(** The frame loop.  Every iteration increases [frame_count], which the guard
    keeps below [N_FRAMES]: [N_FRAMES] units of fuel never run out. *)
Fixpoint frame_loop (fuel : nat) (d : dsp) (audio : list F32.float32)
    (num_samples start frame_count : Z) (output : list F32.float32)
    : Z * list F32.float32 :=
  match fuel with
  | O => (frame_count, output)
  | S fuel' =>
      if (start <? wrap_s32 num_samples - N_FFT) && (frame_count <? N_FRAMES) then
        frame_loop fuel' d audio num_samples (start + HOP_LENGTH) (frame_count + 1)
          (frame_body d audio (wrap_s32 num_samples) start frame_count output)
      else (frame_count, output)
  end.

Definition zero_features : list F32.float32 :=
  replicate (Z.to_nat EXPECTED_INPUT_SIZE) F32.zero.

Definition compute_mel_spectrogram (e : env) (audio : list F32.float32)
    (num_samples : Z) (w : world) : list F32.float32 * world :=
  let '(ok1, w) := init_fft_workspace e w in
  let '(ok, w) := if ok1 then init_mel_filter_bank w else (false, w) in
  if negb ok then (zero_features, emit LogMelInitFailed w)
  else
    let '(frame_count, output) :=
      frame_loop (Z.to_nat N_FRAMES) (dsp_state w) audio num_samples 0 0 zero_features in
    (output, emit (LogMelComputed frame_count) w).

(** ** Quantisation: [quantize_input] *)

Definition zero_point : Z := -128.

Definition centered_value (mel_value : F32.float32) : F32.float32 :=
  F32.mul (F32.sub mel_value F32.c_0_5) F32.c_2.

(** The integer before the two clamps. *)
Definition quantize_raw (mel_value : F32.float32) : Z :=
  wrap_s32 (F32.roundf_to_int (F32.div (centered_value mel_value) F32.c_scale) + zero_point).

Definition clamp_int8 (quantized : Z) : Z :=
  let quantized := if quantized <? -128 then -128 else quantized in
  if quantized >? 127 then 127 else quantized.

Definition quantize_value (mel_value : F32.float32) : Z :=
  wrap_s8 (clamp_int8 (quantize_raw mel_value)).

Definition quantize_input (mel_features : list F32.float32) : list Z :=
  (fun i => quantize_value (rd mel_features i)) <$> seqZ 0 EXPECTED_INPUT_SIZE.

(** ** Inference pass: [process_gunshot_detection] *)

Definition MIN_RMS_THRESHOLD : F32.float32 := F32.c_0_001.

(** [rms += audio_samples[i] * audio_samples[i]] over a run of samples, in
    order, from [rms = 0.0f]. *)
Definition sum_squares (samples : list F32.float32) : F32.float32 :=
  fold_left (fun rms x => F32.add rms (F32.mul x x)) samples F32.zero.

(** The loudness computed at the head of the pass: the loop walks the first
    [num_samples] elements of [audio_samples]. *)
Definition compute_rms (audio_samples : list F32.float32) (num_samples : Z)
    : F32.float32 :=
  let sum := sum_squares (take (Z.to_nat num_samples) audio_samples) in
  F32.sqrt (F32.div sum (F32.of_int num_samples)).

(** Reading one [int8_t] of the output tensor as a [float]. *)
Definition dequantize_output (q : Z) : F32.float32 :=
  F32.add (F32.mul (F32.of_int (wrap_s8 q)) F32.c_scale)
          (F32.mul (F32.of_int (-128)) F32.c_scale).

Definition softmax2 (output1 output2 : F32.float32) : F32.float32 * F32.float32 :=
  let exp1 := expf output1 in
  let exp2 := expf output2 in
  let sum := F32.add exp1 exp2 in
  (F32.div exp1 sum, F32.div exp2 sum).

(** The detection branch that follows the softmax. *)
Definition detection_logic (e : env) (prob2 rms : F32.float32) (w : world)
    : bool * world :=
  let gunshot_confidence := F32.mul prob2 F32.c_100 in
  if F32.gtb prob2 (confidence_threshold (cfg w)) then
    let w := with_detection_count (wrap_u32 (detection_count w + 1)) w in
    let w := emit (LogGunshotDetected gunshot_confidence rms) w in
    let w := if email_enabled (cfg w)
             then snd (send_email_notification e gunshot_confidence rms w)
             else w in
    (true, w)
  else
    (false, emit (LogNoGunshot gunshot_confidence rms) w).

Definition process_gunshot_detection (e : env) (audio_samples : list F32.float32)
    (num_samples : Z) (w : world) : bool * world :=
  if negb (ml_ready w) then (false, w)
  else
    let rms := compute_rms audio_samples num_samples in
    if F32.ltb rms MIN_RMS_THRESHOLD then (false, emit (LogSilence rms) w)
    else
      let '(mel_features, w) := compute_mel_spectrogram e audio_samples num_samples w in
      let quantized_input := quantize_input mel_features in
      let w := with_input_tensor quantized_input w in
      match env_infer e with
      | Some (q1, q2) =>
          let output1 := dequantize_output q1 in
          let output2 := dequantize_output q2 in
          let '(prob1, prob2) := softmax2 output1 output2 in
          let w := with_inference_count (wrap_u32 (inference_count w + 1)) w in
          detection_logic e prob2 rms w
      | None => (false, emit LogInferenceFailed w)
      end.

(** ** Audio callback: [on_process] *)

(** [memcpy(audio_buffer + samples_accumulated, samples, n_samples * sizeof(float))]. *)
Definition memcpy_at (buffer : list F32.float32) (offset : Z) (samples : list F32.float32)
    : list F32.float32 :=
  take (Z.to_nat offset) buffer ++ samples
       ++ drop (Z.to_nat offset + length samples) buffer.

(** The block that adds the samples to the buffer and runs a pass once the
    inference threshold is reached. *)
Definition accumulate (e : env) (samples : list F32.float32) (w : world) : world :=
  let n_samples := wrap_u32 (Z.of_nat (length samples)) in
  if wrap_u32 (samples_accumulated w + n_samples) <=? AUDIO_BUFFER_SIZE then
    let w := with_audio (memcpy_at (audio_buffer w) (samples_accumulated w) samples)
                        (wrap_u32 (samples_accumulated w + n_samples)) w in
    let w := check_config_changes e w in
    if INFERENCE_THRESHOLD <=? samples_accumulated w then
      let w := snd (process_gunshot_detection e (audio_buffer w) AUDIO_BUFFER_SIZE w) in
      with_audio (audio_buffer w) 0 w
    else w
  else w.

(** What [pw_stream_dequeue_buffer] hands to the callback. *)
Inductive pw_input : Type :=
| NoBuffer
| NullData
| Samples (samples : list F32.float32).

Definition on_process (e : env) (is_target_stream : bool) (b : pw_input) (w : world)
    : world :=
  match b with
  | NoBuffer => emit LogOutOfBuffers w
  | NullData => w
  | Samples samples =>
      if is_target_stream && ml_ready w then
        let w := with_debug_counter (wrap_u32 (debug_counter w + 1)) w in
        let w := if debug_counter w mod 5000 =? 0 then load_config e w else w in
        accumulate e samples w
      else w
  end.

(** ** Start-up: the part of [main] before the main loop *)

Definition main_startup (e : env) (w : world) : option Z * world :=
  let w := load_config e w in
  let w := with_config_check (env_time e) (last_mtime w) w in
  if negb (env_larod_init_ok e) then (Some 1, emit LogLarodInitFailed w)
  else
    let '(ok1, w) := init_fft_workspace e w in
    let '(ok, w) := if ok1 then init_mel_filter_bank w else (false, w) in
    if negb ok then (Some 1, emit LogAudioInitFailed w)
    else (None, emit LogPipelineReady (with_ml_ready true w)).

(** The values of the global variables when the program starts. *)
Definition initial_world : world :=
  World (Config F32.c_0_45 false "smtp.gmail.com" 587 "" "" "")
        (Dsp (replicate (Z.to_nat N_MELS) zero_row) false [] false)
        0 (replicate (Z.to_nat AUDIO_BUFFER_SIZE) F32.zero) 0 0 false 0 0 0 0
        (replicate (Z.to_nat EXPECTED_INPUT_SIZE) 0) [].


(** ** Observations on a trace *)

Definition is_email (ev : event) : bool :=
  match ev with EmailSent _ _ _ => true | _ => false end.

Fixpoint count_events (p : event -> bool) (t : list event) : Z :=
  match t with
  | [] => 0
  | ev :: t' => (if p ev then 1 else 0) + count_events p t'
  end.

(** Number of Detection Events (mails handed to the transport) in a trace. *)
Definition emails_sent (t : list event) : Z := count_events is_email t.

Definition is_detection_log (ev : event) : bool :=
  match ev with LogGunshotDetected _ _ => true | _ => false end.

Definition detections_logged (t : list event) : Z :=
  count_events is_detection_log t.

(** Two consecutive passes of the decision step with the same probability. *)
Definition two_passes (e1 e2 : env) (prob2 rms : F32.float32) (w : world) : world :=
  snd (detection_logic e2 prob2 rms (snd (detection_logic e1 prob2 rms w))).

(** The decision step read from the specification: an event on every pass
    above the threshold unless the previous event is less than the cooldown
    away. *)
Definition spec_events_two_passes (elapsed : Z) : Z :=
  if elapsed <? EMAIL_RATE_LIMIT_SECONDS then 1 else 2.

(** ** Accumulation buffer *)

(** Fields that neither the configuration reload nor an inference pass writes. *)
Definition same_audio (w w' : world) : Prop :=
  audio_buffer w' = audio_buffer w /\
  samples_accumulated w' = samples_accumulated w /\
  ml_ready w' = ml_ready w.

(** The buffer has its declared size, and the fill count stays inside it. *)
Definition buffer_inv (w : world) : Prop :=
  Z.of_nat (length (audio_buffer w)) = AUDIO_BUFFER_SIZE /\
  0 <= samples_accumulated w <= AUDIO_BUFFER_SIZE.

(** A sequence of callbacks of the accumulation block. *)
Definition accumulate_all (inputs : list (env * list F32.float32)) (w : world) : world :=
  fold_left (fun w x => accumulate (fst x) (snd x) w) inputs w.

Ltac break_match :=
  repeat match goal with
         | |- context [match ?x with _ => _ end] =>
             match type of x with
             | world => fail 1
             | _ => destruct x eqn:?
             end
         end.

(** ** Framing *)

(** Number of frames the frame loop produces. *)
Definition frames_produced (d : dsp) (audio : list F32.float32) (num_samples : Z) : Z :=
  fst (frame_loop (Z.to_nat N_FRAMES) d audio num_samples 0 0 zero_features).

(** The window of a frame read without padding. *)
Definition whole_frame (hann audio : list F32.float32) (start : Z)
    : list (F32.float32 * F32.float32) :=
  (fun i => (F32.mul (rd audio (start + i)) (rd hann i), F32.zero)) <$> seqZ 0 N_FFT.


(** ** Rounding to binary32 *)

(** The exponent of the binary32 format for a number with [e] binary digits
    before the point. *)
Definition fexp32 (e : Z) : Z := Z.max (e - 24) (-149).

(** Right shift applied by the first step of [binary_round_aux]. *)
Definition round_shift (mx ex : Z) : Z :=
  Z.max 0 (fexp32 (Zdigits2 mx + ex) - ex).

(** The float made of a rounded mantissa [m2] (at most 2^24) and its exponent. *)
Definition pack (s : bool) (m2 e1 : Z) : F32.float32 :=
  match m2 with
  | Z0 => S754_zero s
  | Zpos p =>
      if m2 <? 2 ^ 24
      then (if e1 <=? 104 then S754_finite s p e1 else S754_infinity s)
      else (if e1 + 1 <=? 104 then S754_finite s (2 ^ 23)%positive (e1 + 1)
            else S754_infinity s)
  | Zneg _ => S754_nan
  end.

(** Magnitude, sign and finiteness of a float. *)
Definition magQ (x : F32.float32) : Q :=
  match x with
  | S754_finite _ m e => (inject_Z (Z.pos m) * F32.pow2Q e)%Q
  | _ => 0%Q
  end.

Definition sign_of (x : F32.float32) : bool :=
  match x with
  | S754_zero s | S754_infinity s | S754_finite s _ _ => s
  | S754_nan => false
  end.

Definition is_real (x : F32.float32) : bool :=
  match x with
  | S754_zero _ | S754_finite _ _ _ => true
  | _ => false
  end.

(** Relative rounding error bound 2^-23 and absolute bound 2^-149. *)
Definition rel_err : Q := 1 # 8388608.
Definition abs_err : Q := F32.pow2Q (-149).

(** [r] carries the sign [s] and approximates the magnitude [X]. *)
Definition approx (r : F32.float32) (s : bool) (X : Q) : Prop :=
  (0 <= X)%Q /\
  match r with
  | S754_zero s' => s' = s /\ (X < abs_err)%Q
  | S754_finite s' m e =>
      s' = s /\ (Qabs (inject_Z (Z.pos m) * F32.pow2Q e - X) <= X * rel_err + abs_err)%Q
  | S754_infinity s' => s' = s /\ (F32.pow2Q 104 <= X)%Q
  | S754_nan => False
  end.

(** [r] is the binary32 rounding of the exact result [D], up to the standard
    error bound, and has its sign. *)
Definition rounds_to (r : F32.float32) (D : Q) : Prop :=
  is_real r = true /\
  ((0 <= D)%Q ->
     (0 <= F32.to_Q r)%Q /\
     (D - (D * rel_err + abs_err) <= F32.to_Q r)%Q /\
     (F32.to_Q r <= D + (D * rel_err + abs_err))%Q) /\
  ((D <= 0)%Q ->
     (F32.to_Q r <= 0)%Q /\
     (D - (- D * rel_err + abs_err) <= F32.to_Q r)%Q /\
     (F32.to_Q r <= D + (- D * rel_err + abs_err))%Q).

(** ** Round trip of the quantiser *)

(** The inverse affine map of the specification, (q - zero_point)·scale,
    in exact arithmetic. *)
Definition dequantize_Q (q : Z) : Q :=
  (inject_Z (q - zero_point) * F32.to_Q F32.c_scale)%Q.

(** One quantisation step. *)
Definition step_Q : Q := F32.to_Q F32.c_scale.

(** Distance between a feature value and its quantised, dequantised image. *)
Definition roundtrip_error (v : F32.float32) : Q :=
  Qabs (dequantize_Q (quantize_value v) - F32.to_Q v).

(** ** Concrete inputs for the examples *)

(** Implementations of the library functions used to run the examples; the
    theorems hold for every implementation. *)
Definition sample_expf (x : F32.float32) : F32.float32 := F32.add F32.c_1 x.
Definition sample_log10f (x : F32.float32) : F32.float32 := F32.sub x F32.c_1.
Definition sample_powf (x y : F32.float32) : F32.float32 := F32.add F32.c_1 (F32.mul x y).
Definition sample_hann_cos (i : Z) : F32.float32 := F32.zero.
Definition sample_fftwf_execute (fft_in : list (F32.float32 * F32.float32))
    : list (F32.float32 * F32.float32) := fft_in.

(** [0.0012f]. *)
Definition c_0_0012 : F32.float32 := S754_finite false 10307922 (-33).

(** An environment in which every library call succeeds, at a given time. *)
Definition env_at (t : Z) : env := Env t None true true true None true true.

(** The same with a failing allocation of the FFT workspace and an inference
    job that returns the two output bytes. *)
Definition env_alloc_fails (t : Z) (q1 q2 : Z) : env :=
  Env t None true false true (Some (q1, q2)) true true.

(** Mail notification switched on and configured. *)
Definition mail_config : config :=
  Config F32.c_0_45 true "smtp.gmail.com" 587 "camera@example.org" "secret"
         "guard@example.org".

(** The dequantisation the specification asks for, (q - zero_point)·scale,
    computed in binary32. *)
Definition spec_dequantize_output (q : Z) : F32.float32 :=
  F32.mul (F32.of_int (wrap_s8 q - zero_point)) F32.c_scale.

(** Loudness of the samples accumulated so far, the [filled] first elements
    of the buffer, as the specification words it. *)
Definition spec_rms (buffer : list F32.float32) (filled : Z) : F32.float32 :=
  F32.sqrt (F32.div (sum_squares (take (Z.to_nat filled) buffer)) (F32.of_int filled)).

(** The initial state with mail notification switched on and configured. *)
Definition mail_world : world := with_cfg (fun _ => mail_config) initial_world.

(** The initial state once start-up has declared the pipeline ready. *)
Definition ready_world : world := with_ml_ready true initial_world.

(** ** Mel filter bank: observations *)

(** The weight [(float)i / n] of the edge loops of [init_mel_filter_bank]. *)
Definition weight (i n : Z) : F32.float32 := F32.div (F32.of_int i) (F32.of_int n).

(** What every weight of a band of at most 512 bins satisfies: a number in
    [0, 1], at least 1/512 unless [i] is zero, in which case it is +0. *)
Definition weight_ok (i n : Z) : bool :=
  let w := weight i n in
  is_real w && Qle_bool 0 (F32.to_Q w) && Qle_bool (F32.to_Q w) 1 &&
  (if 0 <? i then Qle_bool (1 # 512) (F32.to_Q w)
   else match w with S754_zero false => true | _ => false end).

(** Bins of the non-zero weights of a band before normalisation:
    [support_lo, support_hi). *)
Definition support_lo (left center : Z) : Z := if left <? center then left + 1 else center.
Definition support_hi (center right : Z) : Z := if center <? right then right else center.

(** Exact sum of the first [n] terms of [f]. *)
Fixpoint sumQ (f : Z -> Q) (n : nat) : Q :=
  match n with
  | O => 0%Q
  | S n' => (sumQ f n' + f (Z.of_nat n'))%Q
  end.

(** Exact sum of the entries of a row of the bank. *)
Definition row_sum_Q (row : list F32.float32) : Q :=
  sumQ (fun k => F32.to_Q (rd row k)) (Z.to_nat N_FFT_BINS).

(** Tolerance on the sum of a normalised row. *)
Definition sum_tolerance : Q := 1 # 4096.

(** The bin indices computed from the C library's [log10f] and [powf] are
    valid array indices from below (the source clamps them from above). *)
Definition bin_points_valid : bool :=
  forallb (fun i => 0 <=? bin_point i) (seqZ 0 (N_MELS + 2)).

(** ** States the running program can be in *)

(** What a capture callback can receive: the chunk size is a 32-bit byte
    count, so a chunk has fewer than 2^30 samples. *)
Definition chunk_ok (b : pw_input) : Prop :=
  match b with
  | Samples samples => Z.of_nat (length samples) < 2 ^ 30
  | _ => True
  end.

(** States after a start-up that reached the main loop, followed by any
    number of capture callbacks and parameter-change signals. *)
Inductive reachable : world -> Prop :=
| reach_start (e : env) :
    fst (main_startup e initial_world) = None ->
    reachable (snd (main_startup e initial_world))
| reach_on_process (e : env) (is_target_stream : bool) (b : pw_input) (w : world) :
    reachable w -> chunk_ok b -> reachable (on_process e is_target_stream b w)
| reach_parameter_changed (param_name param_value : string) (w : world) :
    reachable w -> reachable (on_parameter_changed param_name param_value w).

(** The threshold test of [load_config], on a configuration. *)
Definition threshold_in_range (c : config) : bool :=
  F32.geb (confidence_threshold c) F32.c_0_30 && F32.leb (confidence_threshold c) F32.c_0_70.

(** The strings of the configuration fit their 256-byte arrays, the
    terminating zero included. *)
Definition config_fits (c : config) : Prop :=
  strlen (smtp_server c) <= 255 /\ strlen (smtp_username c) <= 255 /\
  strlen (smtp_password c) <= 255 /\ strlen (recipient_email c) <= 255.

(** The cooldown readings [current_time] of the mails of a trace, in order. *)
Fixpoint email_times (t : list event) : list Z :=
  match t with
  | [] => []
  | EmailSent _ _ current_time :: t' => current_time :: email_times t'
  | _ :: t' => email_times t'
  end.

(** Successive readings at least the cooldown apart. *)
Fixpoint spaced (times : list Z) : Prop :=
  match times with
  | t1 :: (t2 :: _) as rest => EMAIL_RATE_LIMIT_SECONDS <= t2 - t1 /\ spaced rest
  | _ => True
  end.

(** Number of frames of the frame loop of [compute_mel_spectrogram] on
    [num_samples] samples. *)
Definition frame_count_of (num_samples : Z) : Z :=
  if num_samples <=? N_FFT then 0
  else Z.min N_FRAMES ((num_samples - N_FFT + HOP_LENGTH - 1) / HOP_LENGTH).

(** The mails of the trace, with their cooldown readings, and the value of
    [last_email_time] are the same in both states. *)
Definition same_mail (w w' : world) : Prop :=
  email_times (trace w') = email_times (trace w) /\
  last_email_time w' = last_email_time w.

(** The cooldown readings of the mails sent so far are at least the cooldown
    apart, and [last_email_time] is the reading of the last of them. *)
Definition mail_inv (w : world) : Prop :=
  spaced (email_times (trace w)) /\
  forall t, last (email_times (trace w)) = Some t -> last_email_time w = t.

(** A sample that is +0 or -0. *)
Definition is_zero_sample (x : F32.float32) : bool :=
  match x with S754_zero _ => true | _ => false end.

(** ** Configuration updates *)

(** An update of the configuration leaves the field [f] as it is, or
    overwrites it with a value that does not depend on the configuration. *)
Definition field_stable {A : Type} (f : config -> A) (g : config -> config) : Prop :=
  (forall c, f (g c) = f c) \/ (exists v, forall c, f (g c) = v).

Definition overwrites (g : config -> config) : Prop :=
  field_stable confidence_threshold g /\ field_stable email_enabled g /\
  field_stable smtp_server g /\ field_stable smtp_port g /\
  field_stable smtp_username g /\ field_stable smtp_password g /\
  field_stable recipient_email g.

(** ** Stream selection: [registry_event_global], [on_param_changed] *)

(** Constants of the PipeWire and SPA headers. *)
Variable PW_TYPE_INTERFACE_Node PW_KEY_MEDIA_CLASS PW_KEY_NODE_NAME : string.
Variable SPA_PARAM_Format SPA_MEDIA_TYPE_audio SPA_MEDIA_SUBTYPE_raw : Z.
(** The fields of [struct stream_data] the program reads. *)
Record stream_data : Type := StreamData {
  name : string;
  is_target_stream : bool
}.

(** What [spa_format_parse] makes of a parameter: its return value and the
    media type and subtype it stores. *)
Record spa_pod : Type := SpaPod {
  spa_format_parse : Z;
  media_type : Z;
  media_subtype : Z
}.

Fixpoint spa_dict_lookup (props : list (string * string)) (key : string) : option string :=
  match props with
  | [] => None
  | (k, v) :: rest => if String.eqb k key then Some v else spa_dict_lookup rest key
  end.

(** [strncpy] of at most [n] characters into a zeroed array of more than [n]. *)
Fixpoint strncpy (n : nat) (src : string) : string :=
  match n, src with
  | S n', String c rest => String c (strncpy n' rest)
  | _, _ => EmptyString
  end.

Definition INPUT_NODE : string := "AudioDevice0Input0".
Definition TARGET_NODE : string := "AudioDevice0Input0.Unprocessed".

(** The stream the registry callback connects, if it connects one. *)
Definition registry_event_global (type : string) (props : list (string * string))
    : option stream_data :=
  if negb (String.eqb type PW_TYPE_INTERFACE_Node) then None
  else
    match spa_dict_lookup props PW_KEY_MEDIA_CLASS, spa_dict_lookup props PW_KEY_NODE_NAME with
    | Some media_class, Some node_name =>
        if negb (strstr node_name INPUT_NODE) then None
        else Some (StreamData (strncpy 63 node_name) false)
    | _, _ => None
    end.

Definition on_param_changed (data : stream_data) (id : Z) (param : option spa_pod)
    : stream_data :=
  match param with
  | None => data
  | Some p =>
      if negb (id =? SPA_PARAM_Format) then data
      else if spa_format_parse p <? 0 then data
      else if negb (media_type p =? SPA_MEDIA_TYPE_audio)
              || negb (media_subtype p =? SPA_MEDIA_SUBTYPE_raw) then data
      else if strstr (name data) TARGET_NODE then StreamData (name data) true
      else data
  end.

(** Any number of parameter callbacks on a stream. *)
Definition params_changed (events : list (Z * option spa_pod)) (data : stream_data)
    : stream_data :=
  fold_left (fun d ev => on_param_changed d (fst ev) (snd ev)) events data.

(** ** A run that sends mails *)

(** A configuration file that turns the mail notification on. *)
Definition mail_file : list string :=
  [(qkey "email_enabled" ++ "yes" ++ String dquote EmptyString)%string;
   (qkey "smtp_username" ++ "camera@example.org" ++ String dquote EmptyString)%string;
   (qkey "recipient_email" ++ "guard@example.org" ++ String dquote EmptyString)%string].

(** Start-up that finds this file. *)
Definition env_mail_start : env := Env 0 (Some (1, mail_file)) true true true None true true.

(** A callback at time [t] that finds no configuration file and whose
    inference job answers with the output bytes -128 and 127. *)
Definition env_detect (t : Z) : env :=
  Env t None true true true (Some (-128, 127)) true true.

(** A chunk of loud samples that fills the buffer up to the inference
    threshold. *)
Definition loud_chunk : list F32.float32 :=
  replicate (Z.to_nat INFERENCE_THRESHOLD) F32.c_1.

(** * Properties *)

(** ** Frame lemmas on the state *)

Lemma count_events_app p t1 t2 :
  count_events p (t1 ++ t2) = count_events p t1 + count_events p t2.
Proof.
  induction t1 as [|ev t1 IH]; simpl; [reflexivity | rewrite IH; lia].
Qed.

Lemma emails_sent_app t1 t2 : emails_sent (t1 ++ t2) = emails_sent t1 + emails_sent t2.
Proof. apply count_events_app. Qed.

Lemma detections_logged_app t1 t2 :
  detections_logged (t1 ++ t2) = detections_logged t1 + detections_logged t2.
Proof. apply count_events_app. Qed.

Lemma strlen_nonempty (s : string) : s <> EmptyString -> (strlen s =? 0) = false.
Proof.
  destruct s as [|c s]; [congruence|]. intros _. unfold strlen. simpl String.length.
  apply Z.eqb_neq. lia.
Qed.

(** ** Decision step and mail cooldown *)

Lemma send_email_sent e confidence rms w :
  email_enabled (cfg w) = true ->
  smtp_username (cfg w) <> EmptyString ->
  recipient_email (cfg w) <> EmptyString ->
  EMAIL_RATE_LIMIT_SECONDS <= env_time e - last_email_time w ->
  env_curl_init_ok e = true -> env_curl_ok e = true ->
  send_email_notification e confidence rms w =
    (true, emit (EmailSent confidence rms (env_time e))
                (with_last_email_time (env_time e) w)).
Proof.
  intros He Hu Hr Ht Hi Hc. unfold send_email_notification.
  rewrite He, (strlen_nonempty _ Hu), (strlen_nonempty _ Hr), Hi, Hc. simpl.
  destruct (Z.ltb_spec (env_time e - last_email_time w) EMAIL_RATE_LIMIT_SECONDS);
    [lia | reflexivity].
Qed.

Lemma send_email_rate_limited e confidence rms w :
  email_enabled (cfg w) = true ->
  smtp_username (cfg w) <> EmptyString ->
  recipient_email (cfg w) <> EmptyString ->
  env_time e - last_email_time w < EMAIL_RATE_LIMIT_SECONDS ->
  send_email_notification e confidence rms w =
    (false, emit (LogEmailRateLimited (env_time e - last_email_time w)) w).
Proof.
  intros He Hu Hr Ht. unfold send_email_notification.
  rewrite He, (strlen_nonempty _ Hu), (strlen_nonempty _ Hr). simpl.
  destruct (Z.ltb_spec (env_time e - last_email_time w) EMAIL_RATE_LIMIT_SECONDS);
    [reflexivity | lia].
Qed.

(** A pass above the threshold is always evaluated, counted and logged; the
    mail is a separate matter. *)
Lemma detection_logic_above e prob2 rms w :
  F32.gtb prob2 (confidence_threshold (cfg w)) = true ->
  let w1 := emit (LogGunshotDetected (F32.mul prob2 F32.c_100) rms)
                 (with_detection_count (wrap_u32 (detection_count w + 1)) w) in
  detection_logic e prob2 rms w =
    (true, if email_enabled (cfg w)
           then snd (send_email_notification e (F32.mul prob2 F32.c_100) rms w1)
           else w1).
Proof.
  intros H. unfold detection_logic. rewrite H. reflexivity.
Qed.

Lemma send_email_keeps e confidence rms w :
  let w' := snd (send_email_notification e confidence rms w) in
  cfg w' = cfg w /\ detection_count w' = detection_count w /\
  inference_count w' = inference_count w /\
  detections_logged (trace w') = detections_logged (trace w) /\
  exists t, trace w' = trace w ++ t.
Proof.
  unfold send_email_notification.
  repeat match goal with
         | |- context [if ?b then _ else _] => destruct b
         end; simpl; rewrite ?detections_logged_app; simpl.
  all: repeat split; try (unfold detections_logged; simpl; lia);
    try (eexists; reflexivity).
  exists []. now rewrite app_nil_r.
Qed.

Lemma detection_logic_counts e prob2 rms w :
  F32.gtb prob2 (confidence_threshold (cfg w)) = true ->
  let r := detection_logic e prob2 rms w in
  fst r = true /\
  cfg (snd r) = cfg w /\
  detection_count (snd r) = wrap_u32 (detection_count w + 1) /\
  detections_logged (trace (snd r)) = detections_logged (trace w) + 1.
Proof.
  intros H. cbv zeta. rewrite (detection_logic_above _ _ _ _ H). cbv zeta.
  set (w1 := emit _ _).
  assert (H1 : cfg w1 = cfg w /\ detection_count w1 = wrap_u32 (detection_count w + 1)
               /\ detections_logged (trace w1) = detections_logged (trace w) + 1).
  { subst w1. simpl. rewrite detections_logged_app. repeat split. }
  destruct H1 as (Hc & Hd & Hl).
  destruct (email_enabled (cfg w)); simpl.
  - pose proof (send_email_keeps e (F32.mul prob2 F32.c_100) rms w1) as K.
    cbv zeta in K. destruct K as (K1 & K2 & _ & K4 & _).
    rewrite K1, K2, K4. auto.
  - auto.
Qed.

Lemma gtb_half_threshold : F32.gtb F32.c_0_5 F32.c_0_45 = true.
Proof. reflexivity. Qed.

(** C1 (amended): with the threshold at 0.45 and prob_positive 0.50 on two
    consecutive passes, when mail notification is enabled and configured,
    both transfers succeed and the cooldown of 120 seconds has run out at the
    first pass, the two passes send exactly one mail if less than 120 seconds
    separate them and two mails if 121 seconds do.  On every pass above the
    threshold, whatever the mail settings and the cooldown, the pass reports
    a detection, counts it and logs it. *)
Theorem C1_cooldown_rate_limit (e1 e2 : env) (rms : F32.float32) (w : world) :
  confidence_threshold (cfg w) = F32.c_0_45 ->
  email_enabled (cfg w) = true ->
  smtp_username (cfg w) <> EmptyString ->
  recipient_email (cfg w) <> EmptyString ->
  env_curl_init_ok e1 = true -> env_curl_ok e1 = true ->
  env_curl_init_ok e2 = true -> env_curl_ok e2 = true ->
  EMAIL_RATE_LIMIT_SECONDS <= env_time e1 - last_email_time w ->
  let w2 := two_passes e1 e2 F32.c_0_5 rms w in
  (env_time e2 - env_time e1 < EMAIL_RATE_LIMIT_SECONDS ->
     emails_sent (trace w2) = emails_sent (trace w) + 1) /\
  (env_time e2 - env_time e1 = 121 ->
     emails_sent (trace w2) = emails_sent (trace w) + 2) /\
  detection_count w2 = wrap_u32 (wrap_u32 (detection_count w + 1) + 1) /\
  detections_logged (trace w2) = detections_logged (trace w) + 2 /\
  (forall e prob2 r w0,
      F32.gtb prob2 (confidence_threshold (cfg w0)) = true ->
      fst (detection_logic e prob2 r w0) = true /\
      detection_count (snd (detection_logic e prob2 r w0))
        = wrap_u32 (detection_count w0 + 1) /\
      detections_logged (trace (snd (detection_logic e prob2 r w0)))
        = detections_logged (trace w0) + 1).
Proof.
  intros Hthr Hen Hu Hr Hi1 Hc1 Hi2 Hc2 Hcool. cbv zeta.
  assert (Hgt : F32.gtb F32.c_0_5 (confidence_threshold (cfg w)) = true)
    by (rewrite Hthr; apply gtb_half_threshold).
  unfold two_passes.
  pose proof (detection_logic_counts e1 _ rms _ Hgt) as P1. cbv zeta in P1.
  destruct P1 as (_ & Pc & Pd & Pl).
  (* the first pass sends *)
  assert (T1 : trace (snd (detection_logic e1 F32.c_0_5 rms w))
               = trace w ++ [LogGunshotDetected (F32.mul F32.c_0_5 F32.c_100) rms;
                             EmailSent (F32.mul F32.c_0_5 F32.c_100) rms (env_time e1)]
               /\ last_email_time (snd (detection_logic e1 F32.c_0_5 rms w)) = env_time e1).
  { rewrite (detection_logic_above _ _ _ _ Hgt). cbv zeta. rewrite Hen.
    rewrite send_email_sent; simpl; auto. rewrite <- app_assoc. auto. }
  destruct T1 as (T1 & L1).
  set (w1 := snd (detection_logic e1 F32.c_0_5 rms w)) in *.
  assert (Hgt1 : F32.gtb F32.c_0_5 (confidence_threshold (cfg w1)) = true)
    by (rewrite Pc; exact Hgt).
  pose proof (detection_logic_counts e2 _ rms _ Hgt1) as P2. cbv zeta in P2.
  destruct P2 as (_ & Qc & Qd & Ql).
  assert (E1 : emails_sent (trace w1) = emails_sent (trace w) + 1)
    by (rewrite T1, emails_sent_app; reflexivity).
  assert (Hen1 : email_enabled (cfg w1) = true) by (rewrite Pc; exact Hen).
  assert (Hu1 : smtp_username (cfg w1) <> EmptyString) by (rewrite Pc; exact Hu).
  assert (Hr1 : recipient_email (cfg w1) <> EmptyString) by (rewrite Pc; exact Hr).
  repeat split.
  - intros Hlt. rewrite (detection_logic_above _ _ _ _ Hgt1). cbv zeta. rewrite Hen1.
    rewrite send_email_rate_limited; simpl; auto; [| rewrite L1; exact Hlt].
    rewrite !emails_sent_app, E1. unfold emails_sent; simpl. lia.
  - intros Heq. rewrite (detection_logic_above _ _ _ _ Hgt1). cbv zeta. rewrite Hen1.
    rewrite send_email_sent; simpl; auto;
      [| rewrite L1; unfold EMAIL_RATE_LIMIT_SECONDS; lia].
    rewrite !emails_sent_app, E1. unfold emails_sent; simpl. lia.
  - rewrite Qd, Pd. reflexivity.
  - rewrite Ql, Pl. lia.
  - apply detection_logic_counts; assumption.
  - apply (detection_logic_counts e prob2 r w0); assumption.
  - apply (detection_logic_counts e prob2 r w0); assumption.
Qed.

(** ** The accumulation buffer is touched by the callback only *)

Lemma same_audio_refl w : same_audio w w.
Proof. repeat split. Qed.

Lemma same_audio_trans w1 w2 w3 : same_audio w1 w2 -> same_audio w2 w3 -> same_audio w1 w3.
Proof. unfold same_audio. intros (A & B & C) (D & E & F). rewrite D, E, F. auto. Qed.

Lemma load_config_line_audio w line : same_audio w (load_config_line w line).
Proof.
  unfold load_config_line, load_threshold_line. break_match; repeat split.
Qed.

Lemma load_config_audio e w : same_audio w (load_config e w).
Proof.
  unfold load_config. destruct (env_config_file e) as [[mtime lines]|]; [|repeat split].
  revert w. induction lines as [|l lines IH]; intros w; simpl; [apply same_audio_refl|].
  eapply same_audio_trans; [apply load_config_line_audio | apply IH].
Qed.

Lemma check_config_changes_audio e w : same_audio w (check_config_changes e w).
Proof.
  unfold check_config_changes. break_match; try apply same_audio_refl;
    try (repeat split; fail).
  eapply same_audio_trans; [| apply load_config_audio]. repeat split.
Qed.

Lemma send_email_audio e c r w : same_audio w (snd (send_email_notification e c r w)).
Proof. unfold send_email_notification. break_match; repeat split. Qed.

Lemma detection_logic_audio e p r w : same_audio w (snd (detection_logic e p r w)).
Proof.
  unfold detection_logic. break_match; simpl; try (repeat split; fail).
  eapply same_audio_trans; [| apply send_email_audio]. repeat split.
Qed.

Lemma init_fft_workspace_audio e w : same_audio w (snd (init_fft_workspace e w)).
Proof. unfold init_fft_workspace. break_match; repeat split. Qed.

Lemma init_mel_filter_bank_audio w : same_audio w (snd (init_mel_filter_bank w)).
Proof. unfold init_mel_filter_bank. break_match; repeat split. Qed.

Lemma compute_mel_spectrogram_audio e a n w :
  same_audio w (snd (compute_mel_spectrogram e a n w)).
Proof.
  unfold compute_mel_spectrogram.
  pose proof (init_fft_workspace_audio e w) as H1.
  destruct (init_fft_workspace e w) as [ok1 w1]. simpl in H1.
  destruct ok1.
  - pose proof (init_mel_filter_bank_audio w1) as H2.
    destruct (init_mel_filter_bank w1) as [ok w2]. simpl in H2.
    destruct ok; cbn [negb].
    + match goal with |- context [frame_loop ?a ?b ?c ?d ?e ?f ?g] =>
        destruct (frame_loop a b c d e f g) as [fc out] end. simpl.
      eapply same_audio_trans; [exact H1|]. eapply same_audio_trans; [exact H2|].
      repeat split.
    + eapply same_audio_trans; [exact H1|]. eapply same_audio_trans; [exact H2|].
      repeat split.
  - simpl. eapply same_audio_trans; [exact H1|]. repeat split.
Qed.

Lemma process_gunshot_detection_audio e a n w :
  same_audio w (snd (process_gunshot_detection e a n w)).
Proof.
  unfold process_gunshot_detection.
  destruct (ml_ready w); cbn [negb]; [|apply same_audio_refl].
  destruct (F32.ltb _ _); cbn [snd]; [repeat split|].
  pose proof (compute_mel_spectrogram_audio e a n w) as H1.
  destruct (compute_mel_spectrogram e a n w) as [feat w1]. cbn [snd] in H1.
  destruct (env_infer e) as [[q1 q2]|]; cbn [snd].
  - destruct (softmax2 (dequantize_output q1) (dequantize_output q2)) as [p1 p2].
    eapply same_audio_trans; [exact H1|].
    eapply same_audio_trans; [| apply detection_logic_audio]. repeat split.
  - eapply same_audio_trans; [exact H1|]. repeat split.
Qed.

(** ** Accumulator *)

Lemma wrap_u32_small z : 0 <= z < 2 ^ 32 -> wrap_u32 z = z.
Proof. intros H. unfold wrap_u32. apply Z.mod_small. exact H. Qed.

Lemma rd_nonneg (a : list F32.float32) (k : Z) :
  0 <= k -> rd a k = default F32.zero (a !! Z.to_nat k).
Proof. intros H. unfold rd. destruct (Z.leb_spec 0 k); [reflexivity | lia]. Qed.

Lemma memcpy_at_length (buffer samples : list F32.float32) (offset : Z) :
  0 <= offset ->
  offset + Z.of_nat (length samples) <= Z.of_nat (length buffer) ->
  length (memcpy_at buffer offset samples) = length buffer.
Proof.
  intros H0 H. unfold memcpy_at. rewrite !length_app, length_take, length_drop. lia.
Qed.

Lemma memcpy_at_inside (buffer samples : list F32.float32) (offset i : Z) :
  0 <= offset ->
  offset + Z.of_nat (length samples) <= Z.of_nat (length buffer) ->
  0 <= i < Z.of_nat (length samples) ->
  rd (memcpy_at buffer offset samples) (offset + i) = rd samples i.
Proof.
  intros H0 H Hi. rewrite !rd_nonneg by lia. unfold memcpy_at.
  rewrite lookup_app_r by (rewrite length_take; lia).
  rewrite length_take, lookup_app_l by lia.
  f_equal. f_equal. lia.
Qed.

Lemma memcpy_at_outside (buffer samples : list F32.float32) (offset k : Z) :
  0 <= offset ->
  offset + Z.of_nat (length samples) <= Z.of_nat (length buffer) ->
  k < offset \/ offset + Z.of_nat (length samples) <= k ->
  rd (memcpy_at buffer offset samples) k = rd buffer k.
Proof.
  intros H0 H Hk. unfold rd. destruct (Z.leb_spec 0 k) as [Hk0|]; [|reflexivity].
  unfold memcpy_at. destruct Hk as [Hk|Hk].
  - rewrite lookup_app_l by (rewrite length_take; lia).
    rewrite lookup_take_lt by lia. reflexivity.
  - rewrite lookup_app_r by (rewrite length_take; lia).
    rewrite lookup_app_r by (rewrite length_take; lia).
    rewrite lookup_drop, length_take. do 2 f_equal. lia.
Qed.

Lemma accumulate_dropped e samples w :
  AUDIO_BUFFER_SIZE < wrap_u32 (samples_accumulated w + wrap_u32 (Z.of_nat (length samples))) ->
  accumulate e samples w = w.
Proof.
  intros H. unfold accumulate.
  destruct (Z.leb_spec (wrap_u32 (samples_accumulated w + wrap_u32 (Z.of_nat (length samples))))
              AUDIO_BUFFER_SIZE); [lia | reflexivity].
Qed.

Lemma accumulate_copied e samples w :
  wrap_u32 (samples_accumulated w + wrap_u32 (Z.of_nat (length samples))) <= AUDIO_BUFFER_SIZE ->
  let filled' := wrap_u32 (samples_accumulated w + wrap_u32 (Z.of_nat (length samples))) in
  let w' := accumulate e samples w in
  audio_buffer w' = memcpy_at (audio_buffer w) (samples_accumulated w) samples /\
  samples_accumulated w' = (if INFERENCE_THRESHOLD <=? filled' then 0 else filled') /\
  ml_ready w' = ml_ready w.
Proof.
  intros H. cbv zeta. unfold accumulate.
  destruct (Z.leb_spec (wrap_u32 (samples_accumulated w + wrap_u32 (Z.of_nat (length samples))))
              AUDIO_BUFFER_SIZE); [|lia].
  set (w1 := with_audio _ _ w).
  pose proof (check_config_changes_audio e w1) as (A1 & A2 & A3).
  rewrite A2. subst w1. cbn [samples_accumulated with_audio].
  set (w2 := check_config_changes e _) in *.
  destruct (INFERENCE_THRESHOLD <=? _).
  - pose proof (process_gunshot_detection_audio e (audio_buffer w2) AUDIO_BUFFER_SIZE w2)
      as (B1 & B2 & B3).
    cbn [audio_buffer samples_accumulated ml_ready with_audio].
    rewrite B1, B3, A1, A3. auto.
  - rewrite A1, A2, A3. auto.
Qed.

Lemma accumulate_inv e samples w :
  buffer_inv w -> Z.of_nat (length samples) < 2 ^ 30 ->
  buffer_inv (accumulate e samples w).
Proof.
  intros (HL & H0 & H1) Hn. unfold AUDIO_BUFFER_SIZE in *.
  assert (Hw1 : wrap_u32 (Z.of_nat (length samples)) = Z.of_nat (length samples))
    by (apply wrap_u32_small; lia).
  assert (Hw2 : wrap_u32 (samples_accumulated w + Z.of_nat (length samples))
                = samples_accumulated w + Z.of_nat (length samples))
    by (apply wrap_u32_small; lia).
  destruct (Z.le_gt_cases (samples_accumulated w + Z.of_nat (length samples)) 180800) as [Hle|Hgt].
  - pose proof (accumulate_copied e samples w) as K. cbv zeta in K.
    rewrite Hw1, Hw2 in K. destruct (K Hle) as (K1 & K2 & _).
    unfold buffer_inv, AUDIO_BUFFER_SIZE. rewrite K1, K2, memcpy_at_length by lia.
    split; [exact HL|]. destruct (INFERENCE_THRESHOLD <=? _); lia.
  - rewrite accumulate_dropped; [repeat split; auto|].
    rewrite Hw1, Hw2. unfold AUDIO_BUFFER_SIZE. lia.
Qed.

Lemma accumulate_all_inv inputs w :
  buffer_inv w ->
  Forall (fun x => Z.of_nat (length (snd x)) < 2 ^ 30) inputs ->
  buffer_inv (accumulate_all inputs w).
Proof.
  revert w. induction inputs as [|[e' s'] inputs IH]; intros w Hinv HF; simpl.
  - exact Hinv.
  - inversion HF as [|x l Hx Hl]; subst. simpl in Hx.
    apply IH; [apply accumulate_inv; assumption | assumption].
Qed.

(** C5 (amended): a chunk is copied into the buffer exactly when
    filled + chunk_length <= capacity; otherwise the whole chunk is dropped
    and nothing changes.  0 <= filled <= capacity holds after every callback
    and after every sequence of callbacks.  A chunk that fills the buffer
    exactly up to capacity is copied; as every copy that reaches the
    inference threshold does, it is followed at once by a consumption that
    resets filled to zero. *)
Theorem C5_accumulator_append (e : env) (samples : list F32.float32) (w : world) :
  buffer_inv w -> Z.of_nat (length samples) < 2 ^ 30 ->
  let filled := samples_accumulated w in
  let n := Z.of_nat (length samples) in
  let w' := accumulate e samples w in
  buffer_inv w' /\
  (AUDIO_BUFFER_SIZE < filled + n -> w' = w) /\
  (filled + n <= AUDIO_BUFFER_SIZE ->
     (forall i, 0 <= i < n -> rd (audio_buffer w') (filled + i) = rd samples i) /\
     (forall k, k < filled \/ filled + n <= k ->
                rd (audio_buffer w') k = rd (audio_buffer w) k) /\
     samples_accumulated w' =
       (if INFERENCE_THRESHOLD <=? filled + n then 0 else filled + n)) /\
  (filled + n = AUDIO_BUFFER_SIZE ->
     audio_buffer w' = memcpy_at (audio_buffer w) filled samples /\
     samples_accumulated w' = 0) /\
  (forall inputs,
      Forall (fun x => Z.of_nat (length (snd x)) < 2 ^ 30) inputs ->
      buffer_inv (accumulate_all inputs w)).
Proof.
  intros Hinv Hn. cbv zeta.
  pose proof Hinv as (HL & H0 & H1). unfold AUDIO_BUFFER_SIZE in HL, H0, H1.
  assert (Hw1 : wrap_u32 (Z.of_nat (length samples)) = Z.of_nat (length samples))
    by (apply wrap_u32_small; lia).
  assert (Hw2 : wrap_u32 (samples_accumulated w + Z.of_nat (length samples))
                = samples_accumulated w + Z.of_nat (length samples))
    by (apply wrap_u32_small; lia).
  pose proof (accumulate_copied e samples w) as K. cbv zeta in K. rewrite Hw1, Hw2 in K.
  split; [apply accumulate_inv; assumption|].
  split; [intros Hgt; apply accumulate_dropped; rewrite Hw1, Hw2; exact Hgt|].
  split; [|split].
  - intros Hle. destruct (K Hle) as (K1 & K2 & _). rewrite K1.
    unfold AUDIO_BUFFER_SIZE in Hle. repeat split.
    + intros i Hi. apply memcpy_at_inside; lia.
    + intros k Hk. apply memcpy_at_outside; lia.
    + exact K2.
  - intros Heq. destruct (K ltac:(lia)) as (K1 & K2 & _). split; [exact K1|].
    rewrite K2, Heq. reflexivity.
  - intros inputs HF. apply accumulate_all_inv; assumption.
Qed.

(** ** Workspace initialisation *)

Lemma load_config_line_dsp w line :
  dsp_state (load_config_line w line) = dsp_state w /\
  inference_count (load_config_line w line) = inference_count w /\
  input_tensor (load_config_line w line) = input_tensor w.
Proof.
  unfold load_config_line, load_threshold_line. break_match; repeat split.
Qed.

Lemma load_config_dsp e w :
  dsp_state (load_config e w) = dsp_state w /\
  inference_count (load_config e w) = inference_count w /\
  input_tensor (load_config e w) = input_tensor w.
Proof.
  unfold load_config. destruct (env_config_file e) as [[mtime lines]|]; [|repeat split].
  revert w. induction lines as [|l lines IH]; intros w; simpl; [repeat split|].
  destruct (IH (load_config_line w l)) as (A & B & C).
  destruct (load_config_line_dsp w l) as (A' & B' & C').
  rewrite A, B, C, A', B', C'. repeat split.
Qed.

Lemma init_fft_workspace_fails e w :
  fft_initialized (dsp_state w) = false ->
  env_alloc_ok e = false \/ env_plan_ok e = false ->
  init_fft_workspace e w =
    (false, emit (if env_alloc_ok e then LogFftPlanFailed else LogFftAllocFailed) w).
Proof.
  intros Hf H. unfold init_fft_workspace. rewrite Hf.
  destruct (env_alloc_ok e), (env_plan_ok e); simpl; try reflexivity.
  destruct H; discriminate.
Qed.

Lemma process_not_ready e a n w :
  ml_ready w = false -> process_gunshot_detection e a n w = (false, w).
Proof. intros H. unfold process_gunshot_detection. rewrite H. reflexivity. Qed.

Lemma on_process_not_ready e t samples w :
  ml_ready w = false -> on_process e t (Samples samples) w = w.
Proof. intros H. unfold on_process. rewrite H, andb_false_r. reflexivity. Qed.

(** When the allocation of the FFT workspace or the creation of the plan
    fails at start-up, [main] exits with status 1 and [ml_ready] stays unset;
    while it is unset, neither a pass nor a callback extracts, quantises or
    infers anything (the state is returned unchanged).  The extractor
    answers a failed initialisation by logging the error and returning the
    all-zero feature matrix, without computing a frame. *)
Lemma startup_workspace_failure (e : env) (w : world) :
  ml_ready w = false ->
  fft_initialized (dsp_state w) = false ->
  env_alloc_ok e = false \/ env_plan_ok e = false ->
  fst (main_startup e w) = Some 1 /\
  ml_ready (snd (main_startup e w)) = false /\
  inference_count (snd (main_startup e w)) = inference_count w /\
  input_tensor (snd (main_startup e w)) = input_tensor w /\
  (forall e' a n, process_gunshot_detection e' a n (snd (main_startup e w))
                  = (false, snd (main_startup e w))) /\
  (forall e' t samples, on_process e' t (Samples samples) (snd (main_startup e w))
                        = snd (main_startup e w)) /\
  (forall a n w0,
      fft_initialized (dsp_state w0) = false ->
      fst (compute_mel_spectrogram e a n w0) = zero_features /\
      trace (snd (compute_mel_spectrogram e a n w0)) =
        trace w0 ++ [if env_alloc_ok e then LogFftPlanFailed else LogFftAllocFailed;
                     LogMelInitFailed]).
Proof.
  intros Hml Hfft Hfail.
  assert (Hs : fst (main_startup e w) = Some 1 /\
               ml_ready (snd (main_startup e w)) = false /\
               inference_count (snd (main_startup e w)) = inference_count w /\
               input_tensor (snd (main_startup e w)) = input_tensor w).
  { unfold main_startup.
    pose proof (load_config_audio e w) as (_ & _ & Hr).
    pose proof (load_config_dsp e w) as (Hd & Hi & Ht).
    set (w1 := with_config_check _ _ (load_config e w)).
    assert (H1 : ml_ready w1 = false) by (subst w1; simpl; congruence).
    assert (H2 : fft_initialized (dsp_state w1) = false) by (subst w1; simpl; congruence).
    assert (H3 : inference_count w1 = inference_count w) by (subst w1; simpl; congruence).
    assert (H4 : input_tensor w1 = input_tensor w) by (subst w1; simpl; congruence).
    destruct (env_larod_init_ok e); cbn [negb]; [|simpl; auto].
    rewrite (init_fft_workspace_fails e w1 H2 Hfail). cbn [negb fst snd].
    simpl. auto. }
  destruct Hs as (S1 & S2 & S3 & S4).
  repeat split; auto.
  - intros. apply process_not_ready. exact S2.
  - intros. apply on_process_not_ready. exact S2.
  - unfold compute_mel_spectrogram. rewrite (init_fft_workspace_fails e w0 H Hfail).
    reflexivity.
  - unfold compute_mel_spectrogram. rewrite (init_fft_workspace_fails e w0 H Hfail).
    cbn [negb snd trace emit]. rewrite <- app_assoc. reflexivity.
Qed.

(** ** Loops over index ranges *)

Lemma for_range_empty {A} lo hi (body : Z -> A -> A) a :
  hi <= lo -> for_range lo hi body a = a.
Proof.
  intros H. unfold for_range.
  replace (Z.to_nat (hi - lo)) with O by lia. reflexivity.
Qed.

Lemma for_loop_snoc {A} (n : nat) k (body : Z -> A -> A) a :
  for_loop (S n) k body a = body (k + Z.of_nat n) (for_loop n k body a).
Proof.
  revert k a. induction n as [|n IH]; intros k a.
  - cbn [for_loop]. rewrite Z.add_0_r. reflexivity.
  - change (for_loop (S (S n)) k body a) with (for_loop (S n) (k + 1) body (body k a)).
    rewrite IH. cbn [for_loop]. f_equal. lia.
Qed.

Lemma for_range_snoc {A} lo hi (body : Z -> A -> A) a :
  lo <= hi -> for_range lo (hi + 1) body a = body hi (for_range lo hi body a).
Proof.
  intros H. unfold for_range.
  replace (Z.to_nat (hi + 1 - lo)) with (S (Z.to_nat (hi - lo))) by lia.
  rewrite for_loop_snoc. f_equal. lia.
Qed.

(** Induction over the upper bound of a loop. *)
Lemma for_range_ind {A} (P : Z -> A -> Prop) lo hi (body : Z -> A -> A) a :
  lo <= hi ->
  P lo a ->
  (forall k acc, lo <= k < hi -> P k acc -> P (k + 1) (body k acc)) ->
  P hi (for_range lo hi body a).
Proof.
  intros Hle H0 Hstep.
  assert (G : forall n : nat, lo + Z.of_nat n <= hi ->
                              P (lo + Z.of_nat n) (for_range lo (lo + Z.of_nat n) body a)).
  { induction n as [|n IH]; intros Hn.
    - rewrite Z.add_0_r, for_range_empty by lia. exact H0.
    - replace (lo + Z.of_nat (S n)) with (lo + Z.of_nat n + 1) by lia.
      rewrite for_range_snoc by lia. apply Hstep; [lia|]. apply IH. lia. }
  specialize (G (Z.to_nat (hi - lo))).
  replace (lo + Z.of_nat (Z.to_nat (hi - lo))) with hi in G by lia.
  apply G. lia.
Qed.

Lemma wr_length {A} (a : list A) k v : length (wr a k v) = length a.
Proof. unfold wr. destruct (0 <=? k); [apply length_insert | reflexivity]. Qed.

Lemma rd_wr_eq (a : list F32.float32) k v :
  0 <= k < Z.of_nat (length a) -> rd (wr a k v) k = v.
Proof.
  intros H. unfold rd, wr. destruct (Z.leb_spec 0 k); [|lia].
  rewrite list_lookup_insert_eq by lia. reflexivity.
Qed.

Lemma rd_wr_ne (a : list F32.float32) k j v : k <> j -> rd (wr a k v) j = rd a j.
Proof.
  intros H. unfold rd, wr. destruct (Z.leb_spec 0 k), (Z.leb_spec 0 j); try reflexivity.
  rewrite list_lookup_insert_ne by lia. reflexivity.
Qed.

(** A loop that stores [f m] at [base + m] for every [m] below [n]. *)
Lemma for_range_store (f : Z -> F32.float32) (base n : Z) (a : list F32.float32) :
  0 <= base -> 0 <= n -> base + n <= Z.of_nat (length a) ->
  let a' := for_range 0 n (fun m acc => wr acc (base + m) (f m)) a in
  length a' = length a /\
  forall j, rd a' j = if (base <=? j) && (j <? base + n) then f (j - base) else rd a j.
Proof.
  intros Hb Hn Hlen. cbv zeta.
  apply (for_range_ind
           (fun k acc => length acc = length a /\
              forall j, rd acc j = if (base <=? j) && (j <? base + k) then f (j - base) else rd a j)
           0 n); [lia | |].
  - split; [reflexivity|]. intros j.
    destruct (Z.leb_spec base j), (Z.ltb_spec j (base + 0)); simpl; try reflexivity; lia.
  - intros k acc Hk (HL & Hrd). split; [rewrite wr_length; exact HL|].
    intros j. destruct (Z.eq_dec (base + k) j) as [Heq|Hne].
    + subst j. rewrite rd_wr_eq by lia.
      destruct (Z.leb_spec base (base + k)), (Z.ltb_spec (base + k) (base + (k + 1)));
        simpl; try lia. f_equal. lia.
    + rewrite rd_wr_ne by exact Hne. rewrite Hrd.
      destruct (Z.leb_spec base j), (Z.ltb_spec j (base + k)), (Z.ltb_spec j (base + (k + 1)));
        simpl; try reflexivity; lia.
Qed.

(** ** Framing *)

Lemma wrap_s32_small z : - 2 ^ 31 <= z < 2 ^ 31 -> wrap_s32 z = z.
Proof. intros H. unfold wrap_s32. rewrite Z.mod_small by lia. lia. Qed.

Lemma load_frame_whole hann audio num_samples start :
  start + N_FFT <= num_samples ->
  load_frame hann audio num_samples start = whole_frame hann audio start.
Proof.
  intros H. unfold load_frame, whole_frame. apply list_fmap_ext.
  intros i x Hx. apply lookup_seqZ in Hx as [-> Hi].
  destruct (Z.ltb_spec (start + (0 + Z.of_nat i)) num_samples); [reflexivity | lia].
Qed.

Lemma frame_body_spec d audio num_samples start frame_count output :
  0 <= frame_count ->
  frame_count * N_MELS + N_MELS <= Z.of_nat (length output) ->
  let output' := frame_body d audio num_samples start frame_count output in
  length output' = length output /\
  forall j, rd output' j =
            if (frame_count * N_MELS <=? j) && (j <? frame_count * N_MELS + N_MELS)
            then mel_value d audio num_samples start (j - frame_count * N_MELS)
            else rd output j.
Proof.
  intros H0 HL. unfold frame_body, mel_value.
  apply (for_range_store
           (fun m => mel_normalize
                       (mel_energy (rd_row (mel_filter_bank d) m)
                          (power_spectrum
                             (fftwf_execute (load_frame (hann_window d) audio num_samples start)))))
           (frame_count * N_MELS) N_MELS output); unfold N_MELS in *; lia.
Qed.

Lemma frame_loop_spec d audio num_samples :
  forall (fuel : nat) (frame_count : Z) (output : list F32.float32),
    0 <= frame_count <= N_FRAMES ->
    N_FRAMES - frame_count <= Z.of_nat fuel ->
    Z.of_nat (length output) = EXPECTED_INPUT_SIZE ->
    let r := frame_loop fuel d audio num_samples (frame_count * HOP_LENGTH) frame_count output in
    frame_count <= fst r <= N_FRAMES /\
    Z.of_nat (length (snd r)) = EXPECTED_INPUT_SIZE /\
    (forall k, frame_count <= k < N_FRAMES ->
               (k < fst r <-> k * HOP_LENGTH < wrap_s32 num_samples - N_FFT)) /\
    (forall k m, 0 <= m < N_MELS ->
       (frame_count <= k < fst r ->
          rd (snd r) (k * N_MELS + m)
            = mel_value d audio (wrap_s32 num_samples) (k * HOP_LENGTH) m) /\
       (k < frame_count \/ fst r <= k ->
          rd (snd r) (k * N_MELS + m) = rd output (k * N_MELS + m))).
Proof.
  induction fuel as [|fuel IH]; intros fc output Hfc Hfuel HL; cbv zeta.
  - simpl. assert (fc = N_FRAMES) by lia. subst fc.
    repeat split; try lia; auto.
  - cbn [frame_loop].
    destruct (Z.ltb_spec (fc * HOP_LENGTH) (wrap_s32 num_samples - N_FFT)) as [Hg|Hg];
      [destruct (Z.ltb_spec fc N_FRAMES) as [Hc|Hc]|]; cbn [andb fst snd].
    + (* one more frame *)
      pose proof (frame_body_spec d audio (wrap_s32 num_samples) (fc * HOP_LENGTH) fc output)
        as FB. cbv zeta in FB.
      destruct FB as (FL & FR); [lia | unfold EXPECTED_INPUT_SIZE, N_MELS, N_FRAMES in *; lia |].
      set (output' := frame_body _ _ _ _ _ _) in *.
      specialize (IH (fc + 1) output').
      replace ((fc + 1) * HOP_LENGTH) with (fc * HOP_LENGTH + HOP_LENGTH) in IH by lia.
      cbv zeta in IH.
      destruct IH as (I1 & I2 & I3 & I4); [lia | lia | rewrite FL; exact HL |].
      set (r := frame_loop _ _ _ _ _ _ _) in *.
      split; [lia|]. split; [exact I2|]. split.
      * intros k Hk. destruct (Z.eq_dec k fc) as [->|Hne]; [split; intros; lia|].
        apply I3. lia.
      * intros k m Hm. split.
        -- intros Hk. destruct (Z.eq_dec k fc) as [->|Hne].
           ++ destruct (I4 fc m Hm) as (_ & I4b). rewrite I4b by lia. rewrite FR.
              unfold N_MELS in *.
              destruct (Z.leb_spec (fc * 28) (fc * 28 + m)),
                (Z.ltb_spec (fc * 28 + m) (fc * 28 + 28)); cbn [andb]; try lia.
              f_equal. lia.
           ++ apply I4; [exact Hm | lia].
        -- intros Hk. destruct (I4 k m Hm) as (_ & I4b). rewrite I4b by lia. rewrite FR.
           unfold N_MELS in *.
           destruct (Z.leb_spec (fc * 28) (k * 28 + m)),
             (Z.ltb_spec (k * 28 + m) (fc * 28 + 28)); cbn [andb]; try reflexivity.
           exfalso. nia.
    + (* the frame cap *)
      assert (fc = N_FRAMES) by lia. subst fc.
      repeat split; try lia; auto.
    + (* no whole window left *)
      repeat split; try lia; auto.
      intros Hk. unfold HOP_LENGTH in *. lia.
Qed.

Lemma rd_replicate_zero n j : rd (replicate n F32.zero) j = F32.zero.
Proof.
  unfold rd. destruct (0 <=? j); [|reflexivity].
  destruct (replicate n F32.zero !! Z.to_nat j) as [x|] eqn:E; [|reflexivity].
  apply lookup_replicate in E as [-> _]. reflexivity.
Qed.

Lemma compute_mel_spectrogram_ready e audio num_samples w :
  fft_initialized (dsp_state w) = true ->
  mel_filters_initialized (dsp_state w) = true ->
  compute_mel_spectrogram e audio num_samples w =
    (snd (frame_loop (Z.to_nat N_FRAMES) (dsp_state w) audio num_samples 0 0 zero_features),
     emit (LogMelComputed (frames_produced (dsp_state w) audio num_samples)) w).
Proof.
  intros H1 H2. unfold compute_mel_spectrogram, init_fft_workspace, init_mel_filter_bank,
    frames_produced.
  rewrite H1, H2. cbn [negb].
  destruct (frame_loop _ _ _ _ _ _ _) as [fc out]. reflexivity.
Qed.

Lemma mel_normalize_clamp energy :
  let y := F32.div (F32.sub (F32.mul F32.c_10 (log10f (F32.fmaxf energy F32.c_1em10))) c_m80)
                   F32.c_80 in
  mel_normalize energy =
    if F32.ltb y F32.zero then F32.zero
    else if F32.gtb y F32.c_1 then F32.c_1 else y.
Proof.
  cbv zeta. unfold mel_normalize.
  change (F32.sub F32.zero c_m80) with F32.c_80.
  destruct (F32.ltb _ F32.zero); reflexivity.
Qed.

(** Framing for a sample count that fits an [int]: frames start at the
    offsets 0, HOP_LENGTH, 2·HOP_LENGTH, ...; the frame with index
    k < N_FRAMES is produced when its window ends before the end of the
    buffer (k·HOP_LENGTH + N_FFT < num_samples) and is not produced when its
    window would reach past the end of the buffer, so that no sample of a
    produced frame is zero-padded.  The mel value of a
    produced frame is the dot product of the filter row with the power
    spectrum of the windowed frame, converted as 10·log10(max(energy, 1e-10)),
    mapped linearly from [-80, 0] dB to [0, 1] and clamped; the rows of
    frames that are not produced stay zero. *)
Lemma framing_whole_windows (e : env) (audio : list F32.float32) (num_samples : Z) (w : world) :
  fft_initialized (dsp_state w) = true ->
  mel_filters_initialized (dsp_state w) = true ->
  0 <= num_samples <= F32.INT_MAX ->
  let output := fst (compute_mel_spectrogram e audio num_samples w) in
  let d := dsp_state w in
  Z.of_nat (length output) = EXPECTED_INPUT_SIZE /\
  (forall k m, 0 <= k < N_FRAMES -> 0 <= m < N_MELS ->
     (k * HOP_LENGTH + N_FFT < num_samples ->
        k < frames_produced d audio num_samples /\
        rd output (k * N_MELS + m) =
          mel_normalize
            (mel_energy (rd_row (mel_filter_bank d) m)
               (power_spectrum
                  (fftwf_execute (whole_frame (hann_window d) audio (k * HOP_LENGTH)))))) /\
     (num_samples < k * HOP_LENGTH + N_FFT ->
        frames_produced d audio num_samples <= k /\
        rd output (k * N_MELS + m) = F32.zero)) /\
  (forall energy,
     let y := F32.div (F32.sub (F32.mul F32.c_10 (log10f (F32.fmaxf energy F32.c_1em10))) c_m80)
                      F32.c_80 in
     mel_normalize energy =
       if F32.ltb y F32.zero then F32.zero
       else if F32.gtb y F32.c_1 then F32.c_1 else y).
Proof.
  intros H1 H2 Hn. cbv zeta.
  rewrite (compute_mel_spectrogram_ready e audio num_samples w H1 H2). cbn [fst].
  pose proof (frame_loop_spec (dsp_state w) audio num_samples (Z.to_nat N_FRAMES) 0 zero_features)
    as L.
  cbv zeta in L. change (0 * HOP_LENGTH) with 0 in L.
  destruct L as (L1 & L2 & L3 & L4).
  { unfold N_FRAMES. lia. }
  { unfold N_FRAMES. lia. }
  { unfold zero_features. rewrite length_replicate. unfold EXPECTED_INPUT_SIZE, N_MELS, N_FRAMES. lia. }
  rewrite wrap_s32_small in L3, L4 by (unfold F32.INT_MAX in Hn; lia).
  unfold frames_produced.
  split; [exact L2|]. split; [|apply mel_normalize_clamp].
  intros k m Hk Hm. split.
  - intros Hin.
    assert (Hlt : k < fst (frame_loop (Z.to_nat N_FRAMES) (dsp_state w) audio num_samples 0 0
                             zero_features)) by (apply L3; lia).
    split; [exact Hlt|].
    destruct (L4 k m Hm) as (L4a & _). rewrite L4a by lia.
    unfold mel_value. rewrite load_frame_whole by lia. reflexivity.
  - intros Hout.
    assert (Hge : fst (frame_loop (Z.to_nat N_FRAMES) (dsp_state w) audio num_samples 0 0
                         zero_features) <= k).
    { destruct (Z.le_gt_cases (fst (frame_loop (Z.to_nat N_FRAMES) (dsp_state w) audio
                                      num_samples 0 0 zero_features)) k) as [?|Hgt]; [assumption|].
      apply L3 in Hgt; lia. }
    split; [exact Hge|].
    destruct (L4 k m Hm) as (_ & L4b). rewrite L4b by lia.
    apply rd_replicate_zero.
Qed.

(** * Invariants of the running program *)
(** ** The readiness flag and the workspace *)


Lemma check_config_changes_dsp e w :
  dsp_state (check_config_changes e w) = dsp_state w.
Proof.
  unfold check_config_changes. break_match; try reflexivity.
  destruct (load_config_dsp e (with_config_check (env_time e) z
                                 (with_config_check (env_time e) (last_mtime w) w)))
    as (A & _).
  rewrite A. reflexivity.
Qed.

Lemma send_email_dsp e c r w :
  dsp_state (snd (send_email_notification e c r w)) = dsp_state w.
Proof. unfold send_email_notification. break_match; reflexivity. Qed.

Lemma detection_logic_dsp e p r w :
  dsp_state (snd (detection_logic e p r w)) = dsp_state w.
Proof.
  unfold detection_logic. break_match; cbn [snd]; try reflexivity.
  rewrite send_email_dsp. reflexivity.
Qed.

Lemma process_dsp e a n w :
  fft_initialized (dsp_state w) = true ->
  mel_filters_initialized (dsp_state w) = true ->
  dsp_state (snd (process_gunshot_detection e a n w)) = dsp_state w.
Proof.
  intros H1 H2. unfold process_gunshot_detection.
  destruct (ml_ready w); cbn [negb]; [|reflexivity].
  destruct (F32.ltb _ _); cbn [snd]; [reflexivity|].
  rewrite compute_mel_spectrogram_ready by assumption.
  destruct (env_infer e) as [[q1 q2]|]; cbn [snd]; [|reflexivity].
  destruct (softmax2 (dequantize_output q1) (dequantize_output q2)) as [p1 p2].
  rewrite detection_logic_dsp. reflexivity.
Qed.

Lemma accumulate_dsp e samples w :
  fft_initialized (dsp_state w) = true ->
  mel_filters_initialized (dsp_state w) = true ->
  dsp_state (accumulate e samples w) = dsp_state w.
Proof.
  intros H1 H2. unfold accumulate.
  destruct (_ <=? AUDIO_BUFFER_SIZE); [|reflexivity].
  set (w1 := with_audio _ _ w).
  assert (D1 : dsp_state (check_config_changes e w1) = dsp_state w)
    by (rewrite check_config_changes_dsp; reflexivity).
  destruct (INFERENCE_THRESHOLD <=? _); [|exact D1].
  cbn [dsp_state with_audio].
  rewrite process_dsp by (rewrite D1; assumption). exact D1.
Qed.

Lemma on_process_dsp e t b w :
  fft_initialized (dsp_state w) = true ->
  mel_filters_initialized (dsp_state w) = true ->
  dsp_state (on_process e t b w) = dsp_state w.
Proof.
  intros H1 H2. unfold on_process. destruct b as [| |samples]; try reflexivity.
  destruct (t && ml_ready w); [|reflexivity].
  set (w1 := with_debug_counter _ w).
  assert (D : dsp_state (if debug_counter w1 mod 5000 =? 0 then load_config e w1 else w1)
              = dsp_state w).
  { destruct (_ =? 0); [|reflexivity]. destruct (load_config_dsp e w1) as (A & _).
    rewrite A. reflexivity. }
  rewrite accumulate_dsp by (rewrite D; assumption). exact D.
Qed.

Lemma on_process_ml_ready e t b w : ml_ready (on_process e t b w) = ml_ready w.
Proof.
  unfold on_process. destruct b as [| |samples]; try reflexivity.
  destruct (t && ml_ready w); [|reflexivity].
  set (w1 := with_debug_counter _ w).
  set (w2 := if _ =? 0 then load_config e w1 else w1).
  assert (M2 : ml_ready w2 = ml_ready w).
  { subst w2. destruct (_ =? 0); [|reflexivity].
    destruct (load_config_audio e w1) as (_ & _ & A). rewrite A. reflexivity. }
  unfold accumulate.
  destruct (_ <=? AUDIO_BUFFER_SIZE); [|exact M2].
  set (w3 := with_audio _ _ w2).
  destruct (check_config_changes_audio e w3) as (_ & _ & A3).
  destruct (INFERENCE_THRESHOLD <=? _).
  - cbn [ml_ready with_audio].
    destruct (process_gunshot_detection_audio e
                (audio_buffer (check_config_changes e w3)) AUDIO_BUFFER_SIZE
                (check_config_changes e w3)) as (_ & _ & A4).
    rewrite A4, A3. exact M2.
  - rewrite A3. exact M2.
Qed.

Lemma on_parameter_changed_frame n v w :
  dsp_state (on_parameter_changed n v w) = dsp_state w /\
  ml_ready (on_parameter_changed n v w) = ml_ready w /\
  audio_buffer (on_parameter_changed n v w) = audio_buffer w /\
  samples_accumulated (on_parameter_changed n v w) = samples_accumulated w /\
  last_email_time (on_parameter_changed n v w) = last_email_time w.
Proof. unfold on_parameter_changed. break_match; repeat split. Qed.

Lemma main_startup_ready e :
  fst (main_startup e initial_world) = None ->
  ml_ready (snd (main_startup e initial_world)) = true /\
  dsp_state (snd (main_startup e initial_world)) = (Dsp (build_filter_bank bin_point) true build_hann_window true).
Proof.
  unfold main_startup. cbv zeta.
  destruct (load_config_dsp e initial_world) as (A & _).
  set (w0 := load_config e initial_world) in *.
  destruct (env_larod_init_ok e); cbn [negb]; [|discriminate].
  unfold init_fft_workspace. cbn [dsp_state with_config_check]. rewrite A.
  cbn [fft_initialized dsp_state initial_world].
  destruct (env_alloc_ok e); cbn [negb]; [|discriminate].
  destruct (env_plan_ok e); cbn [negb]; [|discriminate].
  unfold init_mel_filter_bank. cbn [dsp_state with_dsp mel_filters_initialized].
  rewrite ?A.
  cbn [mel_filters_initialized mel_filter_bank hann_window fft_initialized dsp_state
       initial_world negb fst snd ml_ready emit with_ml_ready with_dsp].
  intros _. split; reflexivity.
Qed.

(** Once the main loop runs, the pipeline stays ready and the filter bank and
    the window are the ones start-up built: no callback rebuilds or modifies
    them, and the feature extractor never takes its failure branch. *)
Theorem reachable_workspace (w : world) :
  reachable w ->
  ml_ready w = true /\
  dsp_state w = (Dsp (build_filter_bank bin_point) true build_hann_window true) /\
  forall e audio num_samples,
    snd (compute_mel_spectrogram e audio num_samples w)
    = emit (LogMelComputed (frames_produced (dsp_state w) audio
                              num_samples)) w.
Proof.
  intros H.
  assert (G : ml_ready w = true /\ dsp_state w = (Dsp (build_filter_bank bin_point) true build_hann_window true)).
  { induction H as [e He | e t b w Hw IH Hb | n v w Hw IH].
    - apply main_startup_ready. exact He.
    - destruct IH as (M & D). split.
      + rewrite on_process_ml_ready. exact M.
      + rewrite on_process_dsp by (rewrite D; reflexivity). exact D.
    - destruct IH as (M & D).
      destruct (on_parameter_changed_frame n v w) as (A & B & _).
      rewrite A, B. auto. }
  destruct G as (M & D). split; [exact M|]. split; [exact D|].
  intros e audio num_samples.
  rewrite compute_mel_spectrogram_ready by (rewrite D; reflexivity). reflexivity.
Qed.



(** ** The fill count between callbacks *)

Lemma main_startup_audio e :
  audio_buffer (snd (main_startup e initial_world)) = audio_buffer initial_world /\
  samples_accumulated (snd (main_startup e initial_world)) = 0.
Proof.
  unfold main_startup. cbv zeta.
  destruct (load_config_audio e initial_world) as (A1 & A2 & _).
  set (w0 := load_config e initial_world) in *.
  destruct (env_larod_init_ok e); cbn [negb snd]; [|auto].
  set (w1 := with_config_check _ _ w0).
  assert (B : audio_buffer w1 = audio_buffer initial_world /\ samples_accumulated w1 = 0)
    by (subst w1; cbn [audio_buffer samples_accumulated with_config_check]; auto).
  destruct B as (B1 & B2).
  pose proof (init_fft_workspace_audio e w1) as (C1 & C2 & _).
  destruct (init_fft_workspace e w1) as [ok1 w2]. cbn [snd] in C1, C2.
  destruct ok1.
  - pose proof (init_mel_filter_bank_audio w2) as (D1 & D2 & _).
    destruct (init_mel_filter_bank w2) as [ok w3]. cbn [snd] in D1, D2.
    destruct ok; cbn [negb snd audio_buffer samples_accumulated emit with_ml_ready];
      rewrite D1, D2, C1, C2; auto.
  - cbn [negb snd audio_buffer samples_accumulated emit]. rewrite C1, C2. auto.
Qed.

Lemma on_process_accumulates e t b w :
  exists w2, same_audio w w2 /\
             (on_process e t b w = w2 \/
              exists samples, b = Samples samples /\
                              on_process e t b w = accumulate e samples w2).
Proof.
  unfold on_process. destruct b as [| |samples].
  - exists (emit LogOutOfBuffers w). split; [repeat split | left; reflexivity].
  - exists w. split; [apply same_audio_refl | left; reflexivity].
  - destruct (t && ml_ready w).
    + set (w1 := with_debug_counter _ w).
      exists (if debug_counter w1 mod 5000 =? 0 then load_config e w1 else w1). split.
      * destruct (_ =? 0).
        -- eapply same_audio_trans; [| apply load_config_audio]. repeat split.
        -- repeat split.
      * right. exists samples. split; reflexivity.
    + exists w. split; [apply same_audio_refl | left; reflexivity].
Qed.

Lemma accumulate_below_threshold e samples w :
  buffer_inv w -> samples_accumulated w < INFERENCE_THRESHOLD ->
  Z.of_nat (length samples) < 2 ^ 30 ->
  samples_accumulated (accumulate e samples w) < INFERENCE_THRESHOLD.
Proof.
  intros (HL & H0 & H1) HT Hn. unfold AUDIO_BUFFER_SIZE, INFERENCE_THRESHOLD in *.
  assert (Hw1 : wrap_u32 (Z.of_nat (length samples)) = Z.of_nat (length samples))
    by (apply wrap_u32_small; lia).
  assert (Hw2 : wrap_u32 (samples_accumulated w + Z.of_nat (length samples))
                = samples_accumulated w + Z.of_nat (length samples))
    by (apply wrap_u32_small; lia).
  destruct (Z.le_gt_cases (samples_accumulated w + Z.of_nat (length samples)) 180800) as [Hle|Hgt].
  - pose proof (accumulate_copied e samples w) as K. cbv zeta in K.
    rewrite Hw1, Hw2 in K. destruct (K Hle) as (_ & K2 & _). rewrite K2.
    unfold INFERENCE_THRESHOLD. destruct (Z.leb_spec 88000 (samples_accumulated w + Z.of_nat (length samples))); lia.
  - rewrite accumulate_dropped; [exact HT|].
    rewrite Hw1, Hw2. unfold AUDIO_BUFFER_SIZE. lia.
Qed.

Lemma buffer_inv_same_audio w w' : same_audio w w' -> buffer_inv w -> buffer_inv w'.
Proof. intros (A & B & _) (H1 & H2). unfold buffer_inv. rewrite A, B. auto. Qed.

(** Between two callbacks the accumulation buffer holds fewer samples than
    the inference threshold, so that a chunk of up to 92801 samples arriving
    on the target stream is never dropped: it is copied behind the samples
    already there. *)
Theorem reachable_fill_below_threshold (w : world) :
  reachable w ->
  buffer_inv w /\
  samples_accumulated w < INFERENCE_THRESHOLD /\
  forall e samples,
    Z.of_nat (length samples) <= AUDIO_BUFFER_SIZE - INFERENCE_THRESHOLD + 1 ->
    forall i, 0 <= i < Z.of_nat (length samples) ->
      rd (audio_buffer (on_process e true (Samples samples) w)) (samples_accumulated w + i)
      = rd samples i.
Proof.
  intros H.
  assert (G : buffer_inv w /\ samples_accumulated w < INFERENCE_THRESHOLD).
  { induction H as [e He | e t b w Hw IH Hb | n v w Hw IH].
    - destruct (main_startup_audio e) as (A & B). unfold buffer_inv. rewrite A, B.
      split; [split; [reflexivity | split; discriminate] | reflexivity].
    - destruct IH as (I1 & I2).
      destruct (on_process_accumulates e t b w) as (w2 & S2 & [E | (samples & -> & E)]);
        rewrite E.
      + split; [eapply buffer_inv_same_audio; eauto|]. destruct S2 as (_ & S & _).
        rewrite S. exact I2.
      + assert (J1 : buffer_inv w2) by (eapply buffer_inv_same_audio; eauto).
        assert (J2 : samples_accumulated w2 < INFERENCE_THRESHOLD)
          by (destruct S2 as (_ & S & _); rewrite S; exact I2).
        split; [apply accumulate_inv; assumption
               | apply accumulate_below_threshold; assumption].
    - destruct IH as (I1 & I2).
      destruct (on_parameter_changed_frame n v w) as (_ & _ & A & B & _).
      unfold buffer_inv. rewrite A, B. auto. }
  destruct G as (I1 & I2). split; [exact I1|]. split; [exact I2|].
  intros e samples Hlen i Hi.
  pose proof (reachable_workspace w H) as (M & _).
  unfold on_process. rewrite M. cbn [andb].
  set (w1 := with_debug_counter _ w).
  set (w2 := if debug_counter w1 mod 5000 =? 0 then load_config e w1 else w1).
  assert (S2 : same_audio w w2).
  { subst w2. destruct (_ =? 0).
    - eapply same_audio_trans; [| apply load_config_audio]. repeat split.
    - repeat split. }
  destruct S2 as (A & B & _).
  destruct I1 as (HL & H0 & H1).
  unfold AUDIO_BUFFER_SIZE, INFERENCE_THRESHOLD in *.
  assert (Hw1 : wrap_u32 (Z.of_nat (length samples)) = Z.of_nat (length samples))
    by (apply wrap_u32_small; lia).
  assert (Hw2 : wrap_u32 (samples_accumulated w + Z.of_nat (length samples))
                = samples_accumulated w + Z.of_nat (length samples))
    by (apply wrap_u32_small; lia).
  pose proof (accumulate_copied e samples w2) as K. cbv zeta in K.
  rewrite B, Hw1, Hw2 in K. destruct K as (K1 & _); [unfold AUDIO_BUFFER_SIZE; lia|].
  rewrite K1, A. apply memcpy_at_inside; lia.
Qed.

(** ** The configuration *)

(** Every percentage that the parameter-change handler accepts passes the
    threshold test of [load_config] once divided by 100, checked by
    evaluation. *)
Lemma percent_table :
  forallb (fun n => threshold_in_range
                      (set_threshold (F32.div (F32.of_int n) F32.c_100) (cfg initial_world)))
          (seqZ 30 41) = true.
Proof. vm_compute. reflexivity. Qed.

Lemma percent_in_range n c :
  30 <= n <= 70 ->
  threshold_in_range (set_threshold (F32.div (F32.of_int n) F32.c_100) c) = true.
Proof.
  intros Hn.
  assert (Hin : In n (seqZ 30 41)) by (apply list_elem_of_In, elem_of_seqZ; lia).
  pose proof (proj1 (forallb_forall
                       (fun n => threshold_in_range
                                   (set_threshold (F32.div (F32.of_int n) F32.c_100)
                                                  (cfg initial_world)))
                       (seqZ 30 41)) percent_table n Hin) as H.
  cbv beta in H. exact H.
Qed.

Lemma scan_until_quote_length width s :
  (String.length (scan_until_quote width s) <= width)%nat.
Proof.
  revert s. induction width as [|width IH]; intros s; [destruct s; simpl; lia|].
  destruct s as [|c rest]; simpl; [lia|].
  destruct (Ascii.eqb c dquote); simpl; [lia|]. specialize (IH rest). lia.
Qed.

Lemma sscanf_str_length key width line s :
  sscanf_str key width line = Some s -> strlen s <= Z.of_nat width.
Proof.
  unfold sscanf_str. destruct (drop_prefix key line) as [rest|]; [|discriminate].
  pose proof (scan_until_quote_length width rest) as H.
  destruct (scan_until_quote width rest) as [|c r] eqn:E; [discriminate|].
  intros [= <-]. unfold strlen. lia.
Qed.

(** The two properties of the configuration that every update keeps. *)
Lemma config_step {A : Type} (P : config -> Prop) (b : bool) (o : option A)
    (setter : A -> config -> config) (c : config) :
  P c -> (forall a, o = Some a -> P c -> P (setter a c)) ->
  P (if b then match o with Some a => setter a c | None => c end else c).
Proof.
  intros Hc Hs. destruct b; [|exact Hc].
  destruct o; [apply Hs; [reflexivity | exact Hc] | exact Hc].
Qed.

Lemma load_other_lines_keeps line c :
  threshold_in_range c = true /\ config_fits c ->
  threshold_in_range (load_other_lines line c) = true /\ config_fits (load_other_lines line c).
Proof.
  intros H. unfold load_other_lines. cbv zeta.
  apply (config_step (fun c => threshold_in_range c = true /\ config_fits c) _ _
           set_recipient_email).
  2:{ intros s Hs (T & F1 & F2 & F3 & F4). split; [exact T|].
      apply sscanf_str_length in Hs. repeat split; assumption. }
  apply (config_step (fun c => threshold_in_range c = true /\ config_fits c) _ _
           set_smtp_password).
  2:{ intros s Hs (T & F1 & F2 & F3 & F4). split; [exact T|].
      apply sscanf_str_length in Hs. repeat split; assumption. }
  apply (config_step (fun c => threshold_in_range c = true /\ config_fits c) _ _
           set_smtp_username).
  2:{ intros s Hs (T & F1 & F2 & F3 & F4). split; [exact T|].
      apply sscanf_str_length in Hs. repeat split; assumption. }
  apply (config_step (fun c => threshold_in_range c = true /\ config_fits c) _ _
           set_smtp_port).
  2:{ intros s Hs (T & F1 & F2 & F3 & F4). split; [exact T|]. repeat split; assumption. }
  apply (config_step (fun c => threshold_in_range c = true /\ config_fits c) _ _
           set_smtp_server).
  2:{ intros s Hs (T & F1 & F2 & F3 & F4). split; [exact T|].
      apply sscanf_str_length in Hs. repeat split; assumption. }
  apply (config_step (fun c => threshold_in_range c = true /\ config_fits c) _ _
           (fun s => set_email_enabled (String.eqb s "yes"))).
  2:{ intros s Hs (T & F1 & F2 & F3 & F4). split; [exact T|]. repeat split; assumption. }
  exact H.
Qed.

Lemma load_config_line_keeps w line :
  threshold_in_range (cfg w) = true /\ config_fits (cfg w) ->
  threshold_in_range (cfg (load_config_line w line)) = true /\
  config_fits (cfg (load_config_line w line)).
Proof.
  intros H. unfold load_config_line. cbn [cfg with_cfg].
  apply load_other_lines_keeps.
  unfold load_threshold_line.
  destruct (strstr line "threshold="); [|exact H].
  destruct (sscanf_int (qkey "threshold") line) as [n|]; [|exact H].
  destruct (F32.geb _ _ && F32.leb _ _) eqn:Hr; [|exact H].
  cbn [cfg emit with_cfg]. destruct H as (_ & F). split; [|exact F].
  unfold threshold_in_range. cbn [confidence_threshold set_threshold]. exact Hr.
Qed.

Lemma load_config_keeps e w :
  threshold_in_range (cfg w) = true /\ config_fits (cfg w) ->
  threshold_in_range (cfg (load_config e w)) = true /\ config_fits (cfg (load_config e w)).
Proof.
  unfold load_config. destruct (env_config_file e) as [[mtime lines]|]; [|auto].
  revert w. induction lines as [|l lines IH]; intros w H; simpl; [exact H|].
  apply IH. apply load_config_line_keeps. exact H.
Qed.

Lemma check_config_changes_keeps e w :
  threshold_in_range (cfg w) = true /\ config_fits (cfg w) ->
  threshold_in_range (cfg (check_config_changes e w)) = true /\
  config_fits (cfg (check_config_changes e w)).
Proof.
  intros H. unfold check_config_changes.
  destruct (_ <? 5); [exact H|]. cbv zeta.
  destruct (env_config_file e) as [[mtime lines]|] eqn:E; [|exact H].
  destruct (negb _); [|exact H].
  apply load_config_keeps. exact H.
Qed.

Lemma on_parameter_changed_keeps n v w :
  threshold_in_range (cfg w) = true /\ config_fits (cfg w) ->
  threshold_in_range (cfg (on_parameter_changed n v w)) = true /\
  config_fits (cfg (on_parameter_changed n v w)).
Proof.
  intros (T & F). unfold on_parameter_changed. cbv zeta.
  set (w1 := emit (LogDbusParameterChanged n v) w).
  set (w2 := if strstr n "threshold" then _ else w1).
  assert (H2 : threshold_in_range (cfg w2) = true /\ config_fits (cfg w2)).
  { subst w2. destruct (strstr n "threshold"); [|split; assumption].
    destruct (Z.leb_spec 30 (atoi v)); cbn [andb]; [|split; assumption].
    destruct (Z.leb_spec (atoi v) 70); [|split; assumption].
    cbn [cfg emit with_cfg]. split; [apply percent_in_range; lia | exact F]. }
  destruct (strstr n "email_enabled"); [|exact H2].
  destruct H2 as (T2 & F2). cbn [cfg with_cfg]. split; assumption.
Qed.

(** The inference pass reads the configuration and never writes it. *)
Lemma send_email_cfg e c r w : cfg (snd (send_email_notification e c r w)) = cfg w.
Proof. unfold send_email_notification. break_match; reflexivity. Qed.

Lemma detection_logic_cfg e p r w : cfg (snd (detection_logic e p r w)) = cfg w.
Proof.
  unfold detection_logic. break_match; cbn [snd]; try reflexivity.
  rewrite send_email_cfg. reflexivity.
Qed.

Lemma compute_mel_spectrogram_cfg e a n w :
  cfg (snd (compute_mel_spectrogram e a n w)) = cfg w.
Proof.
  unfold compute_mel_spectrogram.
  assert (H1 : cfg (snd (init_fft_workspace e w)) = cfg w)
    by (unfold init_fft_workspace; break_match; reflexivity).
  destruct (init_fft_workspace e w) as [ok1 w1]. cbn [snd] in H1.
  destruct ok1.
  - assert (H2 : cfg (snd (init_mel_filter_bank w1)) = cfg w1)
      by (unfold init_mel_filter_bank; break_match; reflexivity).
    destruct (init_mel_filter_bank w1) as [ok w2]. cbn [snd] in H2.
    destruct ok; cbn [negb].
    + match goal with |- context [frame_loop ?a ?b ?c ?d ?e ?f ?g] =>
        destruct (frame_loop a b c d e f g) as [fc out] end.
      cbn [snd cfg emit]. congruence.
    + cbn [snd cfg emit]. congruence.
  - cbn [negb snd cfg emit]. exact H1.
Qed.

Lemma process_cfg e a n w : cfg (snd (process_gunshot_detection e a n w)) = cfg w.
Proof.
  unfold process_gunshot_detection.
  destruct (ml_ready w); cbn [negb]; [|reflexivity].
  destruct (F32.ltb _ _); cbn [snd]; [reflexivity|].
  pose proof (compute_mel_spectrogram_cfg e a n w) as H1.
  destruct (compute_mel_spectrogram e a n w) as [feat w1]. cbn [snd] in H1.
  destruct (env_infer e) as [[q1 q2]|]; cbn [snd].
  - destruct (softmax2 (dequantize_output q1) (dequantize_output q2)) as [p1 p2].
    rewrite detection_logic_cfg. exact H1.
  - exact H1.
Qed.

Lemma on_process_keeps e t b w :
  threshold_in_range (cfg w) = true /\ config_fits (cfg w) ->
  threshold_in_range (cfg (on_process e t b w)) = true /\
  config_fits (cfg (on_process e t b w)).
Proof.
  intros H. unfold on_process. destruct b as [| |samples]; try exact H.
  destruct (t && ml_ready w); [|exact H].
  set (w1 := with_debug_counter _ w).
  set (w2 := if debug_counter w1 mod 5000 =? 0 then load_config e w1 else w1).
  assert (H2 : threshold_in_range (cfg w2) = true /\ config_fits (cfg w2)).
  { subst w2. destruct (_ =? 0); [apply load_config_keeps|]; exact H. }
  unfold accumulate.
  destruct (_ <=? AUDIO_BUFFER_SIZE); [|exact H2].
  set (w3 := with_audio _ _ w2).
  assert (H3 : threshold_in_range (cfg (check_config_changes e w3)) = true /\
               config_fits (cfg (check_config_changes e w3)))
    by (apply check_config_changes_keeps; exact H2).
  destruct (INFERENCE_THRESHOLD <=? _); [|exact H3].
  cbn [cfg with_audio]. rewrite process_cfg. exact H3.
Qed.

Lemma main_startup_keeps e :
  threshold_in_range (cfg (snd (main_startup e initial_world))) = true /\
  config_fits (cfg (snd (main_startup e initial_world))).
Proof.
  assert (H0 : threshold_in_range (cfg (load_config e initial_world)) = true /\
               config_fits (cfg (load_config e initial_world))).
  { apply load_config_keeps. split; [reflexivity|].
    unfold config_fits. cbn. repeat split; discriminate. }
  unfold main_startup. cbv zeta.
  set (w0 := load_config e initial_world) in *.
  destruct (env_larod_init_ok e); cbn [negb snd]; [|exact H0].
  set (w1 := with_config_check _ _ w0).
  assert (C1 : cfg (snd (init_fft_workspace e w1)) = cfg w0)
    by (unfold init_fft_workspace; break_match; reflexivity).
  destruct (init_fft_workspace e w1) as [ok1 w2]. cbn [snd] in C1.
  destruct ok1.
  - assert (C2 : cfg (snd (init_mel_filter_bank w2)) = cfg w2)
      by (unfold init_mel_filter_bank; break_match; reflexivity).
    destruct (init_mel_filter_bank w2) as [ok w3]. cbn [snd] in C2.
    destruct ok; cbn [negb snd cfg emit with_ml_ready]; rewrite C2, C1; exact H0.
  - cbn [negb snd cfg emit]. rewrite C1. exact H0.
Qed.

Lemma reachable_config w :
  reachable w -> threshold_in_range (cfg w) = true /\ config_fits (cfg w).
Proof.
  induction 1 as [e He | e t b w Hw IH Hb | n v w Hw IH].
  - apply main_startup_keeps.
  - apply on_process_keeps. exact IH.
  - apply on_parameter_changed_keeps. exact IH.
Qed.

(** Whatever the configuration file and the parameter signals contain, the
    detection threshold of a running program passes the range test of
    [load_config]: it is never below 0.30f nor above 0.70f, so that every
    pass compares the probability with a threshold in that range. *)
Theorem reachable_threshold_in_range (w : world) :
  reachable w ->
  F32.geb (confidence_threshold (cfg w)) F32.c_0_30 = true /\
  F32.leb (confidence_threshold (cfg w)) F32.c_0_70 = true.
Proof.
  intros H. destruct (reachable_config w H) as (T & _).
  unfold threshold_in_range in T. apply andb_prop in T. exact T.
Qed.

(** Whatever the configuration file contains, the strings of the mail
    settings of a running program have at most 255 characters: none overruns
    its 256-byte array. *)
Theorem reachable_config_fits (w : world) :
  reachable w ->
  strlen (smtp_server (cfg w)) <= 255 /\ strlen (smtp_username (cfg w)) <= 255 /\
  strlen (smtp_password (cfg w)) <= 255 /\ strlen (recipient_email (cfg w)) <= 255.
Proof. intros H. destruct (reachable_config w H) as (_ & F). exact F. Qed.

(** ** The cooldown between mails *)

Lemma email_times_app t1 t2 : email_times (t1 ++ t2) = email_times t1 ++ email_times t2.
Proof.
  induction t1 as [|ev t1 IH]; [reflexivity|].
  destruct ev; simpl; rewrite IH; reflexivity.
Qed.

Lemma spaced_snoc times t :
  spaced times ->
  (forall t0, last times = Some t0 -> EMAIL_RATE_LIMIT_SECONDS <= t - t0) ->
  spaced (times ++ [t]).
Proof.
  induction times as [|t1 rest IH]; intros Hs Hl; [exact I|].
  destruct rest as [|t2 rest'].
  - simpl. split; [apply Hl; reflexivity | exact I].
  - destruct Hs as (H12 & Hrest).
    change ((t1 :: t2 :: rest') ++ [t]) with (t1 :: (t2 :: rest') ++ [t]).
    change (spaced (t1 :: (t2 :: rest') ++ [t]))
      with (EMAIL_RATE_LIMIT_SECONDS <= t2 - t1 /\ spaced ((t2 :: rest') ++ [t])).
    split; [exact H12|]. apply IH; [exact Hrest|].
    intros t0 H0. apply Hl. rewrite last_cons_cons. exact H0.
Qed.

Lemma same_mail_refl w : same_mail w w.
Proof. split; reflexivity. Qed.

Lemma same_mail_trans w1 w2 w3 : same_mail w1 w2 -> same_mail w2 w3 -> same_mail w1 w3.
Proof. intros (A & B) (C & D). split; congruence. Qed.

Lemma mail_inv_same_mail w w' : same_mail w w' -> mail_inv w -> mail_inv w'.
Proof. intros (A & B) (H1 & H2). unfold mail_inv. rewrite A, B. auto. Qed.

Lemma emit_same_mail ev w : is_email ev = false -> same_mail w (emit ev w).
Proof.
  intros H. split; [|reflexivity]. cbn [trace emit]. rewrite email_times_app.
  destruct ev; try discriminate; simpl; apply app_nil_r.
Qed.

Lemma load_config_line_same_mail w line : same_mail w (load_config_line w line).
Proof.
  unfold load_config_line, load_threshold_line.
  break_match; split; cbn [trace last_email_time with_cfg emit];
    rewrite ?email_times_app; simpl; rewrite ?app_nil_r; reflexivity.
Qed.

Lemma load_config_same_mail e w : same_mail w (load_config e w).
Proof.
  unfold load_config. destruct (env_config_file e) as [[mtime lines]|].
  - revert w. induction lines as [|l lines IH]; intros w; simpl; [apply same_mail_refl|].
    eapply same_mail_trans; [apply load_config_line_same_mail | apply IH].
  - apply emit_same_mail. reflexivity.
Qed.

Lemma check_config_changes_same_mail e w : same_mail w (check_config_changes e w).
Proof.
  unfold check_config_changes. break_match; try apply same_mail_refl;
    try (split; reflexivity).
  eapply same_mail_trans; [| apply load_config_same_mail]. split; reflexivity.
Qed.

Lemma compute_mel_spectrogram_same_mail e a n w :
  same_mail w (snd (compute_mel_spectrogram e a n w)).
Proof.
  unfold compute_mel_spectrogram.
  assert (H1 : same_mail w (snd (init_fft_workspace e w))).
  { unfold init_fft_workspace. break_match; cbn [snd];
      try apply same_mail_refl; try (apply emit_same_mail; reflexivity).
    split; reflexivity. }
  destruct (init_fft_workspace e w) as [ok1 w1]. cbn [snd] in H1.
  destruct ok1.
  - assert (H2 : same_mail w1 (snd (init_mel_filter_bank w1))).
    { unfold init_mel_filter_bank. break_match; cbn [snd];
        [apply same_mail_refl | split; reflexivity]. }
    destruct (init_mel_filter_bank w1) as [ok w2]. cbn [snd] in H2.
    destruct ok; cbn [negb].
    + match goal with |- context [frame_loop ?a ?b ?c ?d ?e ?f ?g] =>
        destruct (frame_loop a b c d e f g) as [fc out] end.
      cbn [snd]. eapply same_mail_trans; [exact H1|].
      eapply same_mail_trans; [exact H2|]. apply emit_same_mail. reflexivity.
    + cbn [snd]. eapply same_mail_trans; [exact H1|].
      eapply same_mail_trans; [exact H2|]. apply emit_same_mail. reflexivity.
  - cbn [negb snd]. eapply same_mail_trans; [exact H1|]. apply emit_same_mail. reflexivity.
Qed.

Lemma send_email_mail_inv e c r w :
  mail_inv w -> mail_inv (snd (send_email_notification e c r w)).
Proof.
  intros Hinv. unfold send_email_notification.
  destruct (negb _ || _ || _); [exact Hinv|]. cbv zeta.
  destruct (Z.ltb_spec (env_time e - last_email_time w) EMAIL_RATE_LIMIT_SECONDS) as [Hlt|Hge].
  { cbn [snd]. eapply mail_inv_same_mail; [apply emit_same_mail; reflexivity | exact Hinv]. }
  destruct (env_curl_init_ok e); cbn [negb].
  2:{ cbn [snd]. eapply mail_inv_same_mail; [apply emit_same_mail; reflexivity | exact Hinv]. }
  destruct (env_curl_ok e); cbn [snd].
  2:{ eapply mail_inv_same_mail; [apply emit_same_mail; reflexivity | exact Hinv]. }
  destruct Hinv as (H1 & H2). unfold mail_inv.
  cbn [trace emit with_last_email_time last_email_time].
  rewrite email_times_app. cbn [email_times]. split.
  - apply spaced_snoc; [exact H1|]. intros t0 H0. rewrite <- (H2 t0 H0). exact Hge.
  - intros t Ht. rewrite last_snoc in Ht. congruence.
Qed.

Lemma detection_logic_mail_inv e p r w :
  mail_inv w -> mail_inv (snd (detection_logic e p r w)).
Proof.
  intros Hinv. unfold detection_logic. cbv zeta.
  destruct (F32.gtb _ _); cbn [snd].
  - set (w1 := emit _ (with_detection_count _ w)).
    assert (H1 : mail_inv w1).
    { eapply mail_inv_same_mail; [| exact Hinv]. subst w1.
      eapply same_mail_trans; [| apply emit_same_mail; reflexivity]. split; reflexivity. }
    destruct (email_enabled (cfg w1)); [apply send_email_mail_inv|]; exact H1.
  - eapply mail_inv_same_mail; [apply emit_same_mail; reflexivity | exact Hinv].
Qed.

Lemma process_mail_inv e a n w :
  mail_inv w -> mail_inv (snd (process_gunshot_detection e a n w)).
Proof.
  intros Hinv. unfold process_gunshot_detection.
  destruct (ml_ready w); cbn [negb]; [|exact Hinv].
  destruct (F32.ltb _ _); cbn [snd].
  { eapply mail_inv_same_mail; [apply emit_same_mail; reflexivity | exact Hinv]. }
  pose proof (compute_mel_spectrogram_same_mail e a n w) as H1.
  destruct (compute_mel_spectrogram e a n w) as [feat w1]. cbn [snd] in H1.
  assert (I1 : mail_inv w1) by (eapply mail_inv_same_mail; eauto).
  destruct (env_infer e) as [[q1 q2]|]; cbn [snd].
  - destruct (softmax2 (dequantize_output q1) (dequantize_output q2)) as [p1 p2].
    apply detection_logic_mail_inv.
    eapply mail_inv_same_mail; [| exact I1]. split; reflexivity.
  - eapply mail_inv_same_mail; [| exact I1].
    eapply same_mail_trans; [| apply emit_same_mail; reflexivity]. split; reflexivity.
Qed.

Lemma on_process_mail_inv e t b w : mail_inv w -> mail_inv (on_process e t b w).
Proof.
  intros Hinv. unfold on_process. destruct b as [| |samples]; try exact Hinv.
  { eapply mail_inv_same_mail; [apply emit_same_mail; reflexivity | exact Hinv]. }
  destruct (t && ml_ready w); [|exact Hinv].
  set (w1 := with_debug_counter _ w).
  set (w2 := if debug_counter w1 mod 5000 =? 0 then load_config e w1 else w1).
  assert (I2 : mail_inv w2).
  { eapply mail_inv_same_mail; [| exact Hinv]. subst w2. destruct (_ =? 0).
    - eapply same_mail_trans; [| apply load_config_same_mail]. split; reflexivity.
    - split; reflexivity. }
  unfold accumulate.
  destruct (_ <=? AUDIO_BUFFER_SIZE); [|exact I2].
  set (w3 := with_audio _ _ w2).
  assert (I3 : mail_inv (check_config_changes e w3)).
  { eapply mail_inv_same_mail; [| exact I2].
    eapply same_mail_trans; [| apply check_config_changes_same_mail]. split; reflexivity. }
  destruct (INFERENCE_THRESHOLD <=? _); [|exact I3].
  eapply mail_inv_same_mail; [| apply process_mail_inv; exact I3]. split; reflexivity.
Qed.

Lemma main_startup_no_mail e :
  email_times (trace (snd (main_startup e initial_world))) = [].
Proof.
  unfold main_startup. cbv zeta.
  destruct (load_config_same_mail e initial_world) as (A & _).
  set (w0 := load_config e initial_world) in *.
  set (w1 := with_config_check _ _ w0).
  assert (A1 : email_times (trace w1) = []) by exact A.
  destruct (env_larod_init_ok e); cbn [negb snd].
  2:{ cbn [trace emit]. rewrite email_times_app, A1. reflexivity. }
  assert (C1 : email_times (trace (snd (init_fft_workspace e w1))) = []).
  { unfold init_fft_workspace. break_match; cbn [snd trace emit with_dsp];
      rewrite ?email_times_app, A1; reflexivity. }
  destruct (init_fft_workspace e w1) as [ok1 w2]. cbn [snd] in C1.
  destruct ok1.
  - assert (C2 : email_times (trace (snd (init_mel_filter_bank w2))) = [])
      by (unfold init_mel_filter_bank; break_match; cbn [snd trace with_dsp]; exact C1).
    destruct (init_mel_filter_bank w2) as [ok w3]. cbn [snd] in C2.
    destruct ok; cbn [negb snd trace emit with_ml_ready];
      rewrite email_times_app, C2; reflexivity.
  - cbn [negb snd trace emit]. rewrite email_times_app, C1. reflexivity.
Qed.

(** Whatever the clock reads and whatever the callbacks receive, the clock
    readings [current_time] that passed the cooldown test for two successive
    mails of a run are at least 120 seconds apart, and [last_email_time] is
    the reading of the last mail that was sent.  (The time stamp printed in a
    mail comes from a later reading of the clock and is not constrained.) *)
Theorem reachable_mails_spaced (w : world) :
  reachable w ->
  spaced (email_times (trace w)) /\
  forall t, last (email_times (trace w)) = Some t -> last_email_time w = t.
Proof.
  intros H. change (mail_inv w).
  induction H as [e He | e t b w Hw IH Hb | n v w Hw IH].
  - unfold mail_inv. rewrite main_startup_no_mail. split; [exact I | discriminate].
  - apply on_process_mail_inv. exact IH.
  - eapply mail_inv_same_mail; [| exact IH].
    unfold on_parameter_changed.
    break_match; split; cbn [trace last_email_time with_cfg emit];
      rewrite ?email_times_app; simpl; rewrite ?app_nil_r; reflexivity.
Qed.

(** ** Chunks below the inference threshold *)

Lemma rd_app_l (a b : list F32.float32) i :
  0 <= i < Z.of_nat (length a) -> rd (a ++ b) i = rd a i.
Proof.
  intros H. unfold rd. destruct (Z.leb_spec 0 i); [|lia].
  rewrite lookup_app_l by lia. reflexivity.
Qed.

Lemma rd_app_r (a b : list F32.float32) i :
  Z.of_nat (length a) <= i -> rd (a ++ b) i = rd b (i - Z.of_nat (length a)).
Proof.
  intros H. unfold rd. destruct (Z.leb_spec 0 i); [|lia].
  destruct (Z.leb_spec 0 (i - Z.of_nat (length a))); [|lia].
  rewrite lookup_app_r by lia. do 2 f_equal. lia.
Qed.

(** As long as the inference threshold is not reached, the chunks of
    successive callbacks lie in the buffer one behind the other, in the order
    of arrival and without a gap, and the rest of the buffer is untouched. *)
Theorem chunks_stored_in_order (inputs : list (env * list F32.float32)) (w : world) :
  buffer_inv w ->
  let all := concat (map snd inputs) in
  samples_accumulated w + Z.of_nat (length all) < INFERENCE_THRESHOLD ->
  let w' := accumulate_all inputs w in
  samples_accumulated w' = samples_accumulated w + Z.of_nat (length all) /\
  (forall i, 0 <= i < Z.of_nat (length all) ->
             rd (audio_buffer w') (samples_accumulated w + i) = rd all i) /\
  (forall k, k < samples_accumulated w \/
             samples_accumulated w + Z.of_nat (length all) <= k ->
             rd (audio_buffer w') k = rd (audio_buffer w) k).
Proof.
  cbv zeta. revert w.
  induction inputs as [|[e s] inputs IH]; intros w Hinv Hlt.
  - simpl in *. split; [lia|]. split; [intros i Hi; lia | intros k _; reflexivity].
  - cbn [map snd concat] in *. rewrite length_app in *.
    unfold accumulate_all. cbn [fold_left fst snd].
    fold (accumulate_all inputs (accumulate e s w)).
    pose proof Hinv as (HL & H0 & H1).
    unfold AUDIO_BUFFER_SIZE, INFERENCE_THRESHOLD in *.
    assert (Hw1 : wrap_u32 (Z.of_nat (length s)) = Z.of_nat (length s))
      by (apply wrap_u32_small; lia).
    assert (Hw2 : wrap_u32 (samples_accumulated w + Z.of_nat (length s))
                  = samples_accumulated w + Z.of_nat (length s))
      by (apply wrap_u32_small; lia).
    pose proof (accumulate_copied e s w) as K. cbv zeta in K.
    rewrite Hw1, Hw2 in K. destruct K as (K1 & K2 & _); [unfold AUDIO_BUFFER_SIZE; lia|].
    unfold INFERENCE_THRESHOLD in K2.
    destruct (Z.leb_spec 88000 (samples_accumulated w + Z.of_nat (length s))); [lia|].
    assert (Hinv1 : buffer_inv (accumulate e s w)) by (apply accumulate_inv; [exact Hinv | lia]).
    destruct (IH (accumulate e s w) Hinv1) as (I1 & I2 & I3);
      [rewrite K2; unfold INFERENCE_THRESHOLD; lia|].
    rewrite K2 in I1, I2, I3.
    split; [rewrite I1; lia|]. split.
    + intros i Hi. destruct (Z.lt_ge_cases i (Z.of_nat (length s))) as [Hs|Hs].
      * rewrite I3 by lia. rewrite K1, rd_app_l by lia.
        apply memcpy_at_inside; lia.
      * rewrite rd_app_r by lia.
        rewrite <- (I2 (i - Z.of_nat (length s))) by lia.
        f_equal. lia.
    + intros k Hk. rewrite I3 by lia. rewrite K1. apply memcpy_at_outside; lia.
Qed.

(** ** Frames of the feature extractor *)

Lemma frame_loop_all d audio num_samples :
  let r := frame_loop (Z.to_nat N_FRAMES) d audio num_samples 0 0 zero_features in
  0 <= fst r <= N_FRAMES /\
  Z.of_nat (length (snd r)) = EXPECTED_INPUT_SIZE /\
  (forall k, 0 <= k < N_FRAMES ->
             (k < fst r <-> k * HOP_LENGTH < wrap_s32 num_samples - N_FFT)) /\
  (forall k m, 0 <= m < N_MELS ->
     (0 <= k < fst r ->
        rd (snd r) (k * N_MELS + m)
        = mel_value d audio (wrap_s32 num_samples) (k * HOP_LENGTH) m) /\
     (fst r <= k -> rd (snd r) (k * N_MELS + m) = F32.zero)).
Proof.
  pose proof (frame_loop_spec d audio num_samples (Z.to_nat N_FRAMES) 0 zero_features) as L.
  cbv zeta in L |- *. change (0 * HOP_LENGTH) with 0 in L.
  destruct L as (L1 & L2 & L3 & L4).
  { unfold N_FRAMES. lia. }
  { unfold N_FRAMES. lia. }
  { reflexivity. }
  split; [exact L1|]. split; [exact L2|]. split; [exact L3|].
  intros k m Hm. destruct (L4 k m Hm) as (A & B). split; [exact A|].
  intros Hk. rewrite B by lia. apply rd_replicate_zero.
Qed.

Lemma frames_produced_count d audio num_samples :
  0 <= num_samples <= F32.INT_MAX ->
  frames_produced d audio num_samples = frame_count_of num_samples.
Proof.
  intros Hn. unfold frames_produced.
  destruct (frame_loop_all d audio num_samples) as (L1 & _ & L3 & _).
  rewrite wrap_s32_small in L3 by (unfold F32.INT_MAX in Hn; lia).
  set (c := fst (frame_loop (Z.to_nat N_FRAMES) d audio num_samples 0 0 zero_features)) in *.
  unfold frame_count_of, N_FRAMES, N_FFT, HOP_LENGTH in *.
  pose proof (Z.div_mod (num_samples - 1024 + 512 - 1) 512 ltac:(lia)) as Hd.
  pose proof (Z.mod_pos_bound (num_samples - 1024 + 512 - 1) 512 ltac:(lia)) as Hm.
  set (q := (num_samples - 1024 + 512 - 1) / 512) in *.
  set (r := (num_samples - 1024 + 512 - 1) mod 512) in *.
  destruct (Z.leb_spec num_samples 1024) as [Hs|Hs].
  - destruct (Z.eq_dec c 0) as [|Hc]; [assumption|].
    assert (H0 : 0 < c) by lia. apply (L3 0) in H0; lia.
  - assert (H0 : 0 < c) by (apply (L3 0); lia).
    assert (Hup : c = 160 \/ 512 * c >= num_samples - 1024).
    { destruct (Z.eq_dec c 160) as [|Hc]; [left; assumption|]. right.
      destruct (Z.lt_ge_cases (c * 512) (num_samples - 1024)) as [Hlt|Hge]; [|lia].
      apply (L3 c) in Hlt; lia. }
    assert (Hlo : (c - 1) * 512 < num_samples - 1024) by (apply (L3 (c - 1)); lia).
    destruct Hup as [Hc|Hc]; lia.
Qed.

(** The frame loop produces the frames at the offsets 0, 512, 1024, ... that
    lie strictly before num_samples - N_FFT, 160 at most: none when the
    buffer has no more than N_FFT samples, otherwise the quotient of
    num_samples - N_FFT by HOP_LENGTH rounded up, capped at N_FRAMES.  The
    extractor logs this count and leaves the rows of the other frames at
    zero. *)
Theorem frame_count_exact (e : env) (audio : list F32.float32) (num_samples : Z) (w : world) :
  fft_initialized (dsp_state w) = true ->
  mel_filters_initialized (dsp_state w) = true ->
  0 <= num_samples <= F32.INT_MAX ->
  let r := compute_mel_spectrogram e audio num_samples w in
  frames_produced (dsp_state w) audio num_samples = frame_count_of num_samples /\
  snd r = emit (LogMelComputed (frame_count_of num_samples)) w /\
  forall k m, frame_count_of num_samples <= k -> 0 <= m < N_MELS ->
              rd (fst r) (k * N_MELS + m) = F32.zero.
Proof.
  intros H1 H2 Hn. cbv zeta.
  rewrite compute_mel_spectrogram_ready by assumption. cbn [fst snd].
  pose proof (frames_produced_count (dsp_state w) audio num_samples Hn) as Hc.
  rewrite Hc. split; [reflexivity|]. split; [reflexivity|].
  intros k m Hk Hm.
  destruct (frame_loop_all (dsp_state w) audio num_samples) as (_ & _ & _ & L4).
  apply (L4 k m Hm). unfold frames_produced in Hc. rewrite Hc. exact Hk.
Qed.

(** What the normalisation of one mel value returns. *)
Lemma mel_normalize_in_unit energy :
  F32.ltb (mel_normalize energy) F32.zero = false /\
  F32.gtb (mel_normalize energy) F32.c_1 = false.
Proof.
  unfold mel_normalize. cbv zeta.
  set (y := F32.div _ _).
  destruct (F32.ltb y F32.zero) eqn:E1.
  - split; reflexivity.
  - destruct (F32.gtb y F32.c_1) eqn:E2.
    + split; reflexivity.
    + split; assumption.
Qed.

Lemma rd_zero_features j : rd zero_features j = F32.zero.
Proof. apply rd_replicate_zero. Qed.

(** Whatever the audio, the sample count, the library functions and the
    outcome of the initialisation, no entry of the feature matrix is below 0
    or above 1 (a NaN of [log10f] passes both clamps and stays). *)
Theorem features_in_unit_interval (e : env) (audio : list F32.float32)
    (num_samples : Z) (w : world) (j : Z) :
  0 <= j < EXPECTED_INPUT_SIZE ->
  let output := fst (compute_mel_spectrogram e audio num_samples w) in
  Z.of_nat (length output) = EXPECTED_INPUT_SIZE /\
  F32.ltb (rd output j) F32.zero = false /\ F32.gtb (rd output j) F32.c_1 = false.
Proof.
  intros Hj. cbv zeta. unfold compute_mel_spectrogram.
  destruct (init_fft_workspace e w) as [ok1 w1].
  destruct (if ok1 then init_mel_filter_bank w1 else (false, w1)) as [ok w2].
  destruct ok; cbn [negb].
  - destruct (frame_loop_all (dsp_state w2) audio num_samples) as (L1 & L2 & _ & L4).
    destruct (frame_loop (Z.to_nat N_FRAMES) (dsp_state w2) audio num_samples 0 0
                zero_features) as [fc out] eqn:E.
    cbn [fst snd] in *. split; [exact L2|].
    unfold EXPECTED_INPUT_SIZE, N_MELS, N_FRAMES in *.
    pose proof (Z.div_mod j 28 ltac:(lia)) as Hd.
    pose proof (Z.mod_pos_bound j 28 ltac:(lia)) as Hm.
    assert (Hq : 0 <= j / 28) by (apply Z.div_pos; lia).
    replace j with (j / 28 * 28 + j mod 28) by lia.
    destruct (L4 (j / 28) (j mod 28) ltac:(lia)) as (A & B).
    destruct (Z.lt_ge_cases (j / 28) fc) as [Hlt|Hge].
    + rewrite A by lia. apply mel_normalize_in_unit.
    + rewrite B by lia. split; reflexivity.
  - cbn [fst]. split; [reflexivity|]. rewrite rd_zero_features. split; reflexivity.
Qed.

Lemma rd_ext (a b : list F32.float32) :
  length a = length b ->
  (forall j, 0 <= j < Z.of_nat (length a) -> rd a j = rd b j) -> a = b.
Proof.
  intros HL H. apply list_eq. intros i.
  destruct (a !! i) as [x|] eqn:Ea.
  - assert (Hi : (i < length a)%nat) by (eapply lookup_lt_Some; eauto).
    destruct (b !! i) as [y|] eqn:Eb.
    + specialize (H (Z.of_nat i) ltac:(lia)). unfold rd in H.
      destruct (Z.leb_spec 0 (Z.of_nat i)); [|lia].
      rewrite Nat2Z.id, Ea, Eb in H. simpl in H. congruence.
    + apply lookup_ge_None in Eb. lia.
  - apply lookup_ge_None in Ea. symmetry. apply lookup_ge_None. lia.
Qed.

Lemma whole_frame_ext hann audio audio' start :
  (forall i, 0 <= i < N_FFT -> rd audio (start + i) = rd audio' (start + i)) ->
  whole_frame hann audio start = whole_frame hann audio' start.
Proof.
  intros H. unfold whole_frame. apply list_fmap_ext.
  intros i x Hx. apply lookup_seqZ in Hx as [-> Hi].
  rewrite H by lia. reflexivity.
Qed.

(** The feature matrix depends on the first (N_FRAMES - 1) * HOP_LENGTH +
    N_FFT = 82432 samples only: two buffers which agree on these samples give
    the same matrix, whatever follows, for any two sample counts above 82432
    that fit an [int] (the frame loop compares [(int)num_samples]).  Audio
    past the 160th frame is ignored. *)
Theorem excess_audio_ignored (e : env) (audio audio' : list F32.float32)
    (num_samples num_samples' : Z) (w : world) :
  fft_initialized (dsp_state w) = true ->
  mel_filters_initialized (dsp_state w) = true ->
  (N_FRAMES - 1) * HOP_LENGTH + N_FFT < num_samples <= F32.INT_MAX ->
  (N_FRAMES - 1) * HOP_LENGTH + N_FFT < num_samples' <= F32.INT_MAX ->
  (forall i, 0 <= i < (N_FRAMES - 1) * HOP_LENGTH + N_FFT -> rd audio i = rd audio' i) ->
  fst (compute_mel_spectrogram e audio num_samples w)
  = fst (compute_mel_spectrogram e audio' num_samples' w).
Proof.
  intros H1 H2 Hn Hn' Hsame.
  change ((N_FRAMES - 1) * HOP_LENGTH + N_FFT) with 82432 in Hn, Hn', Hsame.
  assert (Hmax : F32.INT_MAX = 2147483647) by reflexivity. rewrite Hmax in Hn, Hn'.
  assert (Hr : 0 <= num_samples <= F32.INT_MAX) by (rewrite Hmax; lia).
  assert (Hr' : 0 <= num_samples' <= F32.INT_MAX) by (rewrite Hmax; lia).
  rewrite !compute_mel_spectrogram_ready by assumption. cbn [fst].
  destruct (frame_loop_all (dsp_state w) audio num_samples) as (_ & L2 & _ & L4).
  destruct (frame_loop_all (dsp_state w) audio' num_samples') as (_ & L2' & _ & L4').
  pose proof (frames_produced_count (dsp_state w) audio num_samples Hr) as C.
  pose proof (frames_produced_count (dsp_state w) audio' num_samples' Hr') as C'.
  unfold frames_produced in C, C'.
  rewrite C in L4. rewrite C' in L4'.
  rewrite wrap_s32_small in L4 by lia.
  rewrite wrap_s32_small in L4' by lia.
  unfold EXPECTED_INPUT_SIZE, N_FRAMES, HOP_LENGTH, N_FFT, N_MELS in *.
  assert (F : frame_count_of num_samples = 160 /\ frame_count_of num_samples' = 160).
  { unfold frame_count_of, N_FRAMES, HOP_LENGTH, N_FFT.
    destruct (Z.leb_spec num_samples 1024); [lia|].
    destruct (Z.leb_spec num_samples' 1024); [lia|].
    pose proof (Z.div_le_lower_bound (num_samples - 1024 + 512 - 1) 512 160 ltac:(lia)
                  ltac:(lia)).
    pose proof (Z.div_le_lower_bound (num_samples' - 1024 + 512 - 1) 512 160 ltac:(lia)
                  ltac:(lia)).
    lia. }
  destruct F as (F & F'). rewrite F in L4. rewrite F' in L4'.
  apply rd_ext; [apply Nat2Z.inj; congruence|].
  intros j Hj. rewrite L2 in Hj.
  pose proof (Z.div_mod j 28 ltac:(lia)) as Hd.
  pose proof (Z.mod_pos_bound j 28 ltac:(lia)) as Hm.
  assert (Hq : 0 <= j / 28) by (apply Z.div_pos; lia).
  assert (Hq' : j / 28 < 160) by (apply Z.div_lt_upper_bound; lia).
  replace j with (j / 28 * 28 + j mod 28) by lia.
  destruct (L4 (j / 28) (j mod 28) ltac:(lia)) as (A & _).
  destruct (L4' (j / 28) (j mod 28) ltac:(lia)) as (A' & _).
  rewrite A, A' by lia. unfold mel_value.
  rewrite !load_frame_whole by (unfold N_FFT; lia).
  rewrite (whole_frame_ext _ audio audio'); [reflexivity|].
  intros i Hi. unfold N_FFT in Hi. apply Hsame. lia.
Qed.

(** ** When a pass sends a mail *)

Lemma send_email_cases e c r w :
  let res := send_email_notification e c r w in
  (fst res = false /\ same_mail w (snd res)) \/
  (email_enabled (cfg w) = true /\ smtp_username (cfg w) <> EmptyString /\
   recipient_email (cfg w) <> EmptyString /\
   EMAIL_RATE_LIMIT_SECONDS <= env_time e - last_email_time w /\
   env_curl_init_ok e = true /\ env_curl_ok e = true /\
   fst res = true /\
   email_times (trace (snd res)) = email_times (trace w) ++ [env_time e] /\
   last_email_time (snd res) = env_time e).
Proof.
  cbv zeta. unfold send_email_notification.
  destruct (email_enabled (cfg w)) eqn:En; cbn [negb orb];
    [|left; split; [reflexivity | apply same_mail_refl]].
  destruct (smtp_username (cfg w)) as [|cu ru] eqn:Eu;
    [left; split; [reflexivity | apply same_mail_refl]|].
  destruct (recipient_email (cfg w)) as [|cr rr] eqn:Er;
    [left; split; [reflexivity | apply same_mail_refl]|].
  change (strlen (String cu ru) =? 0) with false.
  change (strlen (String cr rr) =? 0) with false. cbn [orb].
  destruct (Z.ltb_spec (env_time e - last_email_time w) EMAIL_RATE_LIMIT_SECONDS) as [Hlt|Hge].
  { left. split; [reflexivity | apply emit_same_mail; reflexivity]. }
  destruct (env_curl_init_ok e); cbn [negb].
  2:{ left. split; [reflexivity | apply emit_same_mail; reflexivity]. }
  destruct (env_curl_ok e).
  2:{ left. split; [reflexivity | apply emit_same_mail; reflexivity]. }
  right. cbn [fst snd trace emit with_last_email_time last_email_time].
  rewrite email_times_app. cbn [email_times].
  repeat split; try assumption; discriminate.
Qed.

(** A pass sends a mail only when mail is enabled, the user name and the
    recipient are not empty, the clock reading [current_time] taken for the
    cooldown test is at least 120 seconds after [last_email_time], the
    transfer succeeds and the pass reports a detection; that reading is then
    stored in [last_email_time] and restarts the cooldown.  In every other
    case, a failed transfer included, the pass sends no mail and leaves
    [last_email_time] as it was. *)
Lemma pass_mail_conditions (e : env) (audio : list F32.float32) (num_samples : Z)
    (w : world) :
  let res := process_gunshot_detection e audio num_samples w in
  same_mail w (snd res) \/
  (email_enabled (cfg w) = true /\ smtp_username (cfg w) <> EmptyString /\
   recipient_email (cfg w) <> EmptyString /\
   EMAIL_RATE_LIMIT_SECONDS <= env_time e - last_email_time w /\
   env_curl_init_ok e = true /\ env_curl_ok e = true /\
   fst res = true /\
   email_times (trace (snd res)) = email_times (trace w) ++ [env_time e] /\
   last_email_time (snd res) = env_time e).
Proof.
  cbv zeta. unfold process_gunshot_detection.
  destruct (ml_ready w); cbn [negb]; [|left; apply same_mail_refl].
  destruct (F32.ltb _ _); cbn [snd fst]; [left; apply emit_same_mail; reflexivity|].
  pose proof (compute_mel_spectrogram_same_mail e audio num_samples w) as H1.
  pose proof (compute_mel_spectrogram_cfg e audio num_samples w) as C1.
  destruct (compute_mel_spectrogram e audio num_samples w) as [feat w1].
  cbn [snd] in H1, C1.
  destruct (env_infer e) as [[q1 q2]|]; cbn [snd fst].
  2:{ left. eapply same_mail_trans; [exact H1|].
      eapply same_mail_trans; [| apply emit_same_mail; reflexivity]. split; reflexivity. }
  destruct (softmax2 (dequantize_output q1) (dequantize_output q2)) as [p1 p2].
  set (w2 := with_inference_count _ (with_input_tensor _ w1)).
  assert (H2 : same_mail w w2) by (destruct H1 as (A & B); split; [exact A | exact B]).
  assert (C2 : cfg w2 = cfg w) by exact C1.
  unfold detection_logic. cbv zeta.
  destruct (F32.gtb p2 (confidence_threshold (cfg w2))); cbn [fst snd].
  2:{ left. eapply same_mail_trans; [exact H2|]. apply emit_same_mail. reflexivity. }
  set (w3 := emit _ (with_detection_count _ w2)).
  assert (H3 : same_mail w w3).
  { eapply same_mail_trans; [exact H2|]. subst w3.
    eapply same_mail_trans; [| apply emit_same_mail; reflexivity]. split; reflexivity. }
  assert (C3 : cfg w3 = cfg w) by exact C2.
  destruct (email_enabled (cfg w3)) eqn:En; [|left; exact H3].
  destruct (send_email_cases e (F32.mul p2 F32.c_100)
              (compute_rms audio num_samples) w3) as [(_ & S)|S].
  - left. eapply same_mail_trans; [exact H3 | exact S].
  - right. destruct S as (S1 & S2 & S3 & S4 & S5 & S6 & _ & S8 & S9).
    destruct H3 as (A & B). rewrite C3 in S1, S2, S3. rewrite B in S4. rewrite A in S8.
    repeat split; assumption.
Qed.

(** ** A failed inference job *)

Lemma compute_mel_spectrogram_counts e a n w :
  inference_count (snd (compute_mel_spectrogram e a n w)) = inference_count w /\
  detection_count (snd (compute_mel_spectrogram e a n w)) = detection_count w.
Proof.
  unfold compute_mel_spectrogram.
  assert (H1 : inference_count (snd (init_fft_workspace e w)) = inference_count w /\
               detection_count (snd (init_fft_workspace e w)) = detection_count w)
    by (unfold init_fft_workspace; break_match; split; reflexivity).
  destruct (init_fft_workspace e w) as [ok1 w1]. cbn [snd] in H1.
  destruct H1 as (A1 & B1).
  destruct ok1.
  - assert (H2 : inference_count (snd (init_mel_filter_bank w1)) = inference_count w1 /\
                 detection_count (snd (init_mel_filter_bank w1)) = detection_count w1)
      by (unfold init_mel_filter_bank; break_match; split; reflexivity).
    destruct (init_mel_filter_bank w1) as [ok w2]. cbn [snd] in H2.
    destruct H2 as (A2 & B2).
    destruct ok; cbn [negb].
    + match goal with |- context [frame_loop ?a ?b ?c ?d ?e ?f ?g] =>
        destruct (frame_loop a b c d e f g) as [fc out] end.
      cbn [snd inference_count detection_count emit]. split; congruence.
    + cbn [snd inference_count detection_count emit]. split; congruence.
  - cbn [negb snd inference_count detection_count emit]. split; assumption.
Qed.

(** When the inference job fails, the pass reports no detection and logs the
    failure after the extractor's own log; it counts neither an inference nor
    a detection and sends no mail.  The input tensor has been overwritten
    with the quantised features of the pass all the same. *)
Theorem inference_failure (e : env) (audio : list F32.float32) (num_samples : Z)
    (w : world) :
  ml_ready w = true ->
  F32.ltb (compute_rms audio num_samples) MIN_RMS_THRESHOLD = false ->
  env_infer e = None ->
  let res := process_gunshot_detection e audio num_samples w in
  let mel := compute_mel_spectrogram e audio num_samples w in
  fst res = false /\
  trace (snd res) = trace (snd mel) ++ [LogInferenceFailed] /\
  inference_count (snd res) = inference_count w /\
  detection_count (snd res) = detection_count w /\
  same_mail w (snd res) /\
  input_tensor (snd res) = quantize_input (fst mel).
Proof.
  intros Hr Hs Hi. cbv zeta. unfold process_gunshot_detection.
  rewrite Hr, Hs, Hi. cbn [negb].
  pose proof (compute_mel_spectrogram_same_mail e audio num_samples w) as H1.
  pose proof (compute_mel_spectrogram_counts e audio num_samples w) as (C1 & C2).
  destruct (compute_mel_spectrogram e audio num_samples w) as [feat w1].
  cbn [fst snd] in *.
  split; [reflexivity|]. split; [reflexivity|].
  split; [exact C1|]. split; [exact C2|]. split; [|reflexivity].
  eapply same_mail_trans; [exact H1|].
  eapply same_mail_trans; [| apply emit_same_mail; reflexivity]. split; reflexivity.
Qed.

(** ** The periodic check of the configuration file *)

Lemma load_config_line_check w line :
  last_config_check (load_config_line w line) = last_config_check w /\
  last_mtime (load_config_line w line) = last_mtime w.
Proof. unfold load_config_line, load_threshold_line. break_match; split; reflexivity. Qed.

Lemma load_config_check e w :
  last_config_check (load_config e w) = last_config_check w /\
  last_mtime (load_config e w) = last_mtime w.
Proof.
  unfold load_config. destruct (env_config_file e) as [[mtime lines]|]; [|split; reflexivity].
  revert w. induction lines as [|l lines IH]; intros w; simpl; [split; reflexivity|].
  destruct (IH (load_config_line w l)) as (A & B).
  destruct (load_config_line_check w l) as (A' & B').
  split; congruence.
Qed.

(** The configuration file is looked at once in five seconds at most, and read
    again only when its modification time differs from the one seen last: a
    check less than five seconds after the previous one changes nothing, a
    check that finds the modification time it knows reads nothing, and a
    second check at the same instant on the same file changes nothing more. *)
Theorem config_check_throttled (e : env) (w : world) :
  (env_time e - last_config_check w < 5 -> check_config_changes e w = w) /\
  (forall lines, env_config_file e = Some (last_mtime w, lines) ->
     cfg (check_config_changes e w) = cfg w /\
     trace (check_config_changes e w) = trace w) /\
  (forall mtime lines,
     5 <= env_time e - last_config_check w ->
     env_config_file e = Some (mtime, lines) -> mtime <> last_mtime w ->
     check_config_changes e w = load_config e (with_config_check (env_time e) mtime w)) /\
  check_config_changes e (check_config_changes e w) = check_config_changes e w.
Proof.
  split; [|split; [|split]].
  - intros H. unfold check_config_changes.
    destruct (Z.ltb_spec (env_time e - last_config_check w) 5); [reflexivity | lia].
  - intros lines Hf. unfold check_config_changes. rewrite Hf.
    destruct (_ <? 5); [split; reflexivity|]. cbv zeta.
    cbn [last_mtime with_config_check]. rewrite Z.eqb_refl. cbn [negb]. split; reflexivity.
  - intros mtime lines Ht Hf Hne. unfold check_config_changes. rewrite Hf.
    destruct (Z.ltb_spec (env_time e - last_config_check w) 5); [lia|]. cbv zeta.
    cbn [last_mtime with_config_check].
    destruct (Z.eqb_spec mtime (last_mtime w)); [contradiction|]. cbn [negb].
    destruct w; reflexivity.
  - assert (G : forall w1, last_config_check w1 = env_time e -> check_config_changes e w1 = w1).
    { intros w1 H1. unfold check_config_changes. rewrite H1, Z.sub_diag. reflexivity. }
    assert (H : (env_time e - last_config_check w < 5 /\ check_config_changes e w = w) \/
                last_config_check (check_config_changes e w) = env_time e).
    { unfold check_config_changes.
      destruct (Z.ltb_spec (env_time e - last_config_check w) 5) as [Hlt|Hge];
        [left; split; [exact Hlt | reflexivity] | right].
      cbv zeta. destruct (env_config_file e) as [[mtime lines]|] eqn:Hf; [|reflexivity].
      destruct (negb _); [|reflexivity].
      destruct (load_config_check e
                  (with_config_check (env_time e) mtime
                     (with_config_check (env_time e) (last_mtime w) w))) as (A & _).
      rewrite A. reflexivity. }
    destruct H as [(Hlt & E)|H]; [rewrite E; exact E | apply G; exact H].
Qed.

(** * Configuration reload *)

Lemma field_stable_comp {A : Type} (f : config -> A) (g h : config -> config) :
  field_stable f g -> field_stable f h -> field_stable f (fun c => h (g c)).
Proof.
  intros [G | (v & G)] [H | (u & H)].
  - left. intros c. rewrite H. apply G.
  - right. exists u. intros c. apply H.
  - right. exists v. intros c. rewrite H. apply G.
  - right. exists u. intros c. apply H.
Qed.

Lemma overwrites_comp (g h : config -> config) :
  overwrites g -> overwrites h -> overwrites (fun c => h (g c)).
Proof.
  intros (G1 & G2 & G3 & G4 & G5 & G6 & G7) (H1 & H2 & H3 & H4 & H5 & H6 & H7).
  split; [|split; [|split; [|split; [|split; [|split]]]]];
    apply field_stable_comp; assumption.
Qed.

Lemma overwrites_id : overwrites (fun c => c).
Proof.
  split; [|split; [|split; [|split; [|split; [|split]]]]]; left; reflexivity.
Qed.

Lemma overwrites_idem (g : config -> config) (c : config) :
  overwrites g -> g (g c) = g c.
Proof.
  intros (G1 & G2 & G3 & G4 & G5 & G6 & G7).
  assert (E : forall (A : Type) (f : config -> A), field_stable f g -> f (g (g c)) = f (g c)).
  { intros A f [H | (v & H)]; [apply H | rewrite !H; reflexivity]. }
  pose proof (E _ _ G1) as E1. pose proof (E _ _ G2) as E2. pose proof (E _ _ G3) as E3.
  pose proof (E _ _ G4) as E4. pose proof (E _ _ G5) as E5. pose proof (E _ _ G6) as E6.
  pose proof (E _ _ G7) as E7.
  destruct (g (g c)), (g c). cbn in E1, E2, E3, E4, E5, E6, E7. congruence.
Qed.

Lemma overwrites_setters :
  (forall t, overwrites (set_threshold t)) /\
  (forall b, overwrites (set_email_enabled b)) /\
  (forall s, overwrites (set_smtp_server s)) /\
  (forall p, overwrites (set_smtp_port p)) /\
  (forall s, overwrites (set_smtp_username s)) /\
  (forall s, overwrites (set_smtp_password s)) /\
  (forall s, overwrites (set_recipient_email s)).
Proof.
  split; [|split; [|split; [|split; [|split; [|split]]]]]; intros x;
    (split; [|split; [|split; [|split; [|split; [|split]]]]]);
    first [ left; reflexivity | right; exists x; reflexivity ].
Qed.

Lemma overwrites_step {A : Type} (b : bool) (o : option A) (setter : A -> config -> config) :
  (forall a, overwrites (setter a)) ->
  overwrites (fun c => if b then match o with Some a => setter a c | None => c end else c).
Proof.
  intros H. destruct b; [|exact overwrites_id].
  destruct o as [a|]; [exact (H a) | exact overwrites_id].
Qed.

Lemma load_other_lines_overwrites line : overwrites (load_other_lines line).
Proof.
  destruct overwrites_setters as (S1 & S2 & S3 & S4 & S5 & S6 & S7).
  unfold load_other_lines. cbv zeta.
  apply (overwrites_comp _ (fun c => if strstr line "recipient_email=" then
                                       match sscanf_str (qkey "recipient_email") 255 line with
                                       | Some s => set_recipient_email s c
                                       | None => c
                                       end else c)); [|apply overwrites_step; exact S7].
  apply (overwrites_comp _ (fun c => if strstr line "smtp_password=" then
                                       match sscanf_str (qkey "smtp_password") 255 line with
                                       | Some s => set_smtp_password s c
                                       | None => c
                                       end else c)); [|apply overwrites_step; exact S6].
  apply (overwrites_comp _ (fun c => if strstr line "smtp_username=" then
                                       match sscanf_str (qkey "smtp_username") 255 line with
                                       | Some s => set_smtp_username s c
                                       | None => c
                                       end else c)); [|apply overwrites_step; exact S5].
  apply (overwrites_comp _ (fun c => if strstr line "smtp_port=" then
                                       match sscanf_int (qkey "smtp_port") line with
                                       | Some p => set_smtp_port p c
                                       | None => c
                                       end else c)); [|apply overwrites_step; exact S4].
  apply (overwrites_comp _ (fun c => if strstr line "smtp_server=" then
                                       match sscanf_str (qkey "smtp_server") 255 line with
                                       | Some s => set_smtp_server s c
                                       | None => c
                                       end else c)); [|apply overwrites_step; exact S3].
  apply (overwrites_step _ _ (fun enabled_str => set_email_enabled (String.eqb enabled_str "yes"))).
  intros a. apply S2.
Qed.

Lemma load_config_line_overwrites line :
  exists g, overwrites g /\ forall w, cfg (load_config_line w line) = g (cfg w).
Proof.
  destruct overwrites_setters as (S1 & _).
  unfold load_config_line, load_threshold_line.
  destruct (strstr line "threshold=").
  2:{ exists (load_other_lines line). split; [apply load_other_lines_overwrites|].
      intros w. reflexivity. }
  destruct (sscanf_int (qkey "threshold") line) as [threshold_int|].
  2:{ exists (load_other_lines line). split; [apply load_other_lines_overwrites|].
      intros w. reflexivity. }
  destruct (F32.geb (F32.div (F32.of_int threshold_int) F32.c_100) F32.c_0_30
            && F32.leb (F32.div (F32.of_int threshold_int) F32.c_100) F32.c_0_70).
  - exists (fun c => load_other_lines line
                       (set_threshold (F32.div (F32.of_int threshold_int) F32.c_100) c)).
    split; [|intros w; reflexivity].
    apply (overwrites_comp (set_threshold _) (load_other_lines line));
      [apply S1 | apply load_other_lines_overwrites].
  - exists (load_other_lines line). split; [apply load_other_lines_overwrites|].
    intros w. reflexivity.
Qed.

Lemma load_config_lines_overwrites lines :
  exists g, overwrites g /\ forall w, cfg (fold_left load_config_line lines w) = g (cfg w).
Proof.
  induction lines as [|line lines IH].
  - exists (fun c => c). split; [exact overwrites_id | reflexivity].
  - destruct IH as (G & HG & EG).
    destruct (load_config_line_overwrites line) as (g & Hg & Eg).
    exists (fun c => G (g c)). split; [apply overwrites_comp; assumption|].
    intros w. cbn [fold_left]. rewrite EG, Eg. reflexivity.
Qed.

(** Reading the same configuration file a second time changes no setting:
    every line overwrites the settings it names with values that depend on
    the line alone, so that the configuration after the first reading is
    the one after the second. *)
Theorem load_config_idempotent (e : env) (w : world) :
  cfg (load_config e (load_config e w)) = cfg (load_config e w).
Proof.
  unfold load_config. destruct (env_config_file e) as [[mtime lines]|]; [|reflexivity].
  destruct (load_config_lines_overwrites lines) as (G & HG & EG).
  rewrite !EG. apply overwrites_idem. exact HG.
Qed.

(** * Mail payload *)

Lemma wrap_size_small z : 0 <= z < 2 ^ 64 -> wrap_size z = z.
Proof. intros H. unfold wrap_size. apply Z.mod_small. exact H. Qed.

Lemma wrap_size_range z : 0 <= wrap_size z < 2 ^ 64.
Proof. unfold wrap_size. apply Z.mod_pos_bound. reflexivity. Qed.

Lemma email_payload_source_spec size nmemb ctx :
  email_upload_status.length ctx = Z.of_nat (length (email_upload_status.data ctx)) ->
  email_upload_status.length ctx < 2 ^ 64 ->
  0 <= email_upload_status.position ctx <= email_upload_status.length ctx ->
  let '(len, bytes, ctx') := email_payload_source size nmemb ctx in
  len = Z.min (email_upload_status.length ctx - email_upload_status.position ctx)
              (wrap_size (size * nmemb)) /\
  Z.of_nat (length bytes) = len /\
  bytes = take (Z.to_nat len)
               (drop (Z.to_nat (email_upload_status.position ctx))
                     (email_upload_status.data ctx)) /\
  email_upload_status.data ctx' = email_upload_status.data ctx /\
  email_upload_status.length ctx' = email_upload_status.length ctx /\
  email_upload_status.position ctx' = email_upload_status.position ctx + len.
Proof.
  intros Hlen Hmax Hpos. unfold email_payload_source.
  pose proof (wrap_size_range (size * nmemb)) as Hroom.
  destruct (Z.leb_spec (email_upload_status.length ctx) (email_upload_status.position ctx))
    as [Hle | Hlt].
  - assert (Hp : email_upload_status.position ctx = email_upload_status.length ctx) by lia.
    repeat split; try reflexivity; try lia.
  - rewrite (wrap_size_small (email_upload_status.length ctx
                              - email_upload_status.position ctx)) by lia.
    set (room := wrap_size (size * nmemb)) in *.
    set (len := if _ <? room then _ else room).
    assert (Hl : len = Z.min (email_upload_status.length ctx
                              - email_upload_status.position ctx) room).
    { subst len. destruct (Z.ltb_spec (email_upload_status.length ctx
                                       - email_upload_status.position ctx) room); lia. }
    cbn [email_upload_status.data email_upload_status.length email_upload_status.position].
    split; [exact Hl|]. split.
    { rewrite length_take, length_drop. lia. }
    split; [reflexivity|]. split; [reflexivity|]. split; [reflexivity|].
    apply wrap_size_small. lia.
Qed.

(** Whatever room libcurl offers from call to call, the transfer hands over
    the bytes of the mail body in order, each once and none from beyond its
    end: after the calls the position is the room offered so far, capped at
    the length of the body, and the bytes delivered are the body from the
    start position up to that position. *)
Theorem email_payload_in_order (requests : list (Z * Z)) (ctx : email_upload_status.t) :
  email_upload_status.length ctx = Z.of_nat (length (email_upload_status.data ctx)) ->
  email_upload_status.length ctx < 2 ^ 64 ->
  0 <= email_upload_status.position ctx <= email_upload_status.length ctx ->
  Forall (fun r => 0 < wrap_size (fst r * snd r)) requests ->
  let sent := fst (upload requests ctx) in
  let ctx' := snd (upload requests ctx) in
  email_upload_status.position ctx'
  = Z.min (email_upload_status.length ctx)
          (email_upload_status.position ctx + total_room requests) /\
  sent = take (Z.to_nat (email_upload_status.position ctx'
                         - email_upload_status.position ctx))
              (drop (Z.to_nat (email_upload_status.position ctx))
                    (email_upload_status.data ctx)) /\
  email_upload_status.data ctx' = email_upload_status.data ctx /\
  email_upload_status.length ctx' = email_upload_status.length ctx.
Proof.
  revert ctx. induction requests as [|[size nmemb] rest IH]; intros ctx Hlen Hmax Hpos Hreq.
  - cbn [upload total_room fold_right fst snd].
    split; [lia|]. split; [|split; reflexivity].
    rewrite Z.sub_diag. reflexivity.
  - apply Forall_cons in Hreq. destruct Hreq as (Hr & Hrest). cbn [fst snd] in Hr.
    pose proof (email_payload_source_spec size nmemb ctx Hlen Hmax Hpos) as S.
    cbn [upload]. destruct (email_payload_source size nmemb ctx) as [[len bytes] ctx1].
    destruct S as (S1 & S2 & S3 & S4 & S5 & S6).
    assert (Hroom : total_room ((size, nmemb) :: rest)
                    = wrap_size (size * nmemb) + total_room rest) by reflexivity.
    assert (Htr : 0 <= total_room rest).
    { clear. induction rest as [|r rest IH]; [discriminate|].
      cbn [total_room fold_right]. fold (total_room rest).
      pose proof (wrap_size_range (fst r * snd r)). lia. }
    destruct (Z.eqb_spec len 0) as [H0 | H0].
    + cbn [fst snd]. rewrite S4, S5, S6, H0, Z.add_0_r, Z.sub_diag.
      split; [lia|]. split; [reflexivity|]. split; reflexivity.
    + assert (Hlen1 : email_upload_status.length ctx1
                      = Z.of_nat (length (email_upload_status.data ctx1))) by congruence.
      assert (Hmax1 : email_upload_status.length ctx1 < 2 ^ 64) by congruence.
      assert (Hpos1 : 0 <= email_upload_status.position ctx1
                      <= email_upload_status.length ctx1) by lia.
      specialize (IH ctx1 Hlen1 Hmax1 Hpos1 Hrest). cbv zeta in IH.
      destruct (upload rest ctx1) as [more ctx2]. cbn [fst snd] in *.
      destruct IH as (I1 & I2 & I3 & I4).
      split; [lia|]. split; [|split; congruence].
      rewrite I2, S3, S4, S6.
      set (p := email_upload_status.position ctx) in *.
      set (d := email_upload_status.data ctx) in *.
      set (p2 := email_upload_status.position ctx2) in *.
      assert (Hp2 : p + len <= p2) by lia.
      replace (Z.to_nat (p2 - p)) with (Z.to_nat len + Z.to_nat (p2 - (p + len)))%nat by lia.
      replace (Z.to_nat (p + len)) with (Z.to_nat p + Z.to_nat len)%nat by lia.
      rewrite <- drop_drop. rewrite take_take_drop. reflexivity.
Qed.

(** * Stream selection *)

Lemma prefix_strncpy needle n s :
  String.prefix needle (strncpy n s) = true -> String.prefix needle s = true.
Proof.
  revert n s. induction needle as [|a needle IH]; intros n s H; [destruct s; reflexivity|].
  destruct n as [|n]; [discriminate H|].
  destruct s as [|c s]; [discriminate H|].
  cbn [strncpy String.prefix] in *.
  destruct (ascii_dec a c); [|discriminate H].
  eapply IH. exact H.
Qed.

Lemma strstr_strncpy needle n s :
  strstr (strncpy n s) needle = true -> strstr s needle = true.
Proof.
  revert n. induction s as [|c s IH]; intros n H.
  - destruct n; exact H.
  - destruct n as [|n].
    + cbn [strncpy strstr] in H. rewrite orb_false_r in H.
      cbn [strstr]. destruct needle; [reflexivity | discriminate H].
    + cbn [strncpy] in H. cbn [strstr] in *.
      apply orb_true_iff in H. apply orb_true_iff. destruct H as [H | H].
      * left. exact (prefix_strncpy needle (S n) (String c s) H).
      * right. exact (IH n H).
Qed.

Lemma on_param_changed_flag data id param :
  name (on_param_changed data id param) = name data /\
  (is_target_stream (on_param_changed data id param) = true ->
   is_target_stream data = true \/ strstr (name data) TARGET_NODE = true).
Proof.
  unfold on_param_changed. destruct param as [p|]; [|split; [reflexivity | tauto]].
  destruct (negb (id =? SPA_PARAM_Format)); [split; [reflexivity | tauto]|].
  destruct (spa_format_parse p <? 0); [split; [reflexivity | tauto]|].
  destruct (negb (media_type p =? SPA_MEDIA_TYPE_audio)
            || negb (media_subtype p =? SPA_MEDIA_SUBTYPE_raw));
    [split; [reflexivity | tauto]|].
  destruct (strstr (name data) TARGET_NODE) eqn:Hs; split; try reflexivity; tauto.
Qed.

Lemma params_changed_flag events data :
  name (params_changed events data) = name data /\
  (is_target_stream (params_changed events data) = true ->
   is_target_stream data = true \/ strstr (name data) TARGET_NODE = true).
Proof.
  revert data. induction events as [|[id param] events IH]; intros data.
  - split; [reflexivity | tauto].
  - cbn [params_changed fold_left fst snd].
    destruct (IH (on_param_changed data id param)) as (I1 & I2).
    destruct (on_param_changed_flag data id param) as (O1 & O2).
    unfold params_changed in I1, I2. split; [congruence|].
    intros H. destruct (I2 H) as [Hf | Hs]; [exact (O2 Hf)|].
    right. rewrite <- O1. exact Hs.
Qed.

(** Samples are accumulated only from a stream of a node whose name contains
    AudioDevice0Input0.Unprocessed within its first 63 characters: the stream
    the registry callback connects carries the name cut to 63 characters and
    is not the target; parameter callbacks never change the name, and when
    the cut name lacks the marker they never set the flag, so that a capture
    callback on the stream leaves the state as it is, whatever the samples. *)
Theorem target_stream_by_name (type : string) (props : list (string * string))
    (data : stream_data) (events : list (Z * option spa_pod)) :
  registry_event_global type props = Some data ->
  exists node_name,
    spa_dict_lookup props PW_KEY_NODE_NAME = Some node_name /\
    strstr node_name INPUT_NODE = true /\
    name (params_changed events data) = strncpy 63 node_name /\
    (is_target_stream (params_changed events data) = true ->
     strstr (strncpy 63 node_name) TARGET_NODE = true /\
     strstr node_name TARGET_NODE = true) /\
    (strstr (strncpy 63 node_name) TARGET_NODE = false ->
     forall e samples w,
       on_process e (is_target_stream (params_changed events data)) (Samples samples) w = w).
Proof.
  unfold registry_event_global. intros H.
  destruct (negb (type =? PW_TYPE_INTERFACE_Node)%string); [discriminate H|].
  destruct (spa_dict_lookup props PW_KEY_MEDIA_CLASS) as [media_class|]; [|discriminate H].
  destruct (spa_dict_lookup props PW_KEY_NODE_NAME) as [node_name|]; [|discriminate H].
  destruct (strstr node_name INPUT_NODE) eqn:Hin; [|discriminate H].
  cbn [negb] in H. injection H as <-.
  exists node_name. split; [reflexivity|]. split; [exact Hin|].
  destruct (params_changed_flag events (StreamData (strncpy 63 node_name) false))
    as (P1 & P2).
  cbn [name is_target_stream] in P1, P2.
  split; [exact P1|]. split.
  - intros Ht. destruct (P2 Ht) as [Hf | Hs]; [discriminate Hf|].
    split; [exact Hs | exact (strstr_strncpy _ _ _ Hs)].
  - intros Hno e samples w.
    destruct (is_target_stream (params_changed events _)) eqn:Ht; [|reflexivity].
    destruct (P2 eq_refl) as [Hf | Hs]; [discriminate Hf | congruence].
Qed.

End Program.

(** ** Binary32 rounding: the shape of a rounded result *)

Lemma digits2_pos_size p : digits2_pos p = Pos.size p.
Proof. induction p as [p IH|p IH|]; simpl; congruence. Qed.

Lemma Zdigits2_bounds p :
  2 ^ (Zdigits2 (Z.pos p) - 1) <= Z.pos p < 2 ^ Zdigits2 (Z.pos p).
Proof.
  unfold Zdigits2. rewrite digits2_pos_size.
  pose proof (Pos.size_gt p) as Hgt. pose proof (Pos.size_le p) as Hle.
  assert (E : 2 ^ Z.pos (Pos.size p) = Z.pos (2 ^ Pos.size p))
    by (rewrite Pos2Z.inj_pow; reflexivity).
  split.
  - assert (2 * 2 ^ (Z.pos (Pos.size p) - 1) = 2 ^ Z.pos (Pos.size p)).
    { rewrite <- Z.pow_succ_r by lia. f_equal. lia. }
    assert (Z.pos (2 ^ Pos.size p) <= Z.pos p~0) by (apply Pos2Z.pos_le_pos; exact Hle).
    lia.
  - rewrite E. apply Pos2Z.pos_lt_pos. exact Hgt.
Qed.

Lemma Zdigits2_nonneg m : 0 <= Zdigits2 m.
Proof. destruct m; simpl; lia. Qed.

Lemma Zdigits2_lt_pow m k : 0 <= m -> 0 <= k -> m < 2 ^ k -> Zdigits2 m <= k.
Proof.
  intros Hm Hk H. destruct m as [|p|p]; [simpl; lia | | lia].
  pose proof (Zdigits2_bounds p) as (Hlo & _).
  destruct (Z.le_gt_cases (Zdigits2 (Z.pos p)) k) as [|Hgt]; [assumption|].
  assert (2 ^ k <= 2 ^ (Zdigits2 (Z.pos p) - 1)) by (apply Z.pow_le_mono_r; lia).
  lia.
Qed.

Lemma Zdigits2_ge_pow m k : 0 <= k -> 2 ^ k <= m -> k + 1 <= Zdigits2 m.
Proof.
  intros Hk H. assert (0 < 2 ^ k) by (apply Z.pow_pos_nonneg; lia).
  destruct m as [|p|p]; [lia | | lia].
  pose proof (Zdigits2_bounds p) as (_ & Hhi).
  destruct (Z.le_gt_cases (k + 1) (Zdigits2 (Z.pos p))) as [|Hgt]; [assumption|].
  assert (2 ^ Zdigits2 (Z.pos p) <= 2 ^ k).
  { apply Z.pow_le_mono_r; [lia|]. lia. }
  lia.
Qed.

Lemma shr_1_m mrs : 0 <= shr_m mrs -> shr_m (shr_1 mrs) = shr_m mrs / 2.
Proof.
  destruct mrs as [m r s]. simpl. intros H.
  destruct m as [|[p|p|]|p]; cbn [shr_m]; try lia; try reflexivity.
  - apply Z.div_unique with (r := 1); lia.
  - apply Z.div_unique with (r := 0); lia.
Qed.

Lemma iter_shr_1_m (n : positive) : forall mrs,
  0 <= shr_m mrs -> shr_m (SpecFloat.iter_pos shr_1 n mrs) = shr_m mrs / 2 ^ Z.pos n.
Proof.
  induction n as [n IH|n IH|]; intros mrs H; cbn [SpecFloat.iter_pos].
  - assert (H1 : 0 <= shr_m (shr_1 mrs))
      by (rewrite shr_1_m by exact H; apply Z.div_pos; lia).
    assert (H2 : 0 <= shr_m (SpecFloat.iter_pos shr_1 n (shr_1 mrs)))
      by (rewrite IH by exact H1; apply Z.div_pos; [lia | apply Z.pow_pos_nonneg; lia]).
    rewrite IH, IH, shr_1_m by assumption.
    rewrite !Z.div_div by (try apply Z.pow_pos_nonneg; lia).
    f_equal. replace (Z.pos n~1) with (1 + Z.pos n + Z.pos n) by lia.
    rewrite !Z.pow_add_r by lia. lia.
  - assert (H2 : 0 <= shr_m (SpecFloat.iter_pos shr_1 n mrs))
      by (rewrite IH by exact H; apply Z.div_pos; [lia | apply Z.pow_pos_nonneg; lia]).
    rewrite IH, IH by assumption.
    rewrite !Z.div_div by (try apply Z.pow_pos_nonneg; lia).
    f_equal. replace (Z.pos n~0) with (Z.pos n + Z.pos n) by lia.
    rewrite Z.pow_add_r by lia. lia.
  - rewrite shr_1_m by exact H. reflexivity.
Qed.

Lemma shr_record_of_loc_m m l : shr_m (shr_record_of_loc m l) = m.
Proof. destruct l as [|[]]; reflexivity. Qed.

(** The first step of rounding: the mantissa is divided by a power of two. *)
Lemma shr_fexp_spec mx ex lx :
  0 <= mx ->
  shr_m (fst (shr_fexp F32.prec F32.emax mx ex lx)) = mx / 2 ^ round_shift mx ex /\
  snd (shr_fexp F32.prec F32.emax mx ex lx) = ex + round_shift mx ex /\
  (round_shift mx ex = 0 ->
   fst (shr_fexp F32.prec F32.emax mx ex lx) = shr_record_of_loc mx lx).
Proof.
  intros Hm. unfold shr_fexp, round_shift, shr.
  change (fexp F32.prec F32.emax (Zdigits2 mx + ex)) with (fexp32 (Zdigits2 mx + ex)).
  destruct (fexp32 (Zdigits2 mx + ex) - ex) as [|n|n] eqn:E; cbn [fst snd].
  - rewrite Z.max_id, Z.pow_0_r, Z.div_1_r, shr_record_of_loc_m. split; [reflexivity|].
    split; [lia | reflexivity].
  - rewrite Z.max_r by lia. rewrite iter_shr_1_m by (rewrite shr_record_of_loc_m; exact Hm).
    rewrite shr_record_of_loc_m. split; [reflexivity|]. split; [reflexivity|]. lia.
  - rewrite Z.max_l by lia. rewrite Z.pow_0_r, Z.div_1_r, shr_record_of_loc_m.
    split; [reflexivity|]. split; [lia | reflexivity].
Qed.

Lemma round_nearest_even_cases m l :
  round_nearest_even m l = m \/ round_nearest_even m l = m + 1.
Proof. destruct l as [|[]]; simpl; auto. destruct (Z.even m); auto. Qed.

Lemma round_shift_bounds mx ex :
  0 <= mx ->
  0 <= round_shift mx ex /\ -149 <= ex + round_shift mx ex /\
  mx / 2 ^ round_shift mx ex < 2 ^ 24.
Proof.
  intros Hm. unfold round_shift, fexp32.
  set (d := Zdigits2 mx). set (sh := Z.max 0 _).
  assert (Hd : 0 <= d) by apply Zdigits2_nonneg.
  assert (Hsh : 0 <= sh /\ d - 24 <= sh /\ -149 <= ex + sh) by (subst sh; lia).
  destruct Hsh as (H0 & H1 & H2). repeat split; try assumption.
  assert (Hlt : mx < 2 ^ (sh + 24)).
  { destruct mx as [|p|p]; [apply Z.pow_pos_nonneg; lia | | lia].
    pose proof (Zdigits2_bounds p) as (_ & Hhi). fold d in Hhi.
    eapply Z.lt_le_trans; [exact Hhi|]. apply Z.pow_le_mono_r; lia. }
  rewrite Z.pow_add_r in Hlt by lia.
  apply Z.div_lt_upper_bound; [apply Z.pow_pos_nonneg; lia | lia].
Qed.

Lemma round_shift_small m2 e1 :
  0 <= m2 < 2 ^ 24 -> -149 <= e1 -> round_shift m2 e1 = 0.
Proof.
  intros Hm He. unfold round_shift, fexp32.
  assert (Zdigits2 m2 <= 24) by (apply Zdigits2_lt_pow; lia). lia.
Qed.

(** Every rounded result is the packing of the shifted mantissa or of its
    successor. *)
Lemma binary_round_aux_spec s mx ex lx :
  0 <= mx ->
  let sh := round_shift mx ex in
  let m1 := mx / 2 ^ sh in
  exists m2,
    (m2 = m1 \/ m2 = m1 + 1) /\
    (lx = loc_Exact -> sh = 0 -> m2 = m1) /\
    binary_round_aux F32.prec F32.emax s mx ex lx = pack s m2 (ex + sh).
Proof.
  intros Hm. cbv zeta.
  destruct (round_shift_bounds mx ex Hm) as (Hsh0 & He1 & Hm1).
  destruct (shr_fexp_spec mx ex lx Hm) as (S1 & S2 & S3).
  unfold binary_round_aux.
  destruct (shr_fexp F32.prec F32.emax mx ex lx) as [mrs' e'] eqn:E1.
  cbn [fst snd] in S1, S2, S3. subst e'.
  set (m1 := mx / 2 ^ round_shift mx ex) in *.
  set (e1 := ex + round_shift mx ex) in *.
  set (m2 := round_nearest_even (shr_m mrs') (loc_of_shr_record mrs')).
  assert (Hm10 : 0 <= m1) by (apply Z.div_pos; [lia | apply Z.pow_pos_nonneg; lia]).
  assert (Hm2 : m2 = m1 \/ m2 = m1 + 1)
    by (subst m2; rewrite <- S1; apply round_nearest_even_cases).
  exists m2. split; [exact Hm2|]. split.
  { intros -> Hz. subst m2. rewrite (S3 Hz). cbn. unfold m1. rewrite Hz.
    rewrite Z.pow_0_r, Z.div_1_r. reflexivity. }
  assert (Hm2r : 0 <= m2 <= 2 ^ 24) by lia.
  destruct (shr_fexp_spec m2 e1 loc_Exact (proj1 Hm2r)) as (T1 & T2 & _).
  destruct (shr_fexp F32.prec F32.emax m2 e1 loc_Exact) as [mrs'' e''] eqn:E2.
  cbn [fst snd] in T1, T2. subst e''. rewrite T1.
  change (F32.emax - F32.prec) with 104.
  destruct (Z.eq_dec m2 (2 ^ 24)) as [Heq|Hne].
  - rewrite Heq.
    assert (Hs : round_shift (2 ^ 24) e1 = 1).
    { unfold round_shift, fexp32. change (Zdigits2 (2 ^ 24)) with 25. lia. }
    rewrite Hs. reflexivity.
  - rewrite (round_shift_small m2 e1) by lia.
    rewrite Z.pow_0_r, Z.div_1_r, Z.add_0_r. unfold pack.
    destruct m2 as [|p|p]; [reflexivity | | lia].
    destruct (Z.ltb_spec (Z.pos p) (2 ^ 24)); [reflexivity | lia].
Qed.

(** ** Binary32 rounding: accuracy *)

Lemma pow2Q_pos e : (0 < F32.pow2Q e)%Q.
Proof. apply Qpower_0_lt. reflexivity. Qed.

Lemma pow2Q_add a b : (F32.pow2Q (a + b) == F32.pow2Q a * F32.pow2Q b)%Q.
Proof. apply Qpower_plus. discriminate. Qed.

Lemma pow2Q_Z k : 0 <= k -> (F32.pow2Q k == inject_Z (2 ^ k))%Q.
Proof. intros H. unfold F32.pow2Q. rewrite Zpower_Qpower by exact H. reflexivity. Qed.

Lemma pow2Q_le a b : a <= b -> (F32.pow2Q a <= F32.pow2Q b)%Q.
Proof. intros H. apply Qpower_le_compat_l; [exact H | discriminate]. Qed.

(** The shifted mantissa brackets every value the unshifted one brackets. *)
Lemma shift_bracket mx ex sh (X : Q) :
  0 <= mx -> 0 <= sh ->
  (inject_Z mx * F32.pow2Q ex <= X)%Q ->
  (X < inject_Z (mx + 1) * F32.pow2Q ex)%Q ->
  (inject_Z (mx / 2 ^ sh) * F32.pow2Q (ex + sh) <= X)%Q /\
  (X < inject_Z (mx / 2 ^ sh + 1) * F32.pow2Q (ex + sh))%Q.
Proof.
  intros Hm Hs Hlo Hhi.
  assert (Hp : 0 < 2 ^ sh) by (apply Z.pow_pos_nonneg; lia).
  pose proof (Z.div_mod mx (2 ^ sh) ltac:(lia)) as Hdm.
  pose proof (Z.mod_pos_bound mx (2 ^ sh) Hp) as Hmod.
  set (m1 := mx / 2 ^ sh) in *.
  assert (E : forall z, (inject_Z z * F32.pow2Q (ex + sh)
                         == inject_Z (z * 2 ^ sh) * F32.pow2Q ex)%Q).
  { intros z. rewrite pow2Q_add, (pow2Q_Z sh Hs), inject_Z_mult. ring. }
  pose proof (pow2Q_pos ex) as Hpe.
  split.
  - rewrite E. eapply Qle_trans; [|exact Hlo].
    apply Qmult_le_r; [exact Hpe|]. rewrite <- Zle_Qle. lia.
  - rewrite E. eapply Qlt_le_trans; [exact Hhi|].
    apply Qmult_le_r; [exact Hpe|]. rewrite <- Zle_Qle. lia.
Qed.

Lemma round_shift_normal mx ex :
  0 <= mx ->
  ex <= fexp32 (Zdigits2 mx + ex) ->
  ex + round_shift mx ex = -149 \/ 2 ^ 23 <= mx / 2 ^ round_shift mx ex.
Proof.
  intros Hm Hf. unfold round_shift. rewrite Z.max_r by lia.
  replace (ex + (fexp32 (Zdigits2 mx + ex) - ex)) with (fexp32 (Zdigits2 mx + ex)) by lia.
  unfold fexp32 in *.
  destruct (Z.max_spec (Zdigits2 mx + ex - 24) (-149)) as [(H1 & H2)|(H1 & H2)];
    rewrite H2 in *; [left; reflexivity|].
  destruct (Z.eq_dec (Zdigits2 mx + ex - 24) (-149)) as [E|NE]; [left; lia|]. right.
  destruct mx as [|p|p]; [simpl in *; lia | | lia].
  pose proof (Zdigits2_bounds p) as (Hlo & _).
  set (d := Zdigits2 (Z.pos p)) in *.
  replace (d + ex - 24 - ex) with (d - 24) by lia.
  apply Z.div_le_lower_bound; [apply Z.pow_pos_nonneg; lia|].
  rewrite <- Z.pow_add_r by lia. replace (d - 24 + 23) with (d - 1) by lia. exact Hlo.
Qed.

(** Accuracy of a rounded result, for a value [X] bracketed by the mantissa
    and its successor: the standard model of floating-point arithmetic. *)
Lemma round_aux_accuracy s mx ex lx (X : Q) :
  0 <= mx ->
  (lx = loc_Exact /\ X == inject_Z mx * F32.pow2Q ex)%Q \/
  (ex <= fexp32 (Zdigits2 mx + ex) /\
   (inject_Z mx * F32.pow2Q ex <= X)%Q /\ (X < inject_Z (mx + 1) * F32.pow2Q ex)%Q) ->
  match binary_round_aux F32.prec F32.emax s mx ex lx with
  | S754_zero s' => s' = s /\ (0 <= X)%Q /\ (X < F32.pow2Q (-149))%Q
  | S754_finite s' m e =>
      s' = s /\
      (Qabs (inject_Z (Z.pos m) * F32.pow2Q e - X)
       <= X * (1 # 8388608) + F32.pow2Q (-149))%Q
  | S754_infinity s' => s' = s /\ (F32.pow2Q 104 <= X)%Q
  | S754_nan => False
  end.
Proof.
  intros Hm Hyp.
  destruct (binary_round_aux_spec s mx ex lx Hm) as (m2 & Hm2 & Hex & Heq).
  cbv zeta in *. rewrite Heq. clear Heq.
  destruct (round_shift_bounds mx ex Hm) as (Hsh0 & He1 & Hm1).
  set (sh := round_shift mx ex) in *. set (m1 := mx / 2 ^ sh) in *.
  set (e1 := ex + sh) in *.
  assert (Hm10 : 0 <= m1) by (apply Z.div_pos; [lia | apply Z.pow_pos_nonneg; lia]).
  pose proof (pow2Q_pos ex) as Hpex.
  (* the bracket at the shifted exponent *)
  assert (HB : (inject_Z mx * F32.pow2Q ex <= X)%Q /\
               (X < inject_Z (mx + 1) * F32.pow2Q ex)%Q).
  { destruct Hyp as [(_ & HX)|(_ & H1 & H2)]; [|split; assumption].
    rewrite HX, inject_Z_plus. split; [apply Qle_refl|].
    change (inject_Z 1) with 1%Q. lra. }
  destruct (shift_bracket mx ex sh X Hm Hsh0 (proj1 HB) (proj2 HB)) as (HM & HXu).
  fold m1 e1 in HM, HXu. rewrite inject_Z_plus in HXu. change (inject_Z 1) with 1%Q in HXu.
  pose proof (pow2Q_pos e1) as HA.
  set (A := F32.pow2Q e1) in *. set (M1 := inject_Z m1) in *.
  assert (HM1 : (0 <= M1)%Q) by (unfold M1; change 0%Q with (inject_Z 0); rewrite <- Zle_Qle; lia).
  assert (HMA : (0 <= M1 * A)%Q) by (apply Qmult_le_0_compat; lra).
  (* either the step is small against X, or the result is exact *)
  assert (HG : (e1 = -149 \/ 2 ^ 23 <= m1) \/ (m2 = m1 /\ (X == M1 * A)%Q)).
  { destruct Hyp as [(HE & HX)|(Hf & _)].
    - destruct (Z.le_gt_cases ex (fexp32 (Zdigits2 mx + ex))) as [Hf|Hf].
      + left. apply round_shift_normal; assumption.
      + right. assert (Hz : sh = 0) by (unfold sh, round_shift; lia).
        split; [apply Hex; assumption|].
        unfold M1, A, m1, e1. rewrite Hz, Z.pow_0_r, Z.div_1_r, Z.add_0_r. exact HX.
    - left. apply round_shift_normal; assumption. }
  assert (HS : (A <= X * (1 # 8388608) + F32.pow2Q (-149))%Q \/
               (m2 = m1 /\ (X == M1 * A)%Q)).
  { destruct HG as [[HE|HN]|HR]; [left | left | right; exact HR].
    - unfold A. rewrite HE. pose proof (pow2Q_pos (-149)). nra.
    - assert (HN' : (inject_Z (2 ^ 23) <= M1)%Q) by (unfold M1; rewrite <- Zle_Qle; exact HN).
      change (inject_Z (2 ^ 23)) with (8388608 # 1)%Q in HN'.
      pose proof (pow2Q_pos (-149)).
      assert ((8388608 # 1) * A <= M1 * A)%Q by (apply Qmult_le_r; assumption).
      lra. }
  assert (HXl : (0 <= X)%Q) by lra.
  unfold pack. destruct m2 as [|p|p]; [| |lia].
  - (* the result is a zero *)
    split; [reflexivity|]. split; [exact HXl|].
    assert (m1 = 0) by lia.
    assert (HM0 : (M1 == 0)%Q) by (unfold M1; rewrite H; reflexivity).
    destruct HG as [[HE|HN]|(_ & HR)].
    + unfold A in HXu. rewrite HE in HXu. rewrite HM0 in HXu. lra.
    + lia.
    + rewrite HM0 in HR. pose proof (pow2Q_pos (-149)). lra.
  - destruct (Z.ltb_spec (Z.pos p) (2 ^ 24)) as [Hlt|Hge].
    + (* below 2^24 *)
      assert (HV : (inject_Z (Z.pos p) == M1 \/ inject_Z (Z.pos p) == M1 + 1)%Q).
      { destruct Hm2 as [E|E]; rewrite E; [left; reflexivity | right].
        rewrite inject_Z_plus. reflexivity. }
      destruct (Z.leb_spec e1 104) as [Hle|Hgt].
      * split; [reflexivity|]. fold A.
        destruct HS as [HS|(HR1 & HR2)].
        -- apply Qabs_Qle_condition.
           destruct HV as [E|E]; rewrite E; split; lra.
        -- rewrite HR1. fold M1. pose proof (pow2Q_pos (-149)).
           apply Qabs_Qle_condition. split; lra.
      * split; [reflexivity|].
        assert (H1 : (1 <= M1)%Q).
        { destruct HG as [[HE|HN]|(HR & _)]; [lia | |].
          - unfold M1. change 1%Q with (inject_Z 1). rewrite <- Zle_Qle. lia.
          - unfold M1. change 1%Q with (inject_Z 1). rewrite <- Zle_Qle. lia. }
        assert (H2 : (F32.pow2Q 104 <= A)%Q) by (apply pow2Q_le; lia).
        assert (1 * A <= M1 * A)%Q by (apply Qmult_le_r; assumption).
        lra.
    + (* rounded up to 2^24 *)
      assert (Hp : m1 = 2 ^ 24 - 1) by lia.
      assert (HM2 : (M1 == 16777215 # 1)%Q) by (unfold M1; rewrite Hp; reflexivity).
      destruct (Z.leb_spec (e1 + 1) 104) as [Hle|Hgt].
      * split; [reflexivity|].
        rewrite pow2Q_add. fold A. change (F32.pow2Q 1) with (2 # 1)%Q.
        change (inject_Z (Z.pos (2 ^ 23))) with (8388608 # 1)%Q.
        destruct HS as [HS|(HR1 & _)]; [|lia].
        apply Qabs_Qle_condition. rewrite HM2 in HM, HXu. split; lra.
      * split; [reflexivity|].
        assert (H2 : (F32.pow2Q 104 <= A)%Q) by (apply pow2Q_le; lia).
        rewrite HM2 in HM. lra.
Qed.

Lemma abs_err_pos : (0 < abs_err)%Q.
Proof. apply pow2Q_pos. Qed.

Lemma round_aux_approx s mx ex lx (X : Q) :
  0 <= mx ->
  (lx = loc_Exact /\ X == inject_Z mx * F32.pow2Q ex)%Q \/
  (ex <= fexp32 (Zdigits2 mx + ex) /\
   (inject_Z mx * F32.pow2Q ex <= X)%Q /\ (X < inject_Z (mx + 1) * F32.pow2Q ex)%Q) ->
  approx (binary_round_aux F32.prec F32.emax s mx ex lx) s X.
Proof.
  intros Hm Hyp. pose proof (round_aux_accuracy s mx ex lx X Hm Hyp) as H.
  assert (HX : (0 <= X)%Q).
  { pose proof (pow2Q_pos ex) as Hp.
    assert (0 <= inject_Z mx)%Q by (change 0%Q with (inject_Z 0); rewrite <- Zle_Qle; lia).
    assert (0 <= inject_Z mx * F32.pow2Q ex)%Q by (apply Qmult_le_0_compat; lra).
    destruct Hyp as [(_ & E)|(_ & E & _)]; lra. }
  unfold approx, rel_err, abs_err. split; [exact HX|].
  destruct (binary_round_aux F32.prec F32.emax s mx ex lx); tauto.
Qed.

Lemma to_Q_mag x :
  (F32.to_Q x == if sign_of x then - magQ x else magQ x)%Q.
Proof.
  destruct x as [s|s| |s m e]; simpl; try (destruct s; reflexivity); try reflexivity.
  destruct s; ring.
Qed.

Lemma magQ_nonneg x : (0 <= magQ x)%Q.
Proof.
  destruct x as [s|s| |s m e]; simpl; try apply Qle_refl.
  apply Qmult_le_0_compat; [|apply Qlt_le_weak, pow2Q_pos].
  change 0%Q with (inject_Z 0). rewrite <- Zle_Qle. lia.
Qed.

(** From the magnitude and the sign to the signed value. *)
Lemma approx_rounds_to r s X D :
  approx r s X -> (0 < X)%Q -> (X < F32.pow2Q 104)%Q ->
  (D == if s then - X else X)%Q ->
  rounds_to r D.
Proof.
  intros (HX & HA) HX0 Hov HD. pose proof abs_err_pos as Ht.
  unfold rounds_to, rel_err in *.
  destruct r as [s'|s'| |s' m e]; cbv beta iota in HA.
  - destruct HA as (-> & HA). cbn [F32.to_Q is_real]. split; [reflexivity|].
    destruct s; cbv iota in HD; split; intros HD0; repeat split; lra.
  - destruct HA as (_ & HA). exfalso. lra.
  - contradiction.
  - destruct HA as (-> & HA). apply Qabs_Qle_condition in HA. destruct HA as (H1 & H2).
    split; [reflexivity|]. cbn [F32.to_Q].
    assert (HV : (0 <= inject_Z (Z.pos m) * F32.pow2Q e)%Q).
    { apply Qmult_le_0_compat; [|apply Qlt_le_weak, pow2Q_pos].
      change 0%Q with (inject_Z 0). rewrite <- Zle_Qle. lia. }
    destruct s; cbv iota in HD; split; intros HD0; repeat split; lra.
Qed.

Lemma inject_Z_pos_gt0 p : (0 < inject_Z (Z.pos p))%Q.
Proof. change 0%Q with (inject_Z 0). rewrite <- Zlt_Qlt. lia. Qed.

Lemma magQ_finite_pos s m e : (0 < magQ (S754_finite s m e))%Q.
Proof.
  simpl. apply Qmult_lt_0_compat; [apply inject_Z_pos_gt0 | apply pow2Q_pos].
Qed.

Lemma rounds_to_zero s D : (D == 0)%Q -> rounds_to (S754_zero s) D.
Proof.
  intros HD. pose proof abs_err_pos. unfold rounds_to, rel_err. cbn [is_real F32.to_Q].
  repeat split; lra.
Qed.

Lemma rounds_to_exact r D : is_real r = true -> (F32.to_Q r == D)%Q -> rounds_to r D.
Proof.
  intros Hr HD. pose proof abs_err_pos. unfold rounds_to, rel_err.
  repeat split; try assumption; lra.
Qed.

(** *** Multiplication *)

Lemma mul_rounds x y :
  is_real x = true -> is_real y = true ->
  (magQ x * magQ y < F32.pow2Q 104)%Q ->
  rounds_to (F32.mul x y) (F32.to_Q x * F32.to_Q y).
Proof.
  intros Hx Hy Hov.
  destruct x as [sx|sx| |sx mx ex]; try discriminate;
    destruct y as [sy|sy| |sy my ey]; try discriminate;
    try (apply rounds_to_zero; cbn [F32.to_Q]; ring).
  unfold F32.mul, SFmul.
  apply approx_rounds_to with (s := xorb sx sy)
                              (X := (magQ (S754_finite sx mx ex) * magQ (S754_finite sy my ey))%Q).
  - apply round_aux_approx; [lia|]. left. split; [reflexivity|].
    cbn [magQ]. rewrite Pos2Z.inj_mul, inject_Z_mult, pow2Q_add. ring.
  - apply Qmult_lt_0_compat; apply magQ_finite_pos.
  - exact Hov.
  - cbn [F32.to_Q magQ]. destruct sx, sy; cbn [xorb]; ring.
Qed.

(** *** Division *)

Lemma div_core_spec mx ex my ey :
  let X := ((inject_Z (Z.pos mx) * F32.pow2Q ex) / (inject_Z (Z.pos my) * F32.pow2Q ey))%Q in
  let '(q, e', l) := SFdiv_core_binary F32.prec F32.emax (Z.pos mx) ex (Z.pos my) ey in
  0 <= q /\ e' <= fexp32 (Zdigits2 q + e') /\
  (inject_Z q * F32.pow2Q e' <= X)%Q /\ (X < inject_Z (q + 1) * F32.pow2Q e')%Q.
Proof.
  cbv zeta. unfold SFdiv_core_binary.
  change (fexp F32.prec F32.emax) with fexp32.
  set (d1 := Zdigits2 (Z.pos mx)). set (d2 := Zdigits2 (Z.pos my)).
  set (e' := Z.min (fexp32 (d1 + ex - (d2 + ey))) (ex - ey)).
  set (s := ex - ey - e').
  assert (Hs : 0 <= s) by (subst s e'; lia).
  set (m' := match s with Z.pos _ => Z.shiftl (Z.pos mx) s | 0 => Z.pos mx | Z.neg _ => 0 end).
  assert (Hm' : m' = Z.pos mx * 2 ^ s).
  { subst m'. destruct s as [|p|p]; [rewrite Z.pow_0_r; lia | | lia].
    apply Z.shiftl_mul_pow2. lia. }
  pose proof (Z_div_mod m' (Z.pos my) ltac:(lia)) as Hdm.
  destruct (Z.div_eucl m' (Z.pos my)) as [q r]. destruct Hdm as (Hdm & Hr).
  assert (Hp : 0 < 2 ^ s) by (apply Z.pow_pos_nonneg; lia).
  assert (Hq0 : 0 <= q) by nia.
  pose proof (Zdigits2_bounds mx) as (Hx1 & Hx2). fold d1 in Hx1, Hx2.
  pose proof (Zdigits2_bounds my) as (Hy1 & Hy2). fold d2 in Hy1, Hy2.
  assert (Hd1 : 1 <= d1) by (unfold d1; cbn [Zdigits2]; lia).
  assert (Hd2 : 1 <= d2) by (unfold d2; cbn [Zdigits2]; lia).
  split; [exact Hq0|]. split.
  - destruct (Z.le_gt_cases 0 (d1 - 1 + s - d2)) as [Hj|Hj].
    + assert (Hq : 2 ^ (d1 - 1 + s - d2) <= q).
      { set (j := d1 - 1 + s - d2) in *.
        assert (Hpj : 0 < 2 ^ j) by (apply Z.pow_pos_nonneg; lia).
        assert (E : 2 ^ (d1 - 1) * 2 ^ s = 2 ^ j * 2 ^ d2).
        { rewrite <- !Z.pow_add_r by lia. f_equal. lia. }
        assert (2 ^ j * 2 ^ d2 <= m') by (rewrite Hm', <- E; nia).
        assert (2 ^ j * (Z.pos my + 1) <= m') by nia.
        nia. }
      apply Zdigits2_ge_pow in Hq; [|exact Hj].
      unfold fexp32 in *. subst e' s. lia.
    + unfold fexp32 in *. subst e' s. lia.
  - pose proof (pow2Q_pos e') as Hpe. pose proof (pow2Q_pos ey) as Hpy.
    pose proof (inject_Z_pos_gt0 my) as Hmy.
    assert (Hden : (0 < inject_Z (Z.pos my) * F32.pow2Q ey)%Q)
      by (apply Qmult_lt_0_compat; assumption).
    assert (Eex : (F32.pow2Q ex == F32.pow2Q e' * F32.pow2Q ey * inject_Z (2 ^ s))%Q).
    { replace ex with (e' + ey + s) at 1 by (subst s; lia).
      rewrite !pow2Q_add, (pow2Q_Z s Hs). reflexivity. }
    assert (Enum : (inject_Z (Z.pos mx) * F32.pow2Q ex
                    == inject_Z m' * (F32.pow2Q e' * F32.pow2Q ey))%Q).
    { rewrite Eex, Hm', inject_Z_mult. ring. }
    assert (Hpp : (0 < F32.pow2Q e' * F32.pow2Q ey)%Q)
      by (apply Qmult_lt_0_compat; assumption).
    split.
    + apply Qle_shift_div_l; [exact Hden|]. rewrite Enum.
      assert (EL : (inject_Z q * F32.pow2Q e' * (inject_Z (Z.pos my) * F32.pow2Q ey)
                    == inject_Z (q * Z.pos my) * (F32.pow2Q e' * F32.pow2Q ey))%Q)
        by (rewrite inject_Z_mult; ring).
      rewrite EL. apply Qmult_le_r; [exact Hpp|]. rewrite <- Zle_Qle. nia.
    + apply Qlt_shift_div_r; [exact Hden|]. rewrite Enum.
      assert (EL : (inject_Z (q + 1) * F32.pow2Q e' * (inject_Z (Z.pos my) * F32.pow2Q ey)
                    == inject_Z ((q + 1) * Z.pos my) * (F32.pow2Q e' * F32.pow2Q ey))%Q)
        by (rewrite inject_Z_mult; ring).
      rewrite EL. apply Qmult_lt_r; [exact Hpp|]. rewrite <- Zlt_Qlt. nia.
Qed.

Lemma div_rounds x sy my ey :
  is_real x = true ->
  (magQ x / magQ (S754_finite sy my ey) < F32.pow2Q 104)%Q ->
  rounds_to (F32.div x (S754_finite sy my ey))
            (F32.to_Q x / F32.to_Q (S754_finite sy my ey)).
Proof.
  intros Hx Hov.
  destruct x as [sx|sx| |sx mx ex]; try discriminate.
  { apply rounds_to_zero. cbn [F32.to_Q]. unfold Qdiv. ring. }
  unfold F32.div, SFdiv.
  pose proof (div_core_spec mx ex my ey) as H. cbv zeta in H.
  destruct (SFdiv_core_binary F32.prec F32.emax (Z.pos mx) ex (Z.pos my) ey) as [[q e'] l].
  destruct H as (Hq & Hf & Hlo & Hhi).
  pose proof (magQ_finite_pos sy my ey) as Hy. pose proof (magQ_finite_pos sx mx ex) as Hx'.
  apply approx_rounds_to with (s := xorb sx sy)
         (X := (magQ (S754_finite sx mx ex) / magQ (S754_finite sy my ey))%Q).
  - apply round_aux_approx; [exact Hq|]. right. cbn [magQ]. auto.
  - apply Qlt_shift_div_l; [exact Hy|]. lra.
  - exact Hov.
  - cbn [F32.to_Q magQ] in *.
    assert (Hne : ~ (inject_Z (Z.pos my) * F32.pow2Q ey == 0)%Q) by lra.
    pose proof (pow2Q_pos ey) as Hpy. pose proof (inject_Z_pos_gt0 my) as Hmy.
    destruct sx, sy; cbn [xorb]; field; split; lra.
Qed.

(** *** Addition and subtraction *)

Lemma iter_xO_pow m d : Z.pos (Pos.iter xO m d) = Z.pos m * 2 ^ Z.pos d.
Proof.
  induction d as [|d IH] using Pos.peano_ind.
  - simpl. lia.
  - rewrite Pos.iter_succ, Pos2Z.inj_xO, IH, Pos2Z.inj_succ, Z.pow_succ_r by lia. lia.
Qed.

Lemma shl_align_spec mx ex ex' :
  ex' <= ex ->
  Z.pos (fst (shl_align mx ex ex')) = Z.pos mx * 2 ^ (ex - ex') /\
  snd (shl_align mx ex ex') = ex'.
Proof.
  intros H. unfold shl_align. destruct (ex' - ex) as [|d|d] eqn:E; cbn [fst snd].
  - replace (ex - ex') with 0 by lia. rewrite Z.pow_0_r. lia.
  - lia.
  - rewrite iter_xO_pow. replace (ex - ex') with (Z.pos d) by lia. auto.
Qed.

Lemma binary_round_approx s p e :
  approx (binary_round F32.prec F32.emax s p e) s (inject_Z (Z.pos p) * F32.pow2Q e).
Proof.
  unfold binary_round.
  change (fexp F32.prec F32.emax) with fexp32.
  set (t := fexp32 (Z.pos (digits2_pos p) + e)).
  destruct (Z.le_gt_cases t e) as [Hle|Hgt].
  - destruct (shl_align_spec p e t Hle) as (H1 & H2).
    destruct (shl_align p e t) as [mz ez]. cbn [fst snd] in H1, H2. subst ez.
    apply round_aux_approx; [lia|]. left. split; [reflexivity|].
    assert (E : (F32.pow2Q e == F32.pow2Q t * inject_Z (2 ^ (e - t)))%Q).
    { replace e with (t + (e - t)) at 1 by lia.
      rewrite pow2Q_add, (pow2Q_Z (e - t)) by lia. reflexivity. }
    rewrite H1, inject_Z_mult, E. ring.
  - unfold shl_align. destruct (t - e) as [|d|d] eqn:E; try lia.
    apply round_aux_approx; [lia|]. left. split; reflexivity.
Qed.

Lemma binary_normalize_rounds m e D :
  (D == inject_Z m * F32.pow2Q e)%Q ->
  (- F32.pow2Q 104 < D)%Q -> (D < F32.pow2Q 104)%Q ->
  rounds_to (binary_normalize F32.prec F32.emax m e false) D.
Proof.
  intros HD Hlo Hhi. unfold binary_normalize. destruct m as [|p|p].
  - apply rounds_to_zero. rewrite HD. change (inject_Z 0) with 0%Q. ring.
  - pose proof (inject_Z_pos_gt0 p). pose proof (pow2Q_pos e).
    assert (0 < inject_Z (Z.pos p) * F32.pow2Q e)%Q by (apply Qmult_lt_0_compat; assumption).
    apply approx_rounds_to with (s := false) (X := (inject_Z (Z.pos p) * F32.pow2Q e)%Q).
    + apply binary_round_approx.
    + assumption.
    + lra.
    + exact HD.
  - pose proof (inject_Z_pos_gt0 p). pose proof (pow2Q_pos e).
    assert (0 < inject_Z (Z.pos p) * F32.pow2Q e)%Q by (apply Qmult_lt_0_compat; assumption).
    assert (E : (inject_Z (Z.neg p) == - inject_Z (Z.pos p))%Q)
      by (rewrite <- inject_Z_opp; reflexivity).
    rewrite E in HD.
    apply approx_rounds_to with (s := true) (X := (inject_Z (Z.pos p) * F32.pow2Q e)%Q).
    + apply binary_round_approx.
    + assumption.
    + lra.
    + rewrite HD. ring.
Qed.

Lemma cond_Zopp_Q s m : (inject_Z (cond_Zopp s m) == if s then - inject_Z m else inject_Z m)%Q.
Proof. destruct s; simpl; [rewrite inject_Z_opp|]; reflexivity. Qed.

Lemma aligned_value s m e ez :
  ez <= e ->
  (inject_Z (cond_Zopp s (Z.pos (fst (shl_align m e ez)))) * F32.pow2Q ez
   == F32.to_Q (S754_finite s m e))%Q.
Proof.
  intros H. destruct (shl_align_spec m e ez H) as (H1 & _).
  assert (E : (F32.pow2Q e == F32.pow2Q ez * inject_Z (2 ^ (e - ez)))%Q).
  { replace e with (ez + (e - ez)) at 1 by lia.
    rewrite pow2Q_add, (pow2Q_Z (e - ez)) by lia. reflexivity. }
  rewrite cond_Zopp_Q, H1, inject_Z_mult. cbn [F32.to_Q]. rewrite E.
  destruct s; ring.
Qed.

Lemma sub_rounds x y :
  is_real x = true -> is_real y = true ->
  (- F32.pow2Q 104 < F32.to_Q x - F32.to_Q y)%Q ->
  (F32.to_Q x - F32.to_Q y < F32.pow2Q 104)%Q ->
  rounds_to (F32.sub x y) (F32.to_Q x - F32.to_Q y).
Proof.
  intros Hx Hy Hlo Hhi.
  destruct x as [sx|sx| |sx mx ex]; try discriminate;
    destruct y as [sy|sy| |sy my ey]; try discriminate.
  - unfold F32.sub, SFsub. destruct sx, sy; apply rounds_to_zero; cbn [F32.to_Q]; ring.
  - unfold F32.sub, SFsub. apply rounds_to_exact; [reflexivity|].
    cbn [F32.to_Q]. destruct sy; cbn [negb]; ring.
  - unfold F32.sub, SFsub. apply rounds_to_exact; [reflexivity|].
    cbn [F32.to_Q]. ring.
  - unfold F32.sub, SFsub. apply binary_normalize_rounds; try assumption.
    rewrite <- Z.add_opp_r, inject_Z_plus, inject_Z_opp.
    rewrite <- !(aligned_value _ _ _ (Z.min ex ey)) by lia.
    ring.
Qed.

(** *** Conversion to an integer *)

Lemma pow2Q_inv e : (F32.pow2Q e * F32.pow2Q (- e) == 1)%Q.
Proof. rewrite <- pow2Q_add. replace (e + - e) with 0 by lia. reflexivity. Qed.

Lemma round_half_away_mag_spec m e :
  let r := F32.round_half_away_mag m e in
  let V := (inject_Z (Z.pos m) * F32.pow2Q e)%Q in
  0 <= r /\ (inject_Z r - (1 # 2) <= V)%Q /\ (V <= inject_Z r + (1 # 2))%Q.
Proof.
  cbv zeta. unfold F32.round_half_away_mag, F32.two_p.
  destruct (Z.leb_spec 0 e) as [He|He].
  - assert (0 < 2 ^ e) by (apply Z.pow_pos_nonneg; lia).
    split; [lia|]. rewrite inject_Z_mult, (pow2Q_Z e He). split; lra.
  - set (d := 2 ^ (- e)).
    assert (Hd : 0 < d) by (apply Z.pow_pos_nonneg; lia).
    pose proof (Z.div_mod (2 * Z.pos m + d) (2 * d) ltac:(lia)) as Hdm.
    pose proof (Z.mod_pos_bound (2 * Z.pos m + d) (2 * d) ltac:(lia)) as Hmod.
    set (r := (2 * Z.pos m + d) / (2 * d)) in *.
    assert (Hr0 : 0 <= r) by (apply Z.div_pos; lia).
    split; [exact Hr0|].
    assert (HD : (0 < inject_Z d)%Q) by (change 0%Q with (inject_Z 0); rewrite <- Zlt_Qlt; lia).
    assert (HV : (inject_Z (Z.pos m) * F32.pow2Q e * inject_Z d == inject_Z (Z.pos m))%Q).
    { unfold d. rewrite <- (pow2Q_Z (- e)) by lia.
      rewrite <- Qmult_assoc, pow2Q_inv. ring. }
    assert (H1 : (2 * (inject_Z d * inject_Z r) <= 2 * inject_Z (Z.pos m) + inject_Z d)%Q).
    { change 2%Q with (inject_Z 2).
      rewrite <- !inject_Z_mult, <- inject_Z_plus, <- Zle_Qle. lia. }
    assert (H2 : (2 * inject_Z (Z.pos m) + inject_Z d
                  <= 2 * (inject_Z d * inject_Z r) + 2 * inject_Z d)%Q).
    { change 2%Q with (inject_Z 2).
      rewrite <- !inject_Z_mult, <- !inject_Z_plus, <- Zle_Qle. lia. }
    split.
    + apply (Qmult_le_r _ _ (2 * inject_Z d)); [lra|]. lra.
    + apply (Qmult_le_r _ _ (2 * inject_Z d)); [lra|]. lra.
Qed.

Lemma roundf_to_int_spec x :
  is_real x = true ->
  (- (2147483647 # 1) <= F32.to_Q x)%Q -> (F32.to_Q x <= 2147483647 # 1)%Q ->
  let r := F32.roundf_to_int x in
  (inject_Z r - (1 # 2) <= F32.to_Q x)%Q /\ (F32.to_Q x <= inject_Z r + (1 # 2))%Q /\
  ((F32.to_Q x <= 0)%Q -> r <= 0) /\ ((0 <= F32.to_Q x)%Q -> 0 <= r).
Proof.
  intros Hx Hlo Hhi. cbv zeta.
  destruct x as [s|s| |s m e]; try discriminate.
  - unfold F32.roundf_to_int. cbn [F32.to_Q]. change (inject_Z 0) with 0%Q.
    repeat split; try lra; lia.
  - unfold F32.roundf_to_int. cbn [F32.to_Q] in *.
    pose proof (round_half_away_mag_spec m e) as (H0 & H1 & H2). cbv zeta in H0, H1, H2.
    set (rm := F32.round_half_away_mag m e) in *.
    assert (HV : (0 < inject_Z (Z.pos m) * F32.pow2Q e)%Q)
      by (apply Qmult_lt_0_compat; [apply inject_Z_pos_gt0 | apply pow2Q_pos]).
    assert (Hrm : rm <= 2147483647).
    { destruct (Z.le_gt_cases rm 2147483647) as [|Hgt]; [assumption|]. exfalso.
      assert (H3 : (inject_Z 2147483648 <= inject_Z rm)%Q) by (rewrite <- Zle_Qle; lia).
      change (inject_Z 2147483648) with (2147483648 # 1)%Q in H3.
      destruct s; lra. }
    destruct s.
    + assert (E : F32.sat_int (- rm) = - rm)
        by (unfold F32.sat_int, F32.INT_MIN, F32.INT_MAX; lia).
      rewrite E, inject_Z_opp. repeat split; try lra; try lia.
    + assert (E : F32.sat_int rm = rm)
        by (unfold F32.sat_int, F32.INT_MIN, F32.INT_MAX; lia).
      rewrite E. repeat split; try lra; try lia.
Qed.

(** *** Order of valid floats *)

Lemma valid_canonical s m e :
  F32.valid (S754_finite s m e) = true ->
  fexp32 (Zdigits2 (Z.pos m) + e) = e /\ e <= 104.
Proof.
  unfold F32.valid, valid_binary, bounded, canonical_mantissa.
  change (fexp F32.prec F32.emax) with fexp32. change (F32.emax - F32.prec) with 104.
  intros H. apply andb_prop in H as (H1 & H2).
  apply Z.eqb_eq in H1. apply Z.leb_le in H2. auto.
Qed.

Lemma canonical_mag m e :
  fexp32 (Zdigits2 (Z.pos m) + e) = e ->
  -149 <= e /\
  (inject_Z (Z.pos m) * F32.pow2Q e < F32.pow2Q (e + 24))%Q /\
  (-149 < e -> (F32.pow2Q (e + 23) <= inject_Z (Z.pos m) * F32.pow2Q e)%Q).
Proof.
  intros H. pose proof (Zdigits2_bounds m) as (Hlo & Hhi).
  set (d := Zdigits2 (Z.pos m)) in *. unfold fexp32 in H.
  assert (Hd : 1 <= d) by (unfold d; cbn [Zdigits2]; lia).
  pose proof (pow2Q_pos e) as Hp.
  split; [lia|]. split.
  - rewrite Z.add_comm, pow2Q_add, (pow2Q_Z 24) by lia.
    apply Qmult_lt_r; [exact Hp|]. rewrite <- Zlt_Qlt.
    eapply Z.lt_le_trans; [exact Hhi|]. apply Z.pow_le_mono_r; lia.
  - intros He. rewrite Z.add_comm, pow2Q_add, (pow2Q_Z 23) by lia.
    apply Qmult_le_r; [exact Hp|]. rewrite <- Zle_Qle.
    eapply Z.le_trans; [|exact Hlo]. apply Z.pow_le_mono_r; lia.
Qed.

Lemma canonical_mag_lt m1 e1 m2 e2 :
  fexp32 (Zdigits2 (Z.pos m1) + e1) = e1 ->
  fexp32 (Zdigits2 (Z.pos m2) + e2) = e2 ->
  e1 < e2 ->
  (inject_Z (Z.pos m1) * F32.pow2Q e1 < inject_Z (Z.pos m2) * F32.pow2Q e2)%Q.
Proof.
  intros H1 H2 He.
  destruct (canonical_mag m1 e1 H1) as (A1 & A2 & _).
  destruct (canonical_mag m2 e2 H2) as (_ & _ & B3).
  specialize (B3 ltac:(lia)).
  assert (F32.pow2Q (e1 + 24) <= F32.pow2Q (e2 + 23))%Q by (apply pow2Q_le; lia).
  lra.
Qed.

Lemma mag_le_same_exp m1 m2 e :
  (m1 <= m2)%positive ->
  (inject_Z (Z.pos m1) * F32.pow2Q e <= inject_Z (Z.pos m2) * F32.pow2Q e)%Q.
Proof.
  intros H. apply Qmult_le_r; [apply pow2Q_pos|]. rewrite <- Zle_Qle.
  apply Pos2Z.pos_le_pos. exact H.
Qed.

Lemma leb_to_Q x y :
  F32.valid x = true -> F32.valid y = true ->
  is_real x = true -> is_real y = true ->
  F32.leb x y = true -> (F32.to_Q x <= F32.to_Q y)%Q.
Proof.
  intros Vx Vy Rx Ry H.
  destruct x as [sx|sx| |sx mx ex]; try discriminate;
    destruct y as [sy|sy| |sy my ey]; try discriminate;
    unfold F32.leb, SFleb, SFcompare in H; cbn [F32.to_Q].
  - destruct sy; [discriminate|].
    pose proof (magQ_finite_pos false my ey) as K. cbn [magQ] in K. lra.
  - destruct sx; [|discriminate].
    pose proof (magQ_finite_pos false mx ex) as K. cbn [magQ] in K. lra.
  - destruct (valid_canonical _ _ _ Vx) as (Cx & _).
    destruct (valid_canonical _ _ _ Vy) as (Cy & _).
    pose proof (magQ_finite_pos false mx ex) as Kx. cbn [magQ] in Kx.
    pose proof (magQ_finite_pos false my ey) as Ky. cbn [magQ] in Ky.
    destruct sx, sy; try discriminate.
    + destruct (Z.compare_spec ex ey) as [E|L|G]; try discriminate.
      * subst ey. rewrite Pos.compare_cont_spec in H. cbn [Pos.switch_Eq] in H.
        destruct (Pos.compare_spec mx my) as [E|L|G]; try discriminate.
        -- subst. lra.
        -- pose proof (mag_le_same_exp my mx ex (Pos.lt_le_incl _ _ G)). lra.
      * pose proof (canonical_mag_lt my ey mx ex Cy Cx G). lra.
    + lra.
    + destruct (Z.compare_spec ex ey) as [E|L|G]; try discriminate.
      * subst ey. rewrite Pos.compare_cont_spec in H. cbn [Pos.switch_Eq] in H.
        destruct (Pos.compare_spec mx my) as [E|L|G]; try discriminate.
        -- subst. lra.
        -- pose proof (mag_le_same_exp mx my ex (Pos.lt_le_incl _ _ L)). lra.
      * pose proof (canonical_mag_lt mx ex my ey Cx Cy L). lra.
Qed.

Lemma leb_real_l x y : F32.leb x y = true -> is_real y = true -> sign_of y = false ->
  x <> S754_infinity true -> is_real x = true.
Proof.
  intros H Ry Sy Hx. destruct x as [sx|sx| |sx mx ex]; try reflexivity.
  - destruct sx; [congruence|].
    destruct y as [sy|sy| |sy my ey]; try discriminate; cbn in Sy; subst; discriminate.
  - destruct y; discriminate.
Qed.

(** *** Operations in a moderate range *)

Lemma rounds_to_ext r D D' : (D == D')%Q -> rounds_to r D -> rounds_to r D'.
Proof.
  unfold rounds_to, rel_err. intros E (H1 & H2 & H3). split; [exact H1|]. split; intros H.
  - destruct H2 as (A & B & C); [lra|]. repeat split; lra.
  - destruct H3 as (A & B & C); [lra|]. repeat split; lra.
Qed.

Lemma magQ_le_bound x B :
  (- B <= F32.to_Q x)%Q -> (F32.to_Q x <= B)%Q -> (magQ x <= B)%Q.
Proof.
  intros H1 H2. pose proof (to_Q_mag x) as E. pose proof (magQ_nonneg x).
  destruct (sign_of x); lra.
Qed.

Lemma pow2Q_104_big : (1267650600228229401496703205376 # 1 <= F32.pow2Q 104)%Q.
Proof. vm_compute. discriminate. Qed.

Lemma abs_err_small : (abs_err <= 1 # 1099511627776)%Q.
Proof. vm_compute. discriminate. Qed.

Lemma mul_rounds_moderate x k K :
  is_real x = true -> is_real k = true ->
  (F32.to_Q k == K)%Q -> (- (1024 # 1) <= K)%Q -> (K <= 1024 # 1)%Q ->
  (- (1099511627776 # 1) <= F32.to_Q x)%Q -> (F32.to_Q x <= 1099511627776 # 1)%Q ->
  rounds_to (F32.mul x k) (F32.to_Q x * K).
Proof.
  intros Hx Hk EK K1 K2 X1 X2.
  apply rounds_to_ext with (D := (F32.to_Q x * F32.to_Q k)%Q); [rewrite EK; reflexivity|].
  apply mul_rounds; try assumption.
  pose proof (magQ_le_bound x _ X1 X2) as Mx.
  assert (Mk : (magQ k <= 1024 # 1)%Q) by (apply magQ_le_bound; rewrite EK; assumption).
  pose proof (magQ_nonneg x). pose proof (magQ_nonneg k). pose proof pow2Q_104_big.
  assert (magQ x * magQ k <= (1099511627776 # 1) * (1024 # 1))%Q
    by (apply Qmult_le_compat_nonneg; split; assumption).
  eapply Qle_lt_trans; [eassumption|]. eapply Qlt_le_trans; [|eassumption]. reflexivity.
Qed.

Lemma div_rounds_moderate x sk mk ek K :
  is_real x = true ->
  (F32.to_Q (S754_finite sk mk ek) == K)%Q ->
  (K <= - (1 # 1024) \/ 1 # 1024 <= K)%Q ->
  (- (1099511627776 # 1) <= F32.to_Q x)%Q -> (F32.to_Q x <= 1099511627776 # 1)%Q ->
  rounds_to (F32.div x (S754_finite sk mk ek)) (F32.to_Q x * / K).
Proof.
  intros Hx EK HK X1 X2.
  apply rounds_to_ext with (D := (F32.to_Q x / F32.to_Q (S754_finite sk mk ek))%Q);
    [unfold Qdiv; rewrite EK; reflexivity|].
  apply div_rounds; [exact Hx|].
  pose proof (magQ_le_bound x _ X1 X2) as Mx.
  pose proof (magQ_finite_pos sk mk ek) as Pk.
  assert (Mk : (1 # 1024 <= magQ (S754_finite sk mk ek))%Q).
  { pose proof (to_Q_mag (S754_finite sk mk ek)) as E. rewrite EK in E.
    cbn [sign_of] in E. destruct sk; destruct HK; lra. }
  pose proof (magQ_nonneg x). pose proof pow2Q_104_big.
  apply Qlt_shift_div_r; [exact Pk|].
  assert ((2199023255552 # 1) * (1024 # 1) * (1 # 1024)
          <= F32.pow2Q 104 * magQ (S754_finite sk mk ek))%Q.
  { apply Qmult_le_compat_nonneg; split; try assumption; try discriminate. }
  assert ((2199023255552 # 1) * (1024 # 1) * (1 # 1024) == 2199023255552 # 1)%Q by reflexivity.
  lra.
Qed.

Lemma sub_rounds_moderate x y Y :
  is_real x = true -> is_real y = true ->
  (F32.to_Q y == Y)%Q -> (- (1024 # 1) <= Y)%Q -> (Y <= 1024 # 1)%Q ->
  (- (1099511627776 # 1) <= F32.to_Q x)%Q -> (F32.to_Q x <= 1099511627776 # 1)%Q ->
  rounds_to (F32.sub x y) (F32.to_Q x - Y).
Proof.
  intros Hx Hy EY Y1 Y2 X1 X2.
  apply rounds_to_ext with (D := (F32.to_Q x - F32.to_Q y)%Q); [rewrite EY; reflexivity|].
  pose proof pow2Q_104_big.
  apply sub_rounds; try assumption; rewrite EY; lra.
Qed.

(** ** Quantiser *)

Lemma to_Q_half : (F32.to_Q F32.c_0_5 == 1 # 2)%Q.
Proof. vm_compute. reflexivity. Qed.

Lemma to_Q_one : (F32.to_Q F32.c_1 == 1)%Q.
Proof. vm_compute. reflexivity. Qed.

Lemma to_Q_two : (F32.to_Q F32.c_2 == 2)%Q.
Proof. vm_compute. reflexivity. Qed.

Lemma to_Q_scale : (F32.to_Q F32.c_scale == 8421505 # 2147483648)%Q.
Proof. vm_compute. reflexivity. Qed.

Lemma between_is_real v lo hi :
  F32.leb lo v = true -> F32.leb v hi = true ->
  is_real lo = true -> is_real hi = true -> is_real v = true.
Proof.
  intros H1 H2 Rl Rh. destruct v as [s|s| |s m e]; try reflexivity.
  - destruct s.
    + destruct lo; try discriminate.
    + destruct hi; try discriminate.
  - destruct lo; discriminate.
Qed.

(** The value that reaches the rounding step, for a feature in [0, 1]. *)
Lemma quantize_chain v :
  is_real v = true ->
  (0 <= F32.to_Q v)%Q -> (F32.to_Q v <= 1)%Q ->
  let V := F32.to_Q v in
  let c := centered_value v in
  let x := F32.div c F32.c_scale in
  rounds_to (F32.sub v F32.c_0_5) (V - (1 # 2)) /\
  rounds_to c (F32.to_Q (F32.sub v F32.c_0_5) * 2) /\
  rounds_to x (F32.to_Q c * (2147483648 # 8421505)) /\
  (- (2 # 1) <= F32.to_Q c)%Q /\ (F32.to_Q c <= 2 # 1)%Q.
Proof.
  intros Rv L0 L1. cbv zeta.
  pose proof abs_err_small as Ht. pose proof abs_err_pos as Ht0.
  assert (R1 : rounds_to (F32.sub v F32.c_0_5) (F32.to_Q v - (1 # 2))).
  { apply sub_rounds_moderate; try reflexivity; try assumption; try lra; apply to_Q_half. }
  pose proof R1 as (Q1 & P1 & N1). unfold rel_err in P1, N1.
  assert (B1 : (- (1 # 1) <= F32.to_Q (F32.sub v F32.c_0_5))%Q /\
               (F32.to_Q (F32.sub v F32.c_0_5) <= 1 # 1)%Q).
  { destruct (Qlt_le_dec (F32.to_Q v - (1 # 2)) 0) as [Hn|Hp].
    - destruct N1 as (A & B & C); [lra|]. split; lra.
    - destruct P1 as (A & B & C); [lra|]. split; lra. }
  assert (R2 : rounds_to (centered_value v) (F32.to_Q (F32.sub v F32.c_0_5) * 2)).
  { unfold centered_value. apply mul_rounds_moderate; try reflexivity; try assumption;
      try lra; try apply to_Q_two; try discriminate. }
  pose proof R2 as (Q2 & P2 & N2). unfold rel_err in P2, N2.
  assert (B2 : (- (2 # 1) <= F32.to_Q (centered_value v))%Q /\
               (F32.to_Q (centered_value v) <= 2 # 1)%Q).
  { destruct (Qlt_le_dec (F32.to_Q (F32.sub v F32.c_0_5) * 2) 0) as [Hn|Hp].
    - destruct N2 as (A & B & C); [lra|].
      destruct (Qlt_le_dec (F32.to_Q v - (1 # 2)) 0) as [Hn'|Hp'].
      + destruct N1 as (A' & B' & C'); [lra|]. split; lra.
      + destruct P1 as (A' & B' & C'); [lra|]. split; lra.
    - destruct P2 as (A & B & C); [lra|].
      destruct (Qlt_le_dec (F32.to_Q v - (1 # 2)) 0) as [Hn'|Hp'].
      + destruct N1 as (A' & B' & C'); [lra|]. split; lra.
      + destruct P1 as (A' & B' & C'); [lra|]. split; lra. }
  assert (R3 : rounds_to (F32.div (centered_value v) F32.c_scale)
                 (F32.to_Q (centered_value v) * (2147483648 # 8421505))).
  { apply rounds_to_ext
      with (D := (F32.to_Q (centered_value v) * / (8421505 # 2147483648))%Q);
      [reflexivity|].
    unfold F32.c_scale. apply div_rounds_moderate; try assumption; try lra.
    all: try apply to_Q_scale. all: try (right; discriminate). }
  repeat split; try assumption; try apply R1; try apply R2; try apply R3; try lra;
    try apply B2.
Qed.

Lemma clamp_int8_range q : -128 <= clamp_int8 q <= 127.
Proof.
  unfold clamp_int8.
  destruct (Z.ltb_spec q (-128)); [simpl; lia|].
  destruct (Z.gtb_spec q 127); lia.
Qed.

Lemma wrap_s8_small z : -128 <= z <= 127 -> wrap_s8 z = z.
Proof. intros H. unfold wrap_s8. rewrite Z.mod_small by lia. lia. Qed.

Lemma Qle_inject_lower (r : Z) (b : Z) (x : Q) :
  (x <= inject_Z r + (1 # 2))%Q -> (inject_Z b - (1 # 2) < x)%Q -> b <= r.
Proof.
  intros H1 H2. assert (H : (inject_Z b < inject_Z r + 1)%Q) by lra.
  change 1%Q with (inject_Z 1) in H. rewrite <- inject_Z_plus, <- Zlt_Qlt in H. lia.
Qed.

Lemma Qle_inject_upper (r : Z) (b : Z) (x : Q) :
  (inject_Z r - (1 # 2) <= x)%Q -> (x < inject_Z b + (1 # 2))%Q -> r <= b.
Proof.
  intros H1 H2. assert (H : (inject_Z r < inject_Z b + 1)%Q) by lra.
  change 1%Q with (inject_Z 1) in H. rewrite <- inject_Z_plus, <- Zlt_Qlt in H. lia.
Qed.

(** Lower half of the feature range: the integer computed before the clamps
    is -128 or below. *)
Lemma quantize_lower_half (v : F32.float32) :
  F32.valid v = true ->
  F32.leb F32.zero v = true -> F32.leb v F32.c_0_5 = true ->
  quantize_raw v <= -128 /\ quantize_value v = -128.
Proof.
  intros Vv H0 H1.
  assert (Rv : is_real v = true) by (eapply between_is_real; eauto).
  pose proof (leb_to_Q F32.zero v eq_refl Vv eq_refl Rv H0) as L0.
  pose proof (leb_to_Q v F32.c_0_5 Vv eq_refl Rv eq_refl H1) as L1.
  rewrite to_Q_half in L1. change (F32.to_Q F32.zero) with 0%Q in L0.
  pose proof (quantize_chain v Rv L0 ltac:(lra)) as K. cbv zeta in K.
  destruct K as (R1 & R2 & R3 & B2l & B2u).
  pose proof abs_err_small as Ht. pose proof abs_err_pos as Ht0.
  destruct R1 as (_ & _ & N1). destruct N1 as (A1 & B1 & C1); [lra|].
  destruct R2 as (_ & _ & N2). destruct N2 as (A2 & B2 & C2); [lra|].
  destruct R3 as (Q3 & _ & N3). destruct N3 as (A3 & B3 & C3); [lra|].
  unfold rel_err in *.
  set (x := F32.div (centered_value v) F32.c_scale) in *.
  assert (Xlo : (- (600 # 1) <= F32.to_Q x)%Q) by lra.
  pose proof (roundf_to_int_spec x Q3 ltac:(lra) ltac:(lra)) as S. cbv zeta in S.
  destruct S as (S1 & S2 & S3 & _).
  assert (Hr0 : F32.roundf_to_int x <= 0) by (apply S3; exact A3).
  assert (Hr1 : -601 <= F32.roundf_to_int x).
  { apply (Qle_inject_lower _ _ (F32.to_Q x)); [exact S2|].
    change (inject_Z (-601)) with (- (601 # 1))%Q. lra. }
  assert (Hraw : quantize_raw v = F32.roundf_to_int x + -128).
  { unfold quantize_raw, zero_point. fold x. apply wrap_s32_small. lia. }
  split; [lia|].
  unfold quantize_value, clamp_int8. rewrite Hraw.
  destruct (Z.ltb_spec (F32.roundf_to_int x + -128) (-128)) as [Hlt|Hge].
  - reflexivity.
  - replace (F32.roundf_to_int x + -128) with (-128) by lia. reflexivity.
Qed.

(** Upper half of the feature range: no clamp applies, and the inverse affine
    map brings the quantised value back to the re-centred value. *)
Lemma quantize_upper_half (v : F32.float32) :
  F32.valid v = true ->
  F32.leb F32.c_0_5 v = true -> F32.leb v F32.c_1 = true ->
  -128 <= quantize_value v <= 127 /\
  quantize_value v =
    F32.roundf_to_int (F32.div (centered_value v) F32.c_scale) + zero_point /\
  (Qabs (dequantize_Q (quantize_value v) - (F32.to_Q v - (1 # 2)) * 2) <= step_Q)%Q.
Proof.
  intros Vv H0 H1.
  assert (Rv : is_real v = true) by (eapply between_is_real; eauto).
  pose proof (leb_to_Q F32.c_0_5 v eq_refl Vv eq_refl Rv H0) as L0.
  pose proof (leb_to_Q v F32.c_1 Vv eq_refl Rv eq_refl H1) as L1.
  rewrite to_Q_half in L0. rewrite to_Q_one in L1.
  pose proof (quantize_chain v Rv ltac:(lra) L1) as K. cbv zeta in K.
  destruct K as (R1 & R2 & R3 & B2l & B2u).
  pose proof abs_err_small as Ht. pose proof abs_err_pos as Ht0.
  destruct R1 as (_ & P1 & _). destruct P1 as (A1 & B1 & C1); [lra|].
  destruct R2 as (_ & P2 & _). destruct P2 as (A2 & B2 & C2); [lra|].
  destruct R3 as (Q3 & P3 & _). destruct P3 as (A3 & B3 & C3); [lra|].
  unfold rel_err in *.
  set (x := F32.div (centered_value v) F32.c_scale) in *.
  pose proof (roundf_to_int_spec x Q3 ltac:(lra) ltac:(lra)) as S. cbv zeta in S.
  destruct S as (S1 & S2 & _ & S4).
  assert (Hr0 : 0 <= F32.roundf_to_int x) by (apply S4; exact A3).
  assert (Hr1 : F32.roundf_to_int x <= 255).
  { apply (Qle_inject_upper _ _ (F32.to_Q x)); [exact S1|].
    change (inject_Z 255) with (255 # 1)%Q. lra. }
  assert (Hraw : quantize_raw v = F32.roundf_to_int x + -128).
  { unfold quantize_raw, zero_point. fold x. apply wrap_s32_small. lia. }
  assert (Hq : quantize_value v = F32.roundf_to_int x + zero_point).
  { unfold quantize_value, clamp_int8. rewrite Hraw. unfold zero_point.
    destruct (Z.ltb_spec (F32.roundf_to_int x + -128) (-128)); [lia|].
    destruct (Z.gtb_spec (F32.roundf_to_int x + -128) 127); [lia|].
    apply wrap_s8_small. lia. }
  split; [rewrite Hq; unfold zero_point; lia|]. split; [exact Hq|].
  unfold dequantize_Q, step_Q. rewrite Hq.
  replace (F32.roundf_to_int x + zero_point - zero_point) with (F32.roundf_to_int x) by lia.
  rewrite to_Q_scale. apply Qabs_Qle_condition. split; lra.
Qed.

(** The order of binary32 is total on numbers. *)
Lemma leb_total x y :
  is_real x = true -> is_real y = true -> F32.leb x y = false -> F32.leb y x = true.
Proof.
  intros Rx Ry H.
  destruct x as [sx|sx| |sx mx ex]; try discriminate;
    destruct y as [sy|sy| |sy my ey]; try discriminate;
    unfold F32.leb, SFleb, SFcompare in *;
    destruct sx, sy; try discriminate; try reflexivity;
    change (Pos.compare_cont Eq my mx) with (Pos.compare my mx);
    change (Pos.compare_cont Eq mx my) with (Pos.compare mx my) in H;
    rewrite (Z.compare_antisym ex ey), (Pos.compare_antisym mx my);
    destruct (ex ?= ey); simpl in *; try discriminate; try reflexivity;
    destruct (mx ?= my)%positive; simpl in *; try discriminate; reflexivity.
Qed.

(** C10: every feature value in [0, 0.5] is quantised to -128: the integer
    computed before the clamps is -128 or below, so the lower half of the
    feature range collapses to the single value -128. *)
Theorem C10_lower_half_collapses (v : F32.float32) :
  F32.valid v = true ->
  F32.leb F32.zero v = true -> F32.leb v F32.c_0_5 = true ->
  quantize_raw v <= -128 /\ quantize_value v = -128.
Proof. apply quantize_lower_half. Qed.

(** C4 (amended): for every feature value v in [0, 1], the quantised value
    lies in [-128, 127], and dequantising it with the inverse affine map
    (q - zero_point)·scale gives a value within one quantisation step of the
    re-centred value clamped at zero, max((v-0.5)·2, 0), not of v; above 0.5
    the quantised value is round((v-0.5)·2 / scale) + zero_point, no clamp
    applying. *)
Theorem C4_roundtrip_recentered (v : F32.float32) :
  F32.valid v = true ->
  F32.leb F32.zero v = true -> F32.leb v F32.c_1 = true ->
  -128 <= quantize_value v <= 127 /\
  (Qabs (dequantize_Q (quantize_value v) - Qmax ((F32.to_Q v - (1 # 2)) * 2) 0) <= step_Q)%Q /\
  (F32.leb F32.c_0_5 v = true ->
   quantize_value v =
     F32.roundf_to_int (F32.div (centered_value v) F32.c_scale) + zero_point).
Proof.
  intros Vv H0 H1.
  assert (Rv : is_real v = true) by (eapply between_is_real; eauto).
  destruct (F32.leb F32.c_0_5 v) eqn:Hh.
  - destruct (quantize_upper_half v Vv Hh H1) as (Hr & Hq & He).
    pose proof (leb_to_Q F32.c_0_5 v eq_refl Vv eq_refl Rv Hh) as L0.
    rewrite to_Q_half in L0.
    split; [exact Hr|]. split; [|intros _; exact Hq].
    rewrite Q.max_l by lra. exact He.
  - assert (Hl : F32.leb v F32.c_0_5 = true) by (apply leb_total; auto).
    destruct (quantize_lower_half v Vv H0 Hl) as (_ & Hq).
    pose proof (leb_to_Q v F32.c_0_5 Vv eq_refl Rv eq_refl Hl) as L1.
    rewrite to_Q_half in L1.
    split; [rewrite Hq; lia|]. split; [|discriminate].
    rewrite Hq, Q.max_r by lra.
    vm_compute. discriminate.
Qed.

(** * The claims on concrete runs *)

(** ** Notification cooldown *)

(** C1, as stated, fails on the default configuration (mail notification
    off): two passes at prob_positive 0.50 against the threshold 0.45 send no
    mail at all, 121 seconds apart or at the same instant, while each pass
    logs its detection. *)
Lemma C1_counterexample :
  let w := initial_world in
  confidence_threshold (cfg w) = F32.c_0_45 /\
  F32.gtb F32.c_0_5 (confidence_threshold (cfg w)) = true /\
  (let w2 := two_passes (env_at 1000) (env_at 1121) F32.c_0_5 F32.c_1 w in
   emails_sent (trace w2) = 0 /\ detections_logged (trace w2) = 2 /\
   emails_sent (trace w2) <> spec_events_two_passes 121) /\
  (let w2 := two_passes (env_at 1000) (env_at 1000) F32.c_0_5 F32.c_1 w in
   emails_sent (trace w2) = 0 /\ detections_logged (trace w2) = 2 /\
   emails_sent (trace w2) <> spec_events_two_passes 0).
Proof. vm_compute. repeat split; discriminate. Qed.

(** The amended C1 on a configured camera: two mails 121 seconds apart, one
    mail 119 seconds apart. *)
Lemma C1_cooldown_rate_limit_witness :
  emails_sent (trace (two_passes (env_at 1000) (env_at 1121) F32.c_0_5 F32.c_1 mail_world)) = 2 /\
  emails_sent (trace (two_passes (env_at 1000) (env_at 1119) F32.c_0_5 F32.c_1 mail_world)) = 1.
Proof.
  assert (Hu : smtp_username (cfg mail_world) <> EmptyString) by discriminate.
  assert (Hr : recipient_email (cfg mail_world) <> EmptyString) by discriminate.
  assert (Hc : EMAIL_RATE_LIMIT_SECONDS <= env_time (env_at 1000) - last_email_time mail_world)
    by discriminate.
  split.
  - exact (proj1 (proj2 (C1_cooldown_rate_limit (env_at 1000) (env_at 1121) F32.c_1 mail_world
                           eq_refl eq_refl Hu Hr eq_refl eq_refl eq_refl eq_refl Hc))
                 eq_refl).
  - exact (proj1 (C1_cooldown_rate_limit (env_at 1000) (env_at 1119) F32.c_1 mail_world
                    eq_refl eq_refl Hu Hr eq_refl eq_refl eq_refl eq_refl Hc)
                 eq_refl).
Defined.

(** ** Loudness gate *)

(** C2: 88 chunks of 1000 samples of amplitude 0.0012 on a fresh buffer reach
    the inference threshold.  The loudness of the 88000 accumulated samples is
    above the noise floor, but the pass takes the loudness over all 180800
    elements of the buffer, finds it below the floor and is skipped. *)
Theorem C2_loudness_over_whole_buffer :
  let chunk := Samples (replicate 1000 c_0_0012) in
  let step w k :=
    on_process sample_expf sample_log10f sample_powf sample_hann_cos
      sample_fftwf_execute (env_at (1000 + k)) true chunk w in
  let before := fold_left step (seqZ 0 87) ready_world in
  let after := step before 87 in
  samples_accumulated before = 87000 /\
  samples_accumulated after = 0 /\
  F32.ltb (spec_rms (audio_buffer after) INFERENCE_THRESHOLD) MIN_RMS_THRESHOLD = false /\
  F32.ltb (compute_rms (audio_buffer after) AUDIO_BUFFER_SIZE) MIN_RMS_THRESHOLD = true /\
  trace after = [LogSilence (compute_rms (audio_buffer after) AUDIO_BUFFER_SIZE)] /\
  inference_count after = 0.
Proof. vm_compute. repeat split. Qed.

(** ** Quantisation *)

(** C4, as stated, fails at v = 0.5: the quantised value is -128, which the
    inverse affine map sends to 0, half a unit away from v. *)
Lemma C4_counterexample :
  F32.leb F32.zero F32.c_0_5 = true /\ F32.leb F32.c_0_5 F32.c_1 = true /\
  quantize_value F32.c_0_5 = -128 /\
  ~ (roundtrip_error F32.c_0_5 <= step_Q)%Q.
Proof.
  repeat split; try reflexivity.
  vm_compute. intros H. apply H. reflexivity.
Qed.

(** The amended C4 at v = 1. *)
Lemma C4_roundtrip_recentered_witness :
  (Qabs (dequantize_Q (quantize_value F32.c_1) - Qmax ((F32.to_Q F32.c_1 - (1 # 2)) * 2) 0)
   <= step_Q)%Q.
Proof.
  exact (proj1 (proj2 (C4_roundtrip_recentered F32.c_1 eq_refl eq_refl eq_refl))).
Defined.

(** C10 at v = 0.25. *)
Lemma C10_lower_half_collapses_witness :
  quantize_value (S754_finite false 8388608 (-25)) = -128.
Proof.
  exact (proj2 (C10_lower_half_collapses (S754_finite false 8388608 (-25)) eq_refl eq_refl eq_refl)).
Defined.

(** ** Accumulation *)

(** C5, as stated, fails after the buffer has been filled to its capacity:
    the pass that the last chunk triggers resets the fill count, so one more
    element is accepted and written at index 0. *)
Lemma C5_counterexample :
  let step w samples :=
    on_process sample_expf sample_log10f sample_powf sample_hann_cos
      sample_fftwf_execute (env_at 1000) true (Samples samples) w in
  let w1 := step ready_world (replicate (Z.to_nat 80000) F32.zero) in
  let w2 := step w1 (replicate (Z.to_nat 100800) F32.zero) in
  let w3 := step w2 [F32.c_1] in
  samples_accumulated w1 = 80000 /\
  samples_accumulated w1 + 100800 = AUDIO_BUFFER_SIZE /\
  samples_accumulated w2 = 0 /\
  samples_accumulated w3 = 1 /\
  rd (audio_buffer w2) 0 = F32.zero /\
  rd (audio_buffer w3) 0 = F32.c_1.
Proof. vm_compute. repeat split. Qed.

(** The amended C5 on the first chunk of a run. *)
Lemma C5_accumulator_append_witness :
  buffer_inv (accumulate sample_expf sample_log10f sample_powf sample_hann_cos
                sample_fftwf_execute (env_at 1000) [F32.c_1] initial_world).
Proof.
  assert (H1 : buffer_inv initial_world) by (split; [reflexivity | split; discriminate]).
  assert (H2 : Z.of_nat (length [F32.c_1]) < 2 ^ 30) by reflexivity.
  exact (proj1 (C5_accumulator_append sample_expf sample_log10f sample_powf sample_hann_cos
                  sample_fftwf_execute (env_at 1000) [F32.c_1] initial_world H1 H2)).
Defined.

(** ** Output tensor *)

(** C7: the two output bytes are read as q * scale + (-128 * scale), that is
    (q + zero_point) * scale; the inverse affine map (q - zero_point) * scale
    gives 1 at q = 127 where the code gives about -0.0039, and the two
    readings differ in sign for every int8 value. *)
Theorem C7_output_dequantization_sign :
  dequantize_output 127 = S754_finite true 8421504 (-31) /\
  spec_dequantize_output 127 = F32.c_1 /\
  forallb (fun q => F32.ltb (dequantize_output q) F32.zero
                    && F32.leb F32.zero (spec_dequantize_output q))
          (seqZ (-128) 256) = true.
Proof. vm_compute. repeat split. Qed.

(** * The mel filter bank *)

(** Every weight i/n that a band of at most 512 bins can hold, checked by
    evaluation. *)
Lemma weights_table :
  forallb (fun n => forallb (fun i => weight_ok i n) (seqZ 0 (n + 1))) (seqZ 1 512) = true.
Proof. vm_cast_no_check (eq_refl true). Qed.

Lemma add_rounds x y :
  is_real x = true -> is_real y = true ->
  (- F32.pow2Q 104 < F32.to_Q x + F32.to_Q y)%Q ->
  (F32.to_Q x + F32.to_Q y < F32.pow2Q 104)%Q ->
  rounds_to (F32.add x y) (F32.to_Q x + F32.to_Q y).
Proof.
  intros Hx Hy Hlo Hhi.
  destruct x as [sx|sx| |sx mx ex]; try discriminate;
    destruct y as [sy|sy| |sy my ey]; try discriminate.
  - unfold F32.add, SFadd. destruct sx, sy; apply rounds_to_zero; cbn [F32.to_Q]; ring.
  - unfold F32.add, SFadd. apply rounds_to_exact; [reflexivity|].
    cbn [F32.to_Q]. ring.
  - unfold F32.add, SFadd. apply rounds_to_exact; [reflexivity|].
    cbn [F32.to_Q]. ring.
  - unfold F32.add, SFadd. apply binary_normalize_rounds; try assumption.
    rewrite inject_Z_plus.
    rewrite <- !(aligned_value _ _ _ (Z.min ex ey)) by lia.
    ring.
Qed.

Lemma sumQ_step f n : (sumQ f (S n) == sumQ f n + f (Z.of_nat n))%Q.
Proof. reflexivity. Qed.

Lemma sumQ_nonneg f n :
  (forall k, 0 <= k < Z.of_nat n -> (0 <= f k)%Q) -> (0 <= sumQ f n)%Q.
Proof.
  induction n as [|n IH]; intros H.
  - apply Qle_refl.
  - cbn [sumQ]. assert (0 <= sumQ f n)%Q by (apply IH; intros k Hk; apply H; lia).
    assert (0 <= f (Z.of_nat n))%Q by (apply H; lia). lra.
Qed.

(** Error of the sum of non-negative terms accumulated in binary32. *)
Lemma float_sum_error (t : Z -> F32.float32) (B : Q) (n : nat) :
  (forall k, 0 <= k < Z.of_nat n -> is_real (t k) = true /\ (0 <= F32.to_Q (t k))%Q) ->
  (sumQ (fun k => F32.to_Q (t k)) n <= B)%Q -> (B <= 1024 # 1)%Q -> (n <= 513)%nat ->
  let a := for_loop n 0 (fun k acc => F32.add acc (t k)) F32.zero in
  is_real a = true /\ (0 <= F32.to_Q a)%Q /\
  (Qabs (F32.to_Q a - sumQ (fun k => F32.to_Q (t k)) n)
   <= inject_Z (Z.of_nat n) * (2 * rel_err * B + 2 * abs_err))%Q.
Proof.
  cbv zeta. induction n as [|n IH]; intros Ht HB HB' Hn.
  - cbn [for_loop sumQ]. split; [reflexivity|]. split; [apply Qle_refl|].
    change (F32.to_Q F32.zero) with 0%Q. change (inject_Z (Z.of_nat 0)) with 0%Q.
    apply Qabs_Qle_condition. split; lra.
  - assert (Htn : is_real (t (Z.of_nat n)) = true /\ (0 <= F32.to_Q (t (Z.of_nat n)))%Q)
      by (apply Ht; lia).
    destruct Htn as (Rt & Tn).
    assert (HS : (0 <= sumQ (fun k => F32.to_Q (t k)) n)%Q).
    { apply sumQ_nonneg. intros k Hk. apply Ht. lia. }
    cbn [sumQ] in HB |- *.
    destruct IH as (Ra & A0 & HA); [intros k Hk; apply Ht; lia | lra | exact HB' | lia |].
    rewrite for_loop_snoc. rewrite Z.add_0_l.
    set (a := for_loop n 0 (fun k acc => F32.add acc (t k)) F32.zero) in *.
    set (S := sumQ (fun k => F32.to_Q (t k)) n) in *.
    set (T := F32.to_Q (t (Z.of_nat n))) in *.
    pose proof abs_err_small as He. pose proof abs_err_pos as He0.
    pose proof pow2Q_104_big as Hbig.
    apply Qabs_Qle_condition in HA. destruct HA as (HA1 & HA2).
    assert (HN : (inject_Z (Z.of_nat n) * (2 * rel_err * B + 2 * abs_err)
                  <= 513 * (2 * rel_err * B + 2 * abs_err))%Q).
    { apply Qmult_le_compat_r.
      - change 513%Q with (inject_Z 513). rewrite <- Zle_Qle. lia.
      - unfold rel_err. lra. }
    assert (HN1 : (inject_Z (Z.of_nat (Datatypes.S n)) * (2 * rel_err * B + 2 * abs_err)
                   == inject_Z (Z.of_nat n) * (2 * rel_err * B + 2 * abs_err)
                      + (2 * rel_err * B + 2 * abs_err))%Q).
    { rewrite Nat2Z.inj_succ. unfold Z.succ. rewrite inject_Z_plus.
      change (inject_Z 1) with 1%Q. ring. }
    set (E := (inject_Z (Z.of_nat n) * (2 * rel_err * B + 2 * abs_err))%Q) in *.
    unfold rel_err in *.
    assert (R : rounds_to (F32.add a (t (Z.of_nat n))) (F32.to_Q a + T)).
    { apply add_rounds; try assumption; fold T; lra. }
    destruct R as (Rr & P & _). destruct P as (P0 & P1 & P2); [lra|].
    unfold rel_err in *.
    split; [exact Rr|]. split; [exact P0|].
    rewrite HN1. apply Qabs_Qle_condition. split; lra.
Qed.

(** ** Rows of the filter bank *)

Lemma for_range_wr (f : Z -> F32.float32) lo hi (a : list F32.float32) (guard : bool) :
  0 <= lo -> hi <= Z.of_nat (length a) -> (lo < hi -> guard = true) ->
  let a' := for_range lo hi (fun k row => if guard then wr row k (f k) else row) a in
  length a' = length a /\
  forall j, rd a' j = if (lo <=? j) && (j <? hi) then f j else rd a j.
Proof.
  intros Hlo Hhi Hg. cbv zeta.
  destruct (Z.le_gt_cases hi lo) as [Hle|Hlt].
  - rewrite for_range_empty by exact Hle. split; [reflexivity|]. intros j.
    destruct (Z.leb_spec lo j), (Z.ltb_spec j hi); simpl; try reflexivity; lia.
  - rewrite (Hg Hlt).
    apply (for_range_ind
             (fun k acc => length acc = length a /\
                forall j, rd acc j = if (lo <=? j) && (j <? k) then f j else rd a j)
             lo hi); [lia | |].
    + split; [reflexivity|]. intros j.
      destruct (Z.leb_spec lo j), (Z.ltb_spec j lo); simpl; try reflexivity; lia.
    + intros k acc Hk (HL & Hrd). split; [rewrite wr_length; exact HL|].
      intros j. destruct (Z.eq_dec k j) as [Heq|Hne].
      * subst j. rewrite rd_wr_eq by lia.
        destruct (Z.leb_spec lo k), (Z.ltb_spec k (k + 1)); simpl; try lia. reflexivity.
      * rewrite rd_wr_ne by exact Hne. rewrite Hrd.
        destruct (Z.leb_spec lo j), (Z.ltb_spec j k), (Z.ltb_spec j (k + 1));
          simpl; try reflexivity; lia.
Qed.

Lemma zero_row_length : Z.of_nat (length zero_row) = N_FFT_BINS.
Proof. reflexivity. Qed.

(** The row of one band before the area normalisation. *)
Lemma triangle_spec left center right :
  0 <= left < N_FFT_BINS -> 0 <= center < N_FFT_BINS -> 0 <= right < N_FFT_BINS ->
  let raw := triangle left center right zero_row in
  Z.of_nat (length raw) = N_FFT_BINS /\
  forall k, rd raw k =
            if (center <=? k) && (k <? right) then weight (right - k) (right - center)
            else if (left <=? k) && (k <? center) then weight (k - left) (center - left)
                 else F32.zero.
Proof.
  intros Hl Hc Hr. cbv zeta. unfold triangle, rising_edge, falling_edge.
  pose proof zero_row_length as HZ. change N_FFT_BINS with 513 in *.
  destruct (for_range_wr (fun k => weight (k - left) (center - left)) left center zero_row
              (left <? center)) as (L1 & R1); [lia | lia | apply Z.ltb_lt |].
  fold (weight) in *.
  destruct (for_range_wr (fun k => weight (right - k) (right - center)) center right
              (for_range left center
                 (fun k row => if left <? center
                               then wr row k (weight (k - left) (center - left)) else row)
                 zero_row)
              (center <? right)) as (L2 & R2); [lia | rewrite L1; lia | apply Z.ltb_lt |].
  split; [unfold weight in L2, L1 |- *; rewrite L2, L1; exact HZ|].
  intros k. unfold weight in R2, R1 |- *. rewrite R2.
  destruct ((center <=? k) && (k <? right)); [reflexivity|].
  rewrite R1. destruct ((left <=? k) && (k <? center)); [reflexivity|].
  apply rd_replicate_zero.
Qed.

Lemma row_area_loop row :
  row_area row = for_loop 513 0 (fun k area => F32.add area (rd row k)) F32.zero.
Proof. reflexivity. Qed.

(** Division of a row by its area. *)
Lemma normalize_row_spec row :
  Z.of_nat (length row) = N_FFT_BINS ->
  Z.of_nat (length (normalize_row row)) = N_FFT_BINS /\
  (F32.gtb (row_area row) F32.zero = true ->
   forall k, 0 <= k < N_FFT_BINS ->
             rd (normalize_row row) k = F32.div (rd row k) (row_area row)) /\
  (F32.gtb (row_area row) F32.zero = false -> normalize_row row = row).
Proof.
  intros HL. unfold normalize_row. change N_FFT_BINS with 513 in *.
  destruct (F32.gtb (row_area row) F32.zero).
  - assert (G : let acc := for_range 0 513
                             (fun k row0 => wr row0 k (F32.div (rd row0 k) (row_area row))) row in
                length acc = length row /\
                forall j, rd acc j = if (0 <=? j) && (j <? 513)
                                     then F32.div (rd row j) (row_area row) else rd row j).
    { cbv zeta.
      apply (for_range_ind
               (fun k acc => length acc = length row /\
                  forall j, rd acc j = if (0 <=? j) && (j <? k)
                                       then F32.div (rd row j) (row_area row) else rd row j)
               0 513); [discriminate | |].
      - split; [reflexivity|]. intros j.
        destruct (Z.leb_spec 0 j), (Z.ltb_spec j 0); simpl; try reflexivity; lia.
      - intros k acc Hk (HA & Hrd). split; [rewrite wr_length; exact HA|].
        intros j. destruct (Z.eq_dec k j) as [Heq|Hne].
        + subst j. rewrite rd_wr_eq by lia. rewrite Hrd.
          destruct (Z.leb_spec 0 k), (Z.ltb_spec k k), (Z.ltb_spec k (k + 1));
            simpl; try lia. reflexivity.
        + rewrite rd_wr_ne by exact Hne. rewrite Hrd.
          destruct (Z.leb_spec 0 j), (Z.ltb_spec j k), (Z.ltb_spec j (k + 1));
            simpl; try reflexivity; lia. }
    cbv zeta in G. destruct G as (G1 & G2).
    split; [rewrite G1; exact HL|]. split; [|discriminate].
    intros _ k Hk. rewrite G2.
    destruct (Z.leb_spec 0 k), (Z.ltb_spec k 513); simpl; try lia. reflexivity.
  - split; [exact HL|]. split; [discriminate | reflexivity].
Qed.

Lemma rd_row_wr_eq (a : list (list F32.float32)) m v :
  0 <= m < Z.of_nat (length a) -> rd_row (wr a m v) m = v.
Proof.
  intros H. unfold rd_row, wr. destruct (Z.leb_spec 0 m); [|lia].
  rewrite list_lookup_insert_eq by lia. reflexivity.
Qed.

Lemma rd_row_wr_ne (a : list (list F32.float32)) m j v :
  m <> j -> rd_row (wr a m v) j = rd_row a j.
Proof.
  intros H. unfold rd_row, wr. destruct (Z.leb_spec 0 m); [|reflexivity].
  destruct (Z.leb_spec 0 j); [|reflexivity].
  rewrite list_lookup_insert_ne by lia. reflexivity.
Qed.

Lemma build_filter_bank_spec (bin_points : Z -> Z) :
  Z.of_nat (length (build_filter_bank bin_points)) = N_MELS /\
  forall m, 0 <= m < N_MELS -> rd_row (build_filter_bank bin_points) m = build_row bin_points m.
Proof.
  unfold build_filter_bank. change N_MELS with 28.
  assert (G : let bank := for_range 0 28 (fun m bank => wr bank m (build_row bin_points m))
                            (replicate (Z.to_nat 28) zero_row) in
              Z.of_nat (length bank) = 28 /\
              forall m, 0 <= m < 28 -> rd_row bank m = build_row bin_points m).
  { cbv zeta.
    apply (for_range_ind
             (fun k (acc : list (list F32.float32)) =>
                Z.of_nat (length acc) = 28 /\
                forall m, 0 <= m < k -> rd_row acc m = build_row bin_points m)
             0 28); [discriminate | |].
    - split; [reflexivity | intros m Hm; lia].
    - intros k acc Hk (HA & Hrd). split; [rewrite wr_length; exact HA|].
      intros m Hm. destruct (Z.eq_dec k m) as [Heq|Hne].
      + subst m. apply rd_row_wr_eq. lia.
      + rewrite rd_row_wr_ne by exact Hne. apply Hrd. lia. }
  exact G.
Qed.

Lemma weight_spec i n :
  0 <= i <= n -> 1 <= n <= 512 ->
  is_real (weight i n) = true /\
  (0 <= F32.to_Q (weight i n))%Q /\ (F32.to_Q (weight i n) <= 1)%Q /\
  (0 < i -> (1 # 512 <= F32.to_Q (weight i n))%Q) /\
  (i = 0 -> weight i n = F32.zero).
Proof.
  intros Hi Hn.
  assert (Hin : In n (seqZ 1 512)) by (apply list_elem_of_In, elem_of_seqZ; lia).
  assert (Hii : In i (seqZ 0 (n + 1))) by (apply list_elem_of_In, elem_of_seqZ; lia).
  pose proof weights_table as W.
  pose proof (proj1 (forallb_forall
                       (fun n => forallb (fun i => weight_ok i n) (seqZ 0 (n + 1)))
                       (seqZ 1 512)) W n Hin) as H.
  cbv beta in H.
  pose proof (proj1 (forallb_forall (fun i => weight_ok i n) (seqZ 0 (n + 1))) H i Hii) as Hok.
  cbv beta in Hok. clear H W.
  unfold weight_ok in Hok. cbv zeta in Hok.
  apply andb_prop in Hok. destruct Hok as (Hok & H4).
  apply andb_prop in Hok. destruct Hok as (Hok & H3).
  apply andb_prop in Hok. destruct Hok as (H1 & H2).
  apply (proj1 (Qle_bool_iff _ _)) in H2. apply (proj1 (Qle_bool_iff _ _)) in H3.
  split; [exact H1|]. split; [exact H2|]. split; [exact H3|]. split.
  - intros Hp. revert H4. destruct (Z.ltb_spec 0 i); [|lia].
    intros H4. apply Qle_bool_iff. exact H4.
  - intros Hz. revert H4. destruct (Z.ltb_spec 0 i); [lia|].
    destruct (weight i n) as [[|]| | |]; try discriminate. reflexivity.
Qed.

Lemma pos_ltb r : is_real r = true -> (0 < F32.to_Q r)%Q -> F32.ltb F32.zero r = true.
Proof.
  intros Hr Hp. destruct r as [s|s| |s m e]; try discriminate.
  destruct s; [|reflexivity].
  exfalso. change (F32.to_Q (S754_finite true m e))
    with (- inject_Z (Z.pos m) * F32.pow2Q e)%Q in Hp.
  pose proof (inject_Z_pos_gt0 m). pose proof (pow2Q_pos e).
  assert (0 < inject_Z (Z.pos m) * F32.pow2Q e)%Q by (apply Qmult_lt_0_compat; assumption).
  lra.
Qed.

Lemma nonneg_leb r : is_real r = true -> (0 <= F32.to_Q r)%Q -> F32.leb F32.zero r = true.
Proof.
  intros Hr Hp. destruct r as [s|s| |s m e]; try discriminate; [reflexivity|].
  destruct s; [|reflexivity].
  exfalso. change (F32.to_Q (S754_finite true m e))
    with (- inject_Z (Z.pos m) * F32.pow2Q e)%Q in Hp.
  pose proof (inject_Z_pos_gt0 m). pose proof (pow2Q_pos e).
  assert (0 < inject_Z (Z.pos m) * F32.pow2Q e)%Q by (apply Qmult_lt_0_compat; assumption).
  lra.
Qed.

Lemma inject_nat_succ n : (inject_Z (Z.of_nat (S n)) == inject_Z (Z.of_nat n) + 1)%Q.
Proof. rewrite Nat2Z.inj_succ. unfold Z.succ. rewrite inject_Z_plus. reflexivity. Qed.

Lemma sumQ_le_affine (f g : Z -> Q) (c d : Q) (n : nat) :
  (forall k, 0 <= k < Z.of_nat n -> (g k <= f k * c + d)%Q) ->
  (sumQ g n <= sumQ f n * c + inject_Z (Z.of_nat n) * d)%Q.
Proof.
  induction n as [|n IH]; intros H.
  - cbn [sumQ]. change (inject_Z (Z.of_nat 0)) with 0%Q. lra.
  - cbn [sumQ]. rewrite inject_nat_succ.
    assert (g (Z.of_nat n) <= f (Z.of_nat n) * c + d)%Q by (apply H; lia).
    assert (sumQ g n <= sumQ f n * c + inject_Z (Z.of_nat n) * d)%Q
      by (apply IH; intros k Hk; apply H; lia).
    lra.
Qed.

Lemma sumQ_ge_affine (f g : Z -> Q) (c d : Q) (n : nat) :
  (forall k, 0 <= k < Z.of_nat n -> (f k * c - d <= g k)%Q) ->
  (sumQ f n * c - inject_Z (Z.of_nat n) * d <= sumQ g n)%Q.
Proof.
  induction n as [|n IH]; intros H.
  - cbn [sumQ]. change (inject_Z (Z.of_nat 0)) with 0%Q. lra.
  - cbn [sumQ]. rewrite inject_nat_succ.
    assert (f (Z.of_nat n) * c - d <= g (Z.of_nat n))%Q by (apply H; lia).
    assert (sumQ f n * c - inject_Z (Z.of_nat n) * d <= sumQ g n)%Q
      by (apply IH; intros k Hk; apply H; lia).
    lra.
Qed.

Lemma sumQ_ge_term (f : Z -> Q) (n : nat) k0 :
  (forall k, 0 <= k < Z.of_nat n -> (0 <= f k)%Q) ->
  0 <= k0 < Z.of_nat n -> (f k0 <= sumQ f n)%Q.
Proof.
  induction n as [|n IH]; intros H Hk; [lia|].
  cbn [sumQ].
  assert (0 <= f (Z.of_nat n))%Q by (apply H; lia).
  assert (0 <= sumQ f n)%Q by (apply sumQ_nonneg; intros k Hk'; apply H; lia).
  destruct (Z.eq_dec k0 (Z.of_nat n)) as [->|Hne]; [lra|].
  assert (f k0 <= sumQ f n)%Q by (apply IH; [intros k Hk'; apply H; lia | lia]).
  lra.
Qed.

Lemma sumQ_ext (f g : Z -> Q) (n : nat) :
  (forall k, 0 <= k < Z.of_nat n -> (f k == g k)%Q) -> (sumQ f n == sumQ g n)%Q.
Proof.
  induction n as [|n IH]; intros H; [reflexivity|].
  cbn [sumQ]. rewrite IH by (intros k Hk; apply H; lia).
  rewrite (H (Z.of_nat n)) by lia. reflexivity.
Qed.

(** A row of weights in [0, 1], one of them at least 1/512, divided by its
    binary32 sum: the results are non-negative and sum to 1 up to the
    tolerance. *)
Lemma normalize_sum (t : Z -> F32.float32) :
  (forall k, 0 <= k < 513 ->
             is_real (t k) = true /\ (0 <= F32.to_Q (t k))%Q /\ (F32.to_Q (t k) <= 1)%Q) ->
  (exists k0, 0 <= k0 < 513 /\ (1 # 512 <= F32.to_Q (t k0))%Q) ->
  let area := for_loop 513 0 (fun k acc => F32.add acc (t k)) F32.zero in
  F32.gtb area F32.zero = true /\
  (forall k, 0 <= k < 513 ->
             is_real (F32.div (t k) area) = true /\ (0 <= F32.to_Q (F32.div (t k) area))%Q) /\
  (Qabs (sumQ (fun k => F32.to_Q (F32.div (t k) area)) 513 - 1) <= sum_tolerance)%Q.
Proof.
  intros Ht (k0 & Hk0 & Tk0). cbv zeta.
  set (T := fun k => F32.to_Q (t k)).
  set (S0 := sumQ T 513).
  assert (HT0 : forall k, 0 <= k < Z.of_nat 513 -> (0 <= T k)%Q).
  { intros k Hk. apply Ht. lia. }
  assert (HS1 : (1 # 512 <= S0)%Q).
  { apply Qle_trans with (T k0); [exact Tk0|]. apply sumQ_ge_term; [exact HT0 | lia]. }
  assert (HS2 : (S0 <= 513)%Q).
  { pose proof (sumQ_le_affine (fun _ => 0%Q) T 0 1 513) as H.
    assert (E : (sumQ (fun _ : Z => 0%Q) 513 * 0 + inject_Z (Z.of_nat 513) * 1 == 513)%Q).
    { change (inject_Z (Z.of_nat 513)) with 513%Q. ring. }
    rewrite E in H. apply H. intros k Hk.
    assert (T k <= 1)%Q by (apply Ht; lia). lra. }
  destruct (float_sum_error t S0 513) as (Ra & A0 & HA).
  { intros k Hk. destruct (Ht k) as (H1 & H2 & _); [lia|]. auto. }
  { apply Qle_refl. }
  { lra. }
  { lia. }
  set (area := for_loop 513 0 (fun k acc => F32.add acc (t k)) F32.zero) in *.
  fold T in HA. fold S0 in HA.
  change (inject_Z (Z.of_nat 513)) with 513%Q in HA.
  pose proof abs_err_small as He. pose proof abs_err_pos as He0.
  apply Qabs_Qle_condition in HA. destruct HA as (HA1 & HA2).
  unfold rel_err in *.
  assert (HAlo : (1 # 1024 <= F32.to_Q area)%Q) by lra.
  clearbody area.
  destruct area as [s|s| |s m e]; [|discriminate Ra|discriminate Ra|].
  { exfalso. change (F32.to_Q (S754_zero s)) with 0%Q in HAlo. lra. }
  assert (Hs : s = false).
  { destruct s; [|reflexivity]. exfalso.
    assert (F32.ltb F32.zero (S754_finite true m e) = true)
      by (apply pos_ltb; [reflexivity | lra]).
    discriminate. }
  subst s.
  set (A := F32.to_Q (S754_finite false m e)) in *.
  assert (HR : forall k, 0 <= k < 513 ->
                 rounds_to (F32.div (t k) (S754_finite false m e)) (T k * / A)).
  { intros k Hk. destruct (Ht k Hk) as (H1 & H2 & H3).
    apply div_rounds_moderate; try assumption.
    - reflexivity.
    - right. exact HAlo.
    - lra.
    - lra. }
  assert (HinvA : (0 < / A)%Q) by (apply Qinv_lt_0_compat; lra).
  assert (HD : forall k, 0 <= k < 513 -> (0 <= T k * / A)%Q).
  { intros k Hk. apply Qmult_le_0_compat; [apply HT0; lia | lra]. }
  split; [reflexivity|]. split.
  { intros k Hk. destruct (HR k Hk) as (R1 & R2 & _).
    destruct R2 as (R2 & _); [apply HD; exact Hk|]. auto. }
  set (N := fun k => F32.to_Q (F32.div (t k) (S754_finite false m e))).
  set (rho := (S0 * / A)%Q).
  assert (Hup : (sumQ N 513 <= S0 * (/ A * (1 + (1 # 8388608))) + 513 * abs_err)%Q).
  { change 513%Q with (inject_Z (Z.of_nat 513)).
    apply sumQ_le_affine. intros k Hk.
    destruct (HR k ltac:(lia)) as (_ & R2 & _).
    destruct R2 as (_ & _ & R2); [apply HD; lia|].
    unfold N, rel_err in *. fold (T k). lra. }
  assert (Hdn : (S0 * (/ A * (1 - (1 # 8388608))) - 513 * abs_err <= sumQ N 513)%Q).
  { change 513%Q with (inject_Z (Z.of_nat 513)).
    apply sumQ_ge_affine. intros k Hk.
    destruct (HR k ltac:(lia)) as (_ & R2 & _).
    destruct R2 as (_ & R2 & _); [apply HD; lia|].
    unfold N, rel_err in *. fold (T k). lra. }
  assert (Hr1 : (rho <= 1 + (1 # 6000))%Q).
  { unfold rho. change (S0 * / A)%Q with (S0 / A)%Q.
    apply Qle_shift_div_r; lra. }
  assert (Hr2 : (1 - (1 # 6000) <= rho)%Q).
  { unfold rho. change (S0 * / A)%Q with (S0 / A)%Q.
    apply Qle_shift_div_l; lra. }
  assert (E1 : (S0 * (/ A * (1 + (1 # 8388608))) == rho * (1 + (1 # 8388608)))%Q)
    by (unfold rho; ring).
  assert (E2 : (S0 * (/ A * (1 - (1 # 8388608))) == rho * (1 - (1 # 8388608)))%Q)
    by (unfold rho; ring).
  rewrite E1 in Hup. rewrite E2 in Hdn.
  unfold sum_tolerance. apply Qabs_Qle_condition. split; lra.
Qed.

(** Entries of the row of a band before normalisation. *)
Lemma raw_row_facts left center right k :
  0 <= left < N_FFT_BINS -> 0 <= center < N_FFT_BINS -> 0 <= right < N_FFT_BINS ->
  0 <= k < N_FFT_BINS ->
  let raw := triangle left center right zero_row in
  is_real (rd raw k) = true /\
  (0 <= F32.to_Q (rd raw k))%Q /\ (F32.to_Q (rd raw k) <= 1)%Q /\
  (support_lo left center <= k < support_hi center right ->
   (1 # 512 <= F32.to_Q (rd raw k))%Q) /\
  (~ (support_lo left center <= k < support_hi center right) -> rd raw k = F32.zero).
Proof.
  intros Hl Hc Hr Hk. cbv zeta.
  destruct (triangle_spec left center right Hl Hc Hr) as (_ & Hrd).
  rewrite Hrd. clear Hrd. change N_FFT_BINS with 513 in *.
  unfold support_lo, support_hi.
  destruct ((center <=? k) && (k <? right)) eqn:Ef.
  - (* falling edge *)
    apply andb_prop in Ef. destruct Ef as (E1 & E2).
    apply Z.leb_le in E1. apply Z.ltb_lt in E2.
    destruct (weight_spec (right - k) (right - center)) as (W1 & W2 & W3 & W4 & _);
      [lia | lia |].
    split; [exact W1|]. split; [exact W2|]. split; [exact W3|]. split.
    + intros _. apply W4. lia.
    + intros Hn. exfalso. apply Hn.
      destruct (Z.ltb_spec left center), (Z.ltb_spec center right); lia.
  - assert (Hf : ~ (center <= k < right)).
    { intros (? & ?).
      rewrite (proj2 (Z.leb_le center k)), (proj2 (Z.ltb_lt k right)) in Ef by assumption.
      discriminate. }
    destruct ((left <=? k) && (k <? center)) eqn:Er.
    + (* rising edge *)
      apply andb_prop in Er. destruct Er as (E1 & E2).
      apply Z.leb_le in E1. apply Z.ltb_lt in E2.
      destruct (weight_spec (k - left) (center - left)) as (W1 & W2 & W3 & W4 & W5);
        [lia | lia |].
      split; [exact W1|]. split; [exact W2|]. split; [exact W3|]. split.
      * intros Hs. apply W4. destruct (Z.ltb_spec left center); lia.
      * intros Hn. apply W5.
        destruct (Z.ltb_spec left center), (Z.ltb_spec center right); lia.
    + assert (Hr' : ~ (left <= k < center)).
      { intros (? & ?).
        rewrite (proj2 (Z.leb_le left k)), (proj2 (Z.ltb_lt k center)) in Er by assumption.
        discriminate. }
      split; [reflexivity|]. split; [apply Qle_refl|]. split; [discriminate|]. split.
      * intros Hs. exfalso.
        destruct (Z.ltb_spec left center), (Z.ltb_spec center right); lia.
      * reflexivity.
Qed.

Section FilterBank.

Variable log10f : F32.float32 -> F32.float32.
Variable powf : F32.float32 -> F32.float32 -> F32.float32.

Lemma bin_point_upper i : bin_point log10f powf i < N_FFT_BINS.
Proof.
  unfold bin_point. cbv zeta.
  destruct (Z.leb_spec N_FFT_BINS
              (F32.floorf_to_int
                 (F32.div (F32.mul (mel_to_hz powf (mel_point log10f i)) (F32.of_int N_FFT))
                          (F32.of_int TARGET_SAMPLE_RATE)))); [reflexivity | assumption].
Qed.

Lemma bin_point_lower i :
  bin_points_valid log10f powf = true -> 0 <= i < N_MELS + 2 -> 0 <= bin_point log10f powf i.
Proof.
  intros H Hi. unfold bin_points_valid in H.
  pose proof (proj1 (forallb_forall (fun i => 0 <=? bin_point log10f powf i)
                       (seqZ 0 (N_MELS + 2))) H i) as G.
  cbv beta in G. apply Z.leb_le, G, list_elem_of_In, elem_of_seqZ. lia.
Qed.

Lemma init_mel_filter_bank_cached w :
  mel_filters_initialized (dsp_state w) = true ->
  init_mel_filter_bank log10f powf w = (true, w).
Proof. intros H. unfold init_mel_filter_bank. rewrite H. reflexivity. Qed.

Lemma init_mel_filter_bank_builds w :
  mel_filters_initialized (dsp_state w) = false ->
  let built := init_mel_filter_bank log10f powf w in
  fst built = true /\
  mel_filters_initialized (dsp_state (snd built)) = true /\
  mel_filter_bank (dsp_state (snd built)) = build_filter_bank (bin_point log10f powf).
Proof.
  intros H. cbv zeta. unfold init_mel_filter_bank. rewrite H.
  split; [reflexivity|]. split; reflexivity.
Qed.

(** The row of a band with a non-empty support after normalisation. *)
Lemma normalized_row_sum left center right :
  0 <= left < N_FFT_BINS -> 0 <= center < N_FFT_BINS -> 0 <= right < N_FFT_BINS ->
  support_lo left center < support_hi center right ->
  let raw := triangle left center right zero_row in
  (forall k, 0 <= k < N_FFT_BINS ->
             rd (normalize_row raw) k = F32.div (rd raw k) (row_area raw)) /\
  (forall k, 0 <= k < N_FFT_BINS -> F32.leb F32.zero (rd (normalize_row raw) k) = true) /\
  (Qabs (row_sum_Q (normalize_row raw) - 1) <= sum_tolerance)%Q.
Proof.
  intros Hl Hc Hr Hs. cbv zeta.
  set (raw := triangle left center right zero_row).
  destruct (triangle_spec left center right Hl Hc Hr) as (HL & _). fold raw in HL.
  destruct (normalize_sum (rd raw)) as (Hgt & Hnn & Hsum).
  { intros k Hk.
    destruct (raw_row_facts left center right k Hl Hc Hr Hk) as (F1 & F2 & F3 & _).
    auto. }
  { exists (support_lo left center).
    assert (Hk : 0 <= support_lo left center < 513).
    { change N_FFT_BINS with 513 in *. revert Hs. unfold support_lo, support_hi.
      destruct (Z.ltb_spec left center), (Z.ltb_spec center right); lia. }
    split; [exact Hk|].
    apply (raw_row_facts left center right _ Hl Hc Hr Hk). lia. }
  rewrite <- row_area_loop in Hgt, Hnn, Hsum.
  destruct (normalize_row_spec raw HL) as (_ & Hn & _).
  specialize (Hn Hgt).
  split; [exact Hn|]. split.
  - intros k Hk. rewrite (Hn k Hk).
    destruct (Hnn k Hk) as (N1 & N2). apply nonneg_leb; assumption.
  - unfold row_sum_Q. change (Z.to_nat N_FFT_BINS) with 513%nat.
    assert (E : (sumQ (fun k => F32.to_Q (rd (normalize_row raw) k)) 513
                 == sumQ (fun k => F32.to_Q (F32.div (rd raw k) (row_area raw))) 513)%Q).
    { apply sumQ_ext. intros k Hk. rewrite Hn by (change N_FFT_BINS with 513; lia).
      reflexivity. }
    rewrite E. exact Hsum.
Qed.

(** A row without support stays zero. *)
Lemma normalize_zero_row (raw : list F32.float32) k :
  Z.of_nat (length raw) = N_FFT_BINS ->
  (forall j, 0 <= j < N_FFT_BINS -> rd raw j = F32.zero) ->
  0 <= k < N_FFT_BINS ->
  F32.leb F32.zero (rd (normalize_row raw) k) = true.
Proof.
  intros HL Hz Hk.
  destruct (normalize_row_spec raw HL) as (_ & Hn & Hn').
  revert Hn Hn'. generalize (row_area raw). intros area Hn Hn'.
  destruct (F32.gtb area F32.zero) eqn:Hg.
  - rewrite (Hn eq_refl k Hk), (Hz k Hk).
    destruct area as [s|s| |s m e];
      [discriminate Hg | destruct s | discriminate Hg | destruct s];
      (discriminate Hg || reflexivity).
  - rewrite (Hn' eq_refl), (Hz k Hk). reflexivity.
Qed.

(** Entries of any row of the bank are non-negative. *)
Lemma build_row_nonneg left center right k :
  0 <= left < N_FFT_BINS -> 0 <= center < N_FFT_BINS -> 0 <= right < N_FFT_BINS ->
  0 <= k < N_FFT_BINS ->
  F32.leb F32.zero (rd (normalize_row (triangle left center right zero_row)) k) = true.
Proof.
  intros Hl Hc Hr Hk.
  destruct (Z.lt_ge_cases (support_lo left center) (support_hi center right)) as [Hs|Hs].
  - apply (normalized_row_sum left center right Hl Hc Hr Hs). exact Hk.
  - destruct (triangle_spec left center right Hl Hc Hr) as (HL & _).
    apply normalize_zero_row; [exact HL | | exact Hk].
    intros j Hj. apply (raw_row_facts left center right j Hl Hc Hr Hj). lia.
Qed.

(** Bins of a band of the bank. *)
Lemma band_bins m :
  bin_points_valid log10f powf = true -> 0 <= m < N_MELS ->
  0 <= bin_point log10f powf m < N_FFT_BINS /\
  0 <= bin_point log10f powf (m + 1) < N_FFT_BINS /\
  0 <= bin_point log10f powf (m + 2) < N_FFT_BINS.
Proof.
  intros Hbins Hm. change N_MELS with 28 in Hm.
  repeat split; try apply bin_point_upper; apply bin_point_lower; try assumption;
    change N_MELS with 28; lia.
Qed.

(** After the first call of [init_mel_filter_bank] every entry of the
    N_MELS x N_FFT_BINS matrix is non-negative, the bin indices computed with
    the C library's [log10f] and [powf] being non-negative. *)
Theorem filter_bank_entries_nonneg (w : world) :
  mel_filters_initialized (dsp_state w) = false ->
  bin_points_valid log10f powf = true ->
  let bank := mel_filter_bank (dsp_state (snd (init_mel_filter_bank log10f powf w))) in
  forall m k, 0 <= m < N_MELS -> 0 <= k < N_FFT_BINS ->
    F32.leb F32.zero (rd (rd_row bank m) k) = true.
Proof.
  intros Hinit Hbins. cbv zeta. intros m k Hm Hk.
  destruct (init_mel_filter_bank_builds w Hinit) as (_ & _ & Hbank).
  cbv zeta in Hbank. rewrite Hbank.
  destruct (build_filter_bank_spec (bin_point log10f powf)) as (_ & Hrow).
  rewrite Hrow by exact Hm. unfold build_row.
  destruct (band_bins m Hbins Hm) as (Hl & Hc & Hr).
  apply build_row_nonneg; assumption.
Qed.

(** Before the area normalisation, the non-zero entries of the row of a band
    are exactly those of the bins [support_lo, support_hi), one contiguous
    range; the entries are the rising weights (k - left) / (center - left) on
    [left, center), the falling weights (right - k) / (right - center) on
    [center, right), and zero elsewhere; the row stored in the matrix is this
    row after [normalize_row]. *)
Theorem filter_bank_row_support (w : world) :
  mel_filters_initialized (dsp_state w) = false ->
  bin_points_valid log10f powf = true ->
  let bank := mel_filter_bank (dsp_state (snd (init_mel_filter_bank log10f powf w))) in
  forall m, 0 <= m < N_MELS ->
    let left := bin_point log10f powf m in
    let center := bin_point log10f powf (m + 1) in
    let right := bin_point log10f powf (m + 2) in
    let raw := triangle left center right zero_row in
    rd_row bank m = normalize_row raw /\
    forall k, 0 <= k < N_FFT_BINS ->
      F32.ltb F32.zero (rd raw k)
      = (support_lo left center <=? k) && (k <? support_hi center right) /\
      (left <= k < center -> rd raw k = weight (k - left) (center - left)) /\
      (center <= k < right -> rd raw k = weight (right - k) (right - center)) /\
      (~ (left <= k < center) -> ~ (center <= k < right) -> rd raw k = F32.zero).
Proof.
  intros Hinit Hbins. cbv zeta. intros m Hm.
  destruct (init_mel_filter_bank_builds w Hinit) as (_ & _ & Hbank).
  cbv zeta in Hbank. rewrite Hbank.
  destruct (build_filter_bank_spec (bin_point log10f powf)) as (_ & Hrow).
  destruct (band_bins m Hbins Hm) as (Hl & Hc & Hr).
  split; [rewrite Hrow by exact Hm; reflexivity|].
  intros k Hk.
  destruct (raw_row_facts _ _ _ k Hl Hc Hr Hk) as (F1 & F2 & F3 & F4 & F5).
  destruct (triangle_spec _ _ _ Hl Hc Hr) as (_ & Hrd).
  set (left := bin_point log10f powf m) in *.
  set (center := bin_point log10f powf (m + 1)) in *.
  set (right := bin_point log10f powf (m + 2)) in *.
  split; [|split; [|split]].
  - destruct (Z.leb_spec (support_lo left center) k),
             (Z.ltb_spec k (support_hi center right)); cbn [andb].
    + apply pos_ltb; [exact F1|].
      assert (1 # 512 <= F32.to_Q (rd (triangle left center right zero_row) k))%Q
        by (apply F4; lia).
      lra.
    + rewrite F5 by lia. reflexivity.
    + rewrite F5 by lia. reflexivity.
    + rewrite F5 by lia. reflexivity.
  - intros Hin. rewrite Hrd.
    destruct (Z.leb_spec center k), (Z.ltb_spec k right); cbn [andb]; try lia;
      destruct (Z.leb_spec left k), (Z.ltb_spec k center); cbn [andb]; try lia;
      reflexivity.
  - intros Hin. rewrite Hrd.
    destruct (Z.leb_spec center k), (Z.ltb_spec k right); cbn [andb]; try lia.
    reflexivity.
  - intros H1 H2. rewrite Hrd.
    destruct (Z.leb_spec center k), (Z.ltb_spec k right); cbn [andb]; try lia;
      destruct (Z.leb_spec left k), (Z.ltb_spec k center); cbn [andb]; try lia;
      reflexivity.
Qed.

(** Slaney normalisation: the row of a band whose support is not empty is the
    row of weights divided by its area, the area being their sum accumulated
    in binary32, and the exact sum of the stored entries is 1 up to 2^-12. *)
Theorem filter_bank_row_sum (w : world) :
  mel_filters_initialized (dsp_state w) = false ->
  bin_points_valid log10f powf = true ->
  let bank := mel_filter_bank (dsp_state (snd (init_mel_filter_bank log10f powf w))) in
  forall m, 0 <= m < N_MELS ->
    let left := bin_point log10f powf m in
    let center := bin_point log10f powf (m + 1) in
    let right := bin_point log10f powf (m + 2) in
    let raw := triangle left center right zero_row in
    support_lo left center < support_hi center right ->
    (forall k, 0 <= k < N_FFT_BINS ->
       rd (rd_row bank m) k = F32.div (rd raw k) (row_area raw)) /\
    (Qabs (row_sum_Q (rd_row bank m) - 1) <= sum_tolerance)%Q.
Proof.
  intros Hinit Hbins. cbv zeta. intros m Hm Hs.
  destruct (init_mel_filter_bank_builds w Hinit) as (_ & _ & Hbank).
  cbv zeta in Hbank. rewrite Hbank.
  destruct (build_filter_bank_spec (bin_point log10f powf)) as (_ & Hrow).
  destruct (band_bins m Hbins Hm) as (Hl & Hc & Hr).
  rewrite Hrow by exact Hm. unfold build_row.
  destruct (normalized_row_sum _ _ _ Hl Hc Hr Hs) as (N1 & _ & N3).
  split; [exact N1 | exact N3].
Qed.

End FilterBank.

(** [filter_bank_entries_nonneg] on the bank built at start-up with the
    sample library functions: band 0 at bin 100. *)
Lemma filter_bank_entries_nonneg_witness :
  F32.leb F32.zero
    (rd (rd_row (mel_filter_bank
                   (dsp_state (snd (init_mel_filter_bank sample_log10f sample_powf
                                      initial_world)))) 0) 100) = true.
Proof.
  assert (Hb : bin_points_valid sample_log10f sample_powf = true)
    by (vm_compute; reflexivity).
  assert (Hm : 0 <= 0 < N_MELS) by (split; [discriminate | reflexivity]).
  assert (Hk : 0 <= 100 < N_FFT_BINS) by (split; [discriminate | reflexivity]).
  exact (filter_bank_entries_nonneg sample_log10f sample_powf initial_world
           eq_refl Hb 0 100 Hm Hk).
Defined.

(** [filter_bank_row_support] on the same bank: band 1, whose bins are 176,
    353 and 512, holds the falling weight (512 - 400) / (512 - 353) at bin
    400. *)
Lemma filter_bank_row_support_witness :
  rd (triangle (bin_point sample_log10f sample_powf 1)
               (bin_point sample_log10f sample_powf 2)
               (bin_point sample_log10f sample_powf 3) zero_row) 400
  = weight (bin_point sample_log10f sample_powf 3 - 400)
           (bin_point sample_log10f sample_powf 3 - bin_point sample_log10f sample_powf 2).
Proof.
  assert (Hb : bin_points_valid sample_log10f sample_powf = true)
    by (vm_compute; reflexivity).
  assert (Hm : 0 <= 1 < N_MELS) by (split; [discriminate | reflexivity]).
  assert (Hk : 0 <= 400 < N_FFT_BINS) by (split; [discriminate | reflexivity]).
  assert (Hin : bin_point sample_log10f sample_powf 2 <= 400
                < bin_point sample_log10f sample_powf 3)
    by (vm_compute; split; [discriminate | reflexivity]).
  exact (proj1 (proj2 (proj2 (proj2 (filter_bank_row_support sample_log10f sample_powf
                                       initial_world eq_refl Hb 1 Hm) 400 Hk))) Hin).
Defined.

(** [filter_bank_row_sum] on the same bank: band 0. *)
Lemma filter_bank_row_sum_witness :
  (Qabs (row_sum_Q (rd_row (mel_filter_bank
                              (dsp_state (snd (init_mel_filter_bank sample_log10f sample_powf
                                                 initial_world)))) 0) - 1)
   <= sum_tolerance)%Q.
Proof.
  assert (Hb : bin_points_valid sample_log10f sample_powf = true)
    by (vm_compute; reflexivity).
  assert (Hm : 0 <= 0 < N_MELS) by (split; [discriminate | reflexivity]).
  assert (Hs : support_lo (bin_point sample_log10f sample_powf 0)
                          (bin_point sample_log10f sample_powf 1)
               < support_hi (bin_point sample_log10f sample_powf 1)
                            (bin_point sample_log10f sample_powf 2))
    by (vm_compute; reflexivity).
  exact (proj2 (filter_bank_row_sum sample_log10f sample_powf initial_world
                  eq_refl Hb 0 Hm Hs)).
Defined.

(** * The silence gate *)

Lemma sum_squares_zeros (samples : list F32.float32) :
  forallb is_zero_sample samples = true -> sum_squares samples = F32.zero.
Proof.
  unfold sum_squares. induction samples as [|x samples IH]; intros H; [reflexivity|].
  cbn [forallb] in H. apply andb_true_iff in H. destruct H as (Hx & Hr).
  cbn [fold_left]. destruct x as [s| | |]; try discriminate Hx.
  replace (F32.add F32.zero (F32.mul (S754_zero s) (S754_zero s))) with F32.zero
    by (destruct s; reflexivity).
  exact (IH Hr).
Qed.

Lemma of_int_positive (n : Z) :
  0 < n < 2 ^ 64 -> exists m e, F32.of_int n = S754_finite false m e.
Proof.
  intros Hn.
  assert (H1 : (1 <= inject_Z n)%Q).
  { change 1%Q with (inject_Z 1). rewrite <- Zle_Qle. lia. }
  assert (H2 : (inject_Z n < 18446744073709551616 # 1)%Q).
  { change (18446744073709551616 # 1)%Q with (inject_Z (2 ^ 64)). rewrite <- Zlt_Qlt. lia. }
  pose proof pow2Q_104_big as Hbig.
  assert (R : rounds_to (F32.of_int n) (inject_Z n)).
  { unfold F32.of_int. apply binary_normalize_rounds.
    - change (F32.pow2Q 0) with 1%Q. ring.
    - lra.
    - lra. }
  destruct R as (Hreal & Hpos & _).
  destruct Hpos as (P1 & P2 & _); [lra|].
  pose proof abs_err_small as Ha. unfold rel_err in P2.
  assert (P : (0 < F32.to_Q (F32.of_int n))%Q) by lra.
  destruct (F32.of_int n) as [s|s| |s m e].
  - exfalso. cbn in P. lra.
  - discriminate Hreal.
  - discriminate Hreal.
  - destruct s; [|exists m, e; reflexivity].
    exfalso. pose proof (magQ_finite_pos true m e) as Hm. cbn [magQ] in Hm.
    cbn [F32.to_Q] in P. lra.
Qed.

Section Silence.

Variable expf log10f : F32.float32 -> F32.float32.
Variable powf : F32.float32 -> F32.float32 -> F32.float32.
Variable hann_cos : Z -> F32.float32.
Variable fftwf_execute :
  list (F32.float32 * F32.float32) -> list (F32.float32 * F32.float32).

(** A pass over samples that are all zero is skipped, whatever their number:
    the loudness is exactly +0, below the floor, so that the pass logs the
    silence and returns without features, inference or mail. *)
Theorem silent_pass_skipped (e : env) (audio : list F32.float32) (num_samples : Z)
    (w : world) :
  0 < num_samples < 2 ^ 64 ->
  forallb is_zero_sample (take (Z.to_nat num_samples) audio) = true ->
  compute_rms audio num_samples = F32.zero /\
  process_gunshot_detection expf log10f powf hann_cos fftwf_execute e audio num_samples w
  = (false, if ml_ready w then emit (LogSilence F32.zero) w else w).
Proof.
  intros Hn Hz.
  assert (Hr : compute_rms audio num_samples = F32.zero).
  { unfold compute_rms. cbv zeta. rewrite (sum_squares_zeros _ Hz).
    destruct (of_int_positive num_samples Hn) as (m & e' & ->). reflexivity. }
  split; [exact Hr|].
  unfold process_gunshot_detection. destruct (ml_ready w); [|reflexivity].
  cbn [negb]. cbv zeta. rewrite Hr. reflexivity.
Qed.

End Silence.

(** [silent_pass_skipped] on three zero samples followed by a loud one. *)
Lemma silent_pass_skipped_witness :
  process_gunshot_detection sample_expf sample_log10f sample_powf sample_hann_cos
    sample_fftwf_execute (env_at 1000)
    [F32.zero; S754_zero true; F32.zero; F32.c_1] 3 ready_world
  = (false, emit (LogSilence F32.zero) ready_world).
Proof.
  assert (H : 0 < 3 < 2 ^ 64) by (split; reflexivity).
  exact (proj2 (silent_pass_skipped sample_expf sample_log10f sample_powf sample_hann_cos
                  sample_fftwf_execute (env_at 1000)
                  [F32.zero; S754_zero true; F32.zero; F32.c_1] 3 ready_world H eq_refl)).
Defined.

(** * The invariants on concrete runs *)

(** [reachable_workspace] after a start-up without configuration file and one
    callback on the target stream. *)
Lemma reachable_workspace_witness :
  ml_ready (on_process sample_expf sample_log10f sample_powf sample_hann_cos
              sample_fftwf_execute (env_at 1) true (Samples [F32.c_1])
              (snd (main_startup sample_log10f sample_powf sample_hann_cos (env_at 0)
                      initial_world))) = true.
Proof.
  assert (H0 : fst (main_startup sample_log10f sample_powf sample_hann_cos (env_at 0)
                      initial_world) = None) by (vm_compute; reflexivity).
  assert (Hc : chunk_ok (Samples [F32.c_1])) by reflexivity.
  exact (proj1 (reachable_workspace sample_expf sample_log10f sample_powf sample_hann_cos
                  sample_fftwf_execute _
                  (reach_on_process sample_expf sample_log10f sample_powf sample_hann_cos
                     sample_fftwf_execute (env_at 1) true (Samples [F32.c_1]) _
                     (reach_start sample_expf sample_log10f sample_powf sample_hann_cos
                        sample_fftwf_execute (env_at 0) H0) Hc))).
Defined.

(** [reachable_fill_below_threshold] right after start-up. *)
Lemma reachable_fill_below_threshold_witness :
  samples_accumulated (snd (main_startup sample_log10f sample_powf sample_hann_cos (env_at 0)
                              initial_world)) < INFERENCE_THRESHOLD.
Proof.
  assert (H0 : fst (main_startup sample_log10f sample_powf sample_hann_cos (env_at 0)
                      initial_world) = None) by (vm_compute; reflexivity).
  exact (proj1 (proj2 (reachable_fill_below_threshold sample_expf sample_log10f sample_powf
                         sample_hann_cos sample_fftwf_execute _
                         (reach_start sample_expf sample_log10f sample_powf sample_hann_cos
                            sample_fftwf_execute (env_at 0) H0)))).
Defined.

(** [reachable_threshold_in_range] after a parameter signal that asks for a
    threshold of 99 percent. *)
Lemma reachable_threshold_in_range_witness :
  F32.leb (confidence_threshold
             (cfg (on_parameter_changed "threshold" "99"
                     (snd (main_startup sample_log10f sample_powf sample_hann_cos (env_at 0)
                             initial_world))))) F32.c_0_70 = true.
Proof.
  assert (H0 : fst (main_startup sample_log10f sample_powf sample_hann_cos (env_at 0)
                      initial_world) = None) by (vm_compute; reflexivity).
  exact (proj2 (reachable_threshold_in_range sample_expf sample_log10f sample_powf
                  sample_hann_cos sample_fftwf_execute _
                  (reach_parameter_changed sample_expf sample_log10f sample_powf
                     sample_hann_cos sample_fftwf_execute "threshold" "99" _
                     (reach_start sample_expf sample_log10f sample_powf sample_hann_cos
                        sample_fftwf_execute (env_at 0) H0)))).
Defined.

(** [reachable_config_fits] right after start-up. *)
Lemma reachable_config_fits_witness :
  strlen (smtp_server (cfg (snd (main_startup sample_log10f sample_powf sample_hann_cos
                                   (env_at 0) initial_world)))) <= 255.
Proof.
  assert (H0 : fst (main_startup sample_log10f sample_powf sample_hann_cos (env_at 0)
                      initial_world) = None) by (vm_compute; reflexivity).
  exact (proj1 (reachable_config_fits sample_expf sample_log10f sample_powf
                  sample_hann_cos sample_fftwf_execute _
                  (reach_start sample_expf sample_log10f sample_powf sample_hann_cos
                     sample_fftwf_execute (env_at 0) H0))).
Defined.

(** [chunks_stored_in_order] on two chunks of one sample. *)
Lemma chunks_stored_in_order_witness :
  samples_accumulated
    (accumulate_all sample_expf sample_log10f sample_powf sample_hann_cos sample_fftwf_execute
       [(env_at 1000, [F32.c_1]); (env_at 1001, [F32.c_0_5])] initial_world) = 0 + 2.
Proof.
  assert (H1 : buffer_inv initial_world) by (split; [reflexivity | split; discriminate]).
  assert (H2 : samples_accumulated initial_world
               + Z.of_nat (length (concat (map snd [(env_at 1000, [F32.c_1]);
                                                    (env_at 1001, [F32.c_0_5])])))
               < INFERENCE_THRESHOLD) by reflexivity.
  exact (proj1 (chunks_stored_in_order sample_expf sample_log10f sample_powf sample_hann_cos
                  sample_fftwf_execute
                  [(env_at 1000, [F32.c_1]); (env_at 1001, [F32.c_0_5])] initial_world
                  H1 H2)).
Defined.

(** [frame_count_exact] on 2000 samples: two frames. *)
Lemma frame_count_exact_witness :
  frames_produced sample_log10f sample_fftwf_execute
    (dsp_state (snd (main_startup sample_log10f sample_powf sample_hann_cos (env_at 0)
                       initial_world)))
    (replicate (Z.to_nat 2000) F32.c_1) 2000 = frame_count_of 2000.
Proof.
  assert (H : 0 <= 2000 <= F32.INT_MAX) by (split; discriminate).
  exact (proj1 (frame_count_exact sample_log10f sample_powf sample_hann_cos
                  sample_fftwf_execute (env_at 0) (replicate (Z.to_nat 2000) F32.c_1) 2000
                  (snd (main_startup sample_log10f sample_powf sample_hann_cos (env_at 0)
                          initial_world))
                  eq_refl eq_refl H)).
Defined.

(** [features_in_unit_interval] on the first entry of the matrix of a buffer
    of 2000 samples. *)
Lemma features_in_unit_interval_witness :
  F32.gtb (rd (fst (compute_mel_spectrogram sample_log10f sample_powf sample_hann_cos
                      sample_fftwf_execute (env_at 0) (replicate (Z.to_nat 2000) F32.c_1)
                      2000 initial_world)) 0) F32.c_1 = false.
Proof.
  assert (H : 0 <= 0 < EXPECTED_INPUT_SIZE) by (split; [discriminate | reflexivity]).
  exact (proj2 (proj2 (features_in_unit_interval sample_log10f sample_powf sample_hann_cos
                         sample_fftwf_execute (env_at 0)
                         (replicate (Z.to_nat 2000) F32.c_1) 2000 initial_world 0 H))).
Defined.

(** [excess_audio_ignored] on a buffer of 90000 samples, taken with 82433 and
    with 90000 as the sample count. *)
Lemma excess_audio_ignored_witness :
  let w := snd (main_startup sample_log10f sample_powf sample_hann_cos (env_at 0)
                  initial_world) in
  let audio := replicate (Z.to_nat 90000) F32.c_1 in
  fst (compute_mel_spectrogram sample_log10f sample_powf sample_hann_cos
         sample_fftwf_execute (env_at 0) audio 82433 w)
  = fst (compute_mel_spectrogram sample_log10f sample_powf sample_hann_cos
           sample_fftwf_execute (env_at 0) audio 90000 w).
Proof.
  cbv zeta.
  assert (H1 : (N_FRAMES - 1) * HOP_LENGTH + N_FFT < 82433 <= F32.INT_MAX)
    by (split; [reflexivity | discriminate]).
  assert (H2 : (N_FRAMES - 1) * HOP_LENGTH + N_FFT < 90000 <= F32.INT_MAX)
    by (split; [reflexivity | discriminate]).
  exact (excess_audio_ignored sample_log10f sample_powf sample_hann_cos
           sample_fftwf_execute (env_at 0) (replicate (Z.to_nat 90000) F32.c_1)
           (replicate (Z.to_nat 90000) F32.c_1) 82433 90000
           (snd (main_startup sample_log10f sample_powf sample_hann_cos (env_at 0)
                   initial_world))
           eq_refl eq_refl H1 H2 (fun i _ => eq_refl)).
Defined.

(** [inference_failure] on a loud sample when the inference job fails. *)
Lemma inference_failure_witness :
  fst (process_gunshot_detection sample_expf sample_log10f sample_powf sample_hann_cos
         sample_fftwf_execute (env_at 1000) [F32.c_1] 1 ready_world) = false.
Proof.
  assert (H : F32.ltb (compute_rms [F32.c_1] 1) MIN_RMS_THRESHOLD = false)
    by (vm_compute; reflexivity).
  exact (proj1 (inference_failure sample_expf sample_log10f sample_powf sample_hann_cos
                  sample_fftwf_execute (env_at 1000) [F32.c_1] 1 ready_world
                  eq_refl H eq_refl)).
Defined.

(** [email_payload_in_order] on a body of five bytes read through a buffer of
    two bytes, then one of sixteen. *)
Lemma email_payload_in_order_witness :
  let body := ["h"; "e"; "l"; "l"; "o"]%char in
  fst (upload [(1, 2); (1, 16)] (upload_start body)) = body.
Proof.
  cbv zeta.
  assert (H1 : email_upload_status.length (upload_start ["h"; "e"; "l"; "l"; "o"]%char)
               = Z.of_nat (length (email_upload_status.data
                                     (upload_start ["h"; "e"; "l"; "l"; "o"]%char))))
    by reflexivity.
  assert (H2 : email_upload_status.length (upload_start ["h"; "e"; "l"; "l"; "o"]%char)
               < 2 ^ 64) by reflexivity.
  assert (H3 : 0 <= email_upload_status.position (upload_start ["h"; "e"; "l"; "l"; "o"]%char)
               <= email_upload_status.length (upload_start ["h"; "e"; "l"; "l"; "o"]%char))
    by (split; discriminate).
  assert (H4 : Forall (fun r => 0 < wrap_size (fst r * snd r)) [(1, 2); (1, 16)])
    by (repeat constructor).
  exact (proj1 (proj2 (email_payload_in_order [(1, 2); (1, 16)]
                         (upload_start ["h"; "e"; "l"; "l"; "o"]%char) H1 H2 H3 H4))).
Defined.

(** [target_stream_by_name] on the unprocessed input node of the first audio
    device. *)
Lemma target_stream_by_name_witness :
  exists node_name,
    spa_dict_lookup [("media.class", "Audio/Source")%string;
                     ("node.name", "AudioDevice0Input0.Unprocessed")%string] "node.name"
    = Some node_name /\
    strstr node_name INPUT_NODE = true.
Proof.
  destruct (target_stream_by_name
              sample_expf sample_log10f sample_powf sample_hann_cos sample_fftwf_execute
              "PipeWire:Interface:Node" "media.class" "node.name" 4 1 1
              "PipeWire:Interface:Node"
              [("media.class", "Audio/Source")%string;
               ("node.name", "AudioDevice0Input0.Unprocessed")%string]
              (StreamData "AudioDevice0Input0.Unprocessed" false)
              [(4, Some (SpaPod 0 1 1))] eq_refl)
    as (node_name & H1 & H2 & _).
  exists node_name. split; [exact H1 | exact H2].
Defined.

(** * The threshold range on the two configuration paths *)

Lemma canonical_valid s m e :
  fexp32 (Zdigits2 (Z.pos m) + e) = e -> e <= 104 -> F32.valid (S754_finite s m e) = true.
Proof.
  intros H1 H2.
  unfold F32.valid, valid_binary, bounded, canonical_mantissa.
  change (fexp F32.prec F32.emax) with fexp32. change (F32.emax - F32.prec) with 104.
  apply andb_true_intro. split; [apply Z.eqb_eq; exact H1 | apply Z.leb_le; exact H2].
Qed.

Lemma pack_valid s m1 m2 e1 :
  0 <= m1 < 2 ^ 24 -> m2 = m1 \/ m2 = m1 + 1 -> -149 <= e1 ->
  e1 = -149 \/ 2 ^ 23 <= m1 ->
  F32.valid (pack s m2 e1) = true.
Proof.
  intros Hm1 Hm2 He Hn. unfold pack.
  destruct m2 as [|p|p]; [reflexivity | | lia].
  destruct (Z.ltb_spec (Z.pos p) (2 ^ 24)) as [Hlt | Hge].
  - destruct (Z.leb_spec e1 104) as [Hle | Hgt]; [|reflexivity].
    apply canonical_valid; [|exact Hle].
    assert (Hd : Zdigits2 (Z.pos p) <= 24) by (apply Zdigits2_lt_pow; lia).
    unfold fexp32.
    destruct (Z.le_gt_cases (2 ^ 23) (Z.pos p)) as [Hbig | Hsmall].
    + assert (24 <= Zdigits2 (Z.pos p)) by (apply (Zdigits2_ge_pow _ 23); lia). lia.
    + destruct Hn as [Hn | Hn]; [lia|]. lia.
  - destruct (Z.leb_spec (e1 + 1) 104) as [Hle | Hgt]; [|reflexivity].
    apply canonical_valid; [|exact Hle].
    assert (Hd : Zdigits2 (Z.pos (2 ^ 23)) = 24) by reflexivity.
    rewrite Hd. unfold fexp32. lia.
Qed.

Lemma div_valid x sy my ey :
  is_real x = true -> F32.valid (F32.div x (S754_finite sy my ey)) = true.
Proof.
  intros Hx. destruct x as [sx|sx| |sx mx ex]; try discriminate Hx; [reflexivity|].
  unfold F32.div, SFdiv.
  pose proof (div_core_spec mx ex my ey) as H. cbv zeta in H.
  destruct (SFdiv_core_binary F32.prec F32.emax (Z.pos mx) ex (Z.pos my) ey) as [[q e'] l].
  destruct H as (Hq & Hf & _).
  destruct (binary_round_aux_spec (xorb sx sy) q e' l Hq) as (m2 & Hm2 & _ & ->).
  destruct (round_shift_bounds q e' Hq) as (B1 & B2 & B3).
  pose proof (round_shift_normal q e' Hq Hf) as Hn.
  assert (0 <= q / 2 ^ round_shift q e').
  { apply Z.div_pos; [exact Hq|]. apply Z.pow_pos_nonneg; lia. }
  apply (pack_valid _ (q / 2 ^ round_shift q e')); [lia | exact Hm2 | exact B2 | exact Hn].
Qed.

Lemma of_int_rounds (n : Z) :
  F32.INT_MIN <= n <= F32.INT_MAX -> rounds_to (F32.of_int n) (inject_Z n).
Proof.
  intros Hn. pose proof pow2Q_104_big as Hbig.
  assert (H1 : (inject_Z (- 2 ^ 31) <= inject_Z n)%Q)
    by (rewrite <- Zle_Qle; unfold F32.INT_MIN in Hn; lia).
  assert (H2 : (inject_Z n <= inject_Z (2 ^ 31))%Q)
    by (rewrite <- Zle_Qle; unfold F32.INT_MAX in Hn; lia).
  change (inject_Z (- 2 ^ 31)) with (- (2147483648 # 1))%Q in H1.
  change (inject_Z (2 ^ 31)) with (2147483648 # 1)%Q in H2.
  unfold F32.of_int. apply binary_normalize_rounds.
  - change (F32.pow2Q 0) with 1%Q. ring.
  - lra.
  - lra.
Qed.

Lemma to_Q_c_100 : (F32.to_Q F32.c_100 == 100)%Q.
Proof. reflexivity. Qed.

Lemma percent_quotient (n : Z) :
  F32.INT_MIN <= n <= F32.INT_MAX ->
  let t := F32.div (F32.of_int n) F32.c_100 in
  is_real t = true /\ F32.valid t = true /\
  (n <= 29 -> (F32.to_Q t <= 2901 # 10000)%Q) /\
  (71 <= n -> (7099 # 10000 <= F32.to_Q t)%Q).
Proof.
  intros Hn. cbv zeta.
  destruct (of_int_rounds n Hn) as (Hreal & Hpos & Hneg).
  pose proof abs_err_small as Ha. pose proof abs_err_pos as Ha0.
  unfold rel_err in Hpos, Hneg.
  assert (H1 : (inject_Z (- 2 ^ 31) <= inject_Z n)%Q)
    by (rewrite <- Zle_Qle; unfold F32.INT_MIN in Hn; lia).
  assert (H2 : (inject_Z n <= inject_Z (2 ^ 31))%Q)
    by (rewrite <- Zle_Qle; unfold F32.INT_MAX in Hn; lia).
  change (inject_Z (- 2 ^ 31)) with (- (2147483648 # 1))%Q in H1.
  change (inject_Z (2 ^ 31)) with (2147483648 # 1)%Q in H2.
  assert (Hx : (- (1099511627776 # 1) <= F32.to_Q (F32.of_int n))%Q /\
               (F32.to_Q (F32.of_int n) <= 1099511627776 # 1)%Q).
  { destruct (Qlt_le_dec (inject_Z n) 0) as [Hlt | Hge].
    - destruct Hneg as (N1 & N2 & N3); [lra|]. split; lra.
    - destruct Hpos as (P1 & P2 & P3); [lra|]. split; lra. }
  destruct Hx as (Hx1 & Hx2).
  assert (R : rounds_to (F32.div (F32.of_int n) F32.c_100)
                        (F32.to_Q (F32.of_int n) * (1 # 100))).
  { apply (rounds_to_ext _ (F32.to_Q (F32.of_int n) * / 100)); [reflexivity|].
    unfold F32.c_100. apply div_rounds_moderate.
    - exact Hreal.
    - reflexivity.
    - right. discriminate.
    - exact Hx1.
    - exact Hx2. }
  destruct R as (Rreal & Rpos & Rneg). unfold rel_err in Rpos, Rneg.
  split; [exact Rreal|]. split; [apply div_valid; exact Hreal|]. split.
  - intros Hle.
    assert (H3 : (inject_Z n <= inject_Z 29)%Q) by (rewrite <- Zle_Qle; exact Hle).
    change (inject_Z 29) with (29 # 1)%Q in H3.
    destruct (Qlt_le_dec (inject_Z n) 0) as [Hlt | Hge].
    + destruct Hneg as (N1 & N2 & N3); [lra|].
      destruct Rneg as (M1 & M2 & M3); [lra|]. lra.
    + destruct Hpos as (P1 & P2 & P3); [lra|].
      destruct Rpos as (M1 & M2 & M3); [lra|]. lra.
  - intros Hge.
    assert (H3 : (inject_Z 71 <= inject_Z n)%Q) by (rewrite <- Zle_Qle; exact Hge).
    change (inject_Z 71) with (71 # 1)%Q in H3.
    destruct Hpos as (P1 & P2 & P3); [lra|].
    destruct Rpos as (M1 & M2 & M3); [lra|]. lra.
Qed.

Lemma threshold_test_exact (n : Z) (c : config) :
  F32.INT_MIN <= n <= F32.INT_MAX ->
  threshold_in_range (set_threshold (F32.div (F32.of_int n) F32.c_100) c)
  = (30 <=? n) && (n <=? 70).
Proof.
  intros Hn.
  destruct (Z.leb_spec 30 n) as [H30 | H30]; [destruct (Z.leb_spec n 70) as [H70 | H70]|].
  - apply percent_in_range. lia.
  - cbn [andb]. unfold threshold_in_range. cbn [confidence_threshold set_threshold].
    destruct (percent_quotient n Hn) as (Hr & Hv & _ & Hhi). cbv zeta in Hr, Hv, Hhi.
    apply andb_false_intro2.
    destruct (F32.leb (F32.div (F32.of_int n) F32.c_100) F32.c_0_70) eqn:Hleb; [|reflexivity].
    exfalso.
    pose proof (leb_to_Q _ F32.c_0_70 Hv eq_refl Hr eq_refl Hleb) as HQ.
    specialize (Hhi ltac:(lia)).
    change (F32.to_Q F32.c_0_70) with ((11744051 # 1) * F32.pow2Q (-24))%Q in HQ.
    change (F32.pow2Q (-24)) with (1 # 16777216)%Q in HQ. lra.
  - cbn [andb]. unfold threshold_in_range. cbn [confidence_threshold set_threshold].
    destruct (percent_quotient n Hn) as (Hr & Hv & Hlo & _). cbv zeta in Hr, Hv, Hlo.
    apply andb_false_intro1. unfold F32.geb. fold (F32.leb F32.c_0_30 (F32.div (F32.of_int n) F32.c_100)).
    destruct (F32.leb F32.c_0_30 (F32.div (F32.of_int n) F32.c_100)) eqn:Hleb; [|reflexivity].
    exfalso.
    pose proof (leb_to_Q F32.c_0_30 _ eq_refl Hv eq_refl Hr Hleb) as HQ.
    specialize (Hlo ltac:(lia)).
    change (F32.to_Q F32.c_0_30) with ((10066330 # 1) * F32.pow2Q (-25))%Q in HQ.
    change (F32.pow2Q (-25)) with (1 # 33554432)%Q in HQ. lra.
Qed.

Lemma store_int_range v : F32.INT_MIN <= store_int v <= F32.INT_MAX.
Proof.
  unfold store_int, wrap_s32, F32.INT_MIN, F32.INT_MAX.
  pose proof (Z.mod_pos_bound (Z.max (- 2 ^ 63) (Z.min (2 ^ 63 - 1) v) + 2 ^ 31) (2 ^ 32)
                ltac:(reflexivity)).
  lia.
Qed.

Lemma drop_prefix_strstr a b s rest :
  drop_prefix (a ++ b) s = Some rest -> strstr s a = true.
Proof.
  intros H.
  assert (P : String.prefix a s = true).
  { revert s H. induction a as [|x a IH]; intros s H; [destruct s; reflexivity|].
    destruct s as [|y s]; [discriminate H|].
    cbn [append drop_prefix] in H. cbn [String.prefix].
    destruct (Ascii.eqb_spec x y) as [-> | Hne]; [|discriminate H].
    destruct (ascii_dec y y); [|contradiction]. exact (IH s H). }
  destruct s; cbn [strstr]; rewrite P; reflexivity.
Qed.

(** The configuration file and the parameter signal accept the same
    thresholds.  A line that [sscanf] reads as the integer n changes the
    threshold exactly when 30 <= n <= 70, the test of the signal handler: the
    comparison of n / 100.0f with 0.30f and 0.70f in binary32 neither admits
    29 or 71 nor rejects 30 or 70.  The value stored is the one the signal
    handler stores for a value that [atoi] reads as n. *)
Theorem threshold_paths_agree (line param_value : string) (threshold_int : Z) (w : world) :
  sscanf_int (qkey "threshold") line = Some threshold_int ->
  atoi param_value = threshold_int ->
  cfg (load_threshold_line line w)
  = (if (30 <=? threshold_int) && (threshold_int <=? 70)
     then set_threshold (F32.div (F32.of_int threshold_int) F32.c_100) (cfg w)
     else cfg w) /\
  cfg (on_parameter_changed "threshold" param_value w) = cfg (load_threshold_line line w).
Proof.
  intros Hs Ha.
  assert (Hrange : F32.INT_MIN <= threshold_int <= F32.INT_MAX).
  { unfold sscanf_int in Hs. destruct (drop_prefix (qkey "threshold") line); [|discriminate Hs].
    destruct (scan_decimal s) as [v|]; [|discriminate Hs].
    injection Hs as <-. apply store_int_range. }
  assert (Hstr : strstr line "threshold=" = true).
  { unfold sscanf_int in Hs.
    destruct (drop_prefix (qkey "threshold") line) as [rest|] eqn:Hd; [|discriminate Hs].
    exact (drop_prefix_strstr "threshold=" (String dquote EmptyString) line rest Hd). }
  pose proof (threshold_test_exact threshold_int (cfg w) Hrange) as Ht.
  unfold threshold_in_range in Ht. cbn [confidence_threshold set_threshold] in Ht.
  assert (E : cfg (load_threshold_line line w)
              = (if (30 <=? threshold_int) && (threshold_int <=? 70)
                 then set_threshold (F32.div (F32.of_int threshold_int) F32.c_100) (cfg w)
                 else cfg w)).
  { unfold load_threshold_line. rewrite Hstr, Hs. cbv zeta. rewrite Ht.
    destruct ((30 <=? threshold_int) && (threshold_int <=? 70)); reflexivity. }
  split; [exact E|]. rewrite E.
  unfold on_parameter_changed. cbv zeta.
  change (strstr "threshold" "threshold") with true.
  change (strstr "threshold" "email_enabled") with false.
  cbv iota. rewrite Ha.
  destruct ((30 <=? threshold_int) && (threshold_int <=? 70)); reflexivity.
Qed.

(** [threshold_paths_agree] on the line and the signal value 71: both are
    rejected. *)
Lemma threshold_paths_agree_witness :
  cfg (on_parameter_changed "threshold" "71" initial_world)
  = cfg (load_threshold_line ("threshold=" ++ String dquote "71" ++ String dquote "") initial_world).
Proof.
  exact (proj2 (threshold_paths_agree
                  ("threshold=" ++ String dquote "71" ++ String dquote "") "71" 71
                  initial_world eq_refl eq_refl)).
Defined.

(** * The running program and the claims on what it delivers *)

Section Delivered.

Variable expf log10f : F32.float32 -> F32.float32.
Variable powf : F32.float32 -> F32.float32 -> F32.float32.
Variable hann_cos : Z -> F32.float32.
Variable fftwf_execute :
  list (F32.float32 * F32.float32) -> list (F32.float32 * F32.float32).

(** In a running program the pipeline is ready and the workspace is
    initialised. *)
Lemma reachable_initialised (w : world) :
  reachable expf log10f powf hann_cos fftwf_execute w ->
  ml_ready w = true /\
  fft_initialized (dsp_state w) = true /\
  mel_filters_initialized (dsp_state w) = true.
Proof.
  induction 1 as [e He | e t b w Hw IH Hb | n v w Hw IH].
  - destruct (main_startup_ready log10f powf hann_cos e He) as (M & D).
    rewrite D. split; [exact M | split; reflexivity].
  - destruct IH as (M & F1 & F2).
    rewrite on_process_ml_ready.
    rewrite (on_process_dsp expf log10f powf hann_cos fftwf_execute e t b w F1 F2).
    split; [exact M | split; assumption].
  - destruct (on_parameter_changed_frame n v w) as (D & M' & _).
    rewrite D, M'. exact IH.
Qed.


(** C9: the FFT workspace is allocated and planned in one place, the call of
    [init_fft_workspace] by [main].  When the allocation or the creation of
    the plan fails there, [main] returns 1 with [ml_ready] unset: no features
    are produced, and a pass or a capture callback in that state quantises
    and infers nothing, it returns the state as it is.  In a program that
    did start, the initialisation called by the extractor returns at once
    without allocating, whatever the allocator would answer, so that no pass
    meets the failure. *)
Theorem C9_workspace_failure_fatal (e : env) :
  env_alloc_ok e = false \/ env_plan_ok e = false ->
  let r := main_startup log10f powf hann_cos e initial_world in
  fst r = Some 1 /\
  ml_ready (snd r) = false /\
  input_tensor (snd r) = input_tensor initial_world /\
  inference_count (snd r) = inference_count initial_world /\
  (forall e' audio num_samples,
     process_gunshot_detection expf log10f powf hann_cos fftwf_execute
       e' audio num_samples (snd r) = (false, snd r)) /\
  (forall e' is_target_stream samples,
     on_process expf log10f powf hann_cos fftwf_execute
       e' is_target_stream (Samples samples) (snd r) = snd r) /\
  (forall w0 w e',
     reachable expf log10f powf hann_cos fftwf_execute w0 ->
     dsp_state w = dsp_state w0 ->
     init_fft_workspace hann_cos e' w = (true, w)).
Proof.
  intros Hfail. cbv zeta.
  destruct (startup_workspace_failure expf log10f powf hann_cos fftwf_execute
              e initial_world eq_refl eq_refl Hfail)
    as (S1 & S2 & S3 & S4 & S5 & S6 & _).
  split; [exact S1|]. split; [exact S2|]. split; [exact S4|]. split; [exact S3|].
  split; [exact S5|]. split; [exact S6|].
  intros w0 w e' Hreach Hd.
  destruct (reachable_initialised w0 Hreach) as (_ & F1 & _).
  unfold init_fft_workspace. rewrite Hd, F1. reflexivity.
Qed.

End Delivered.


(** C9 on a start-up whose allocation fails. *)
Lemma C9_workspace_failure_fatal_witness :
  fst (main_startup sample_log10f sample_powf sample_hann_cos (env_alloc_fails 0 0 0)
         initial_world) = Some 1.
Proof.
  exact (proj1 (C9_workspace_failure_fatal sample_expf sample_log10f sample_powf
                  sample_hann_cos sample_fftwf_execute (env_alloc_fails 0 0 0)
                  (or_introl eq_refl))).
Defined.

(** * A run that sends mails *)

Section Mails.

Variable expf log10f : F32.float32 -> F32.float32.
Variable powf : F32.float32 -> F32.float32 -> F32.float32.
Variable hann_cos : Z -> F32.float32.
Variable fftwf_execute :
  list (F32.float32 * F32.float32) -> list (F32.float32 * F32.float32).

(** A pass that detects, with the mail notification configured and the
    cooldown over, sends a mail. *)
Lemma pass_sends_mail e audio num_samples w q1 q2 :
  ml_ready w = true ->
  F32.ltb (compute_rms audio num_samples) MIN_RMS_THRESHOLD = false ->
  env_infer e = Some (q1, q2) ->
  F32.gtb (snd (softmax2 expf (dequantize_output q1) (dequantize_output q2)))
          (confidence_threshold (cfg w)) = true ->
  email_enabled (cfg w) = true ->
  smtp_username (cfg w) <> EmptyString ->
  recipient_email (cfg w) <> EmptyString ->
  EMAIL_RATE_LIMIT_SECONDS <= env_time e - last_email_time w ->
  env_curl_init_ok e = true -> env_curl_ok e = true ->
  let r := process_gunshot_detection expf log10f powf hann_cos fftwf_execute
             e audio num_samples w in
  email_times (trace (snd r)) = email_times (trace w) ++ [env_time e] /\
  last_email_time (snd r) = env_time e.
Proof.
  intros Hml Hrms Hinf Hgt Hen Hu Hr Hcool Hci Hco. cbv zeta.
  unfold process_gunshot_detection. rewrite Hml. cbn [negb]. cbv zeta. rewrite Hrms.
  pose proof (compute_mel_spectrogram_same_mail log10f powf hann_cos fftwf_execute
                e audio num_samples w) as (SM1 & SM2).
  pose proof (compute_mel_spectrogram_cfg log10f powf hann_cos fftwf_execute
                e audio num_samples w) as SC.
  destruct (compute_mel_spectrogram log10f powf hann_cos fftwf_execute e audio num_samples w)
    as [mel w3].
  cbn [snd] in SM1, SM2, SC. rewrite Hinf.
  destruct (softmax2 expf (dequantize_output q1) (dequantize_output q2)) as [prob1 prob2].
  cbn [snd] in Hgt.
  set (w4 := with_inference_count _ (with_input_tensor _ w3)).
  assert (C4 : cfg w4 = cfg w) by (subst w4; cbn [cfg with_inference_count with_input_tensor];
                                   exact SC).
  assert (T4 : trace w4 = trace w3) by reflexivity.
  assert (L4 : last_email_time w4 = last_email_time w) by exact SM2.
  rewrite detection_logic_above by (rewrite C4; exact Hgt).
  cbn [snd]. rewrite C4, Hen.
  set (w5 := emit _ (with_detection_count _ w4)).
  assert (C5 : cfg w5 = cfg w) by exact C4.
  assert (L5 : last_email_time w5 = last_email_time w) by exact L4.
  assert (T5 : email_times (trace w5) = email_times (trace w)).
  { subst w5. cbn [trace emit with_detection_count]. rewrite email_times_app, T4, SM1.
    cbn [email_times]. apply app_nil_r. }
  rewrite send_email_sent; try assumption; try (rewrite C5; assumption);
    try (rewrite L5; assumption).
  cbn [snd trace emit last_email_time with_last_email_time].
  rewrite email_times_app, T5. cbn [email_times]. split; reflexivity.
Qed.

(** A chunk on the target stream that brings the buffer to the inference
    threshold, loud enough and answered by a detection, sends a mail when
    the notification is configured and the cooldown is over. *)
Lemma callback_sends_mail e samples w q1 q2 :
  ml_ready w = true ->
  env_config_file e = None ->
  0 <= samples_accumulated w ->
  INFERENCE_THRESHOLD <= samples_accumulated w + Z.of_nat (length samples)
                      <= AUDIO_BUFFER_SIZE ->
  let buffer := memcpy_at (audio_buffer w) (samples_accumulated w) samples in
  F32.ltb (compute_rms buffer AUDIO_BUFFER_SIZE) MIN_RMS_THRESHOLD = false ->
  env_infer e = Some (q1, q2) ->
  F32.gtb (snd (softmax2 expf (dequantize_output q1) (dequantize_output q2)))
          (confidence_threshold (cfg w)) = true ->
  email_enabled (cfg w) = true ->
  smtp_username (cfg w) <> EmptyString ->
  recipient_email (cfg w) <> EmptyString ->
  EMAIL_RATE_LIMIT_SECONDS <= env_time e - last_email_time w ->
  env_curl_init_ok e = true -> env_curl_ok e = true ->
  let w' := on_process expf log10f powf hann_cos fftwf_execute
              e true (Samples samples) w in
  email_times (trace w') = email_times (trace w) ++ [env_time e] /\
  last_email_time w' = env_time e /\
  cfg w' = cfg w /\ ml_ready w' = true /\
  audio_buffer w' = buffer /\ samples_accumulated w' = 0.
Proof.
  intros Hml Hfile Hacc Hfill buffer Hrms Hinf Hgt Hen Hu Hr Hcool Hci Hco. cbv zeta.
  unfold on_process. rewrite Hml. cbn [andb]. cbv zeta.
  set (wa := with_debug_counter _ w).
  set (wb := if debug_counter wa mod 5000 =? 0 then load_config e wa else wa).
  assert (Hb : cfg wb = cfg w /\ ml_ready wb = true /\ audio_buffer wb = audio_buffer w /\
               samples_accumulated wb = samples_accumulated w /\
               last_email_time wb = last_email_time w /\
               email_times (trace wb) = email_times (trace w)).
  { subst wb. destruct (debug_counter wa mod 5000 =? 0).
    - unfold load_config. rewrite Hfile. subst wa.
      cbn [cfg ml_ready audio_buffer samples_accumulated last_email_time trace emit
           with_debug_counter].
      rewrite email_times_app. cbn [email_times]. rewrite app_nil_r.
      repeat split; try reflexivity; assumption.
    - subst wa. cbn. repeat split; try reflexivity; assumption. }
  clearbody wb. clear wa.
  destruct Hb as (B1 & B2 & B3 & B4 & B5 & B6).
  unfold accumulate. cbv zeta.
  assert (Hlen : wrap_u32 (Z.of_nat (length samples)) = Z.of_nat (length samples)).
  { apply wrap_u32_small. unfold AUDIO_BUFFER_SIZE in Hfill. lia. }
  rewrite Hlen, B4.
  assert (Hsum : wrap_u32 (samples_accumulated w + Z.of_nat (length samples))
                 = samples_accumulated w + Z.of_nat (length samples)).
  { apply wrap_u32_small. unfold AUDIO_BUFFER_SIZE in Hfill. lia. }
  rewrite Hsum.
  destruct (Z.leb_spec (samples_accumulated w + Z.of_nat (length samples)) AUDIO_BUFFER_SIZE)
    as [_ | Hbad]; [|lia].
  rewrite B3. fold buffer.
  set (wc := with_audio buffer _ wb).
  set (wd := check_config_changes e wc).
  assert (Hd : cfg wd = cfg w /\ ml_ready wd = true /\ audio_buffer wd = buffer /\
               samples_accumulated wd = samples_accumulated w + Z.of_nat (length samples) /\
               last_email_time wd = last_email_time w /\
               email_times (trace wd) = email_times (trace w)).
  { subst wd. unfold check_config_changes. cbv zeta. rewrite Hfile.
    destruct (env_time e - last_config_check wc <? 5); subst wc;
      cbn [cfg ml_ready audio_buffer samples_accumulated last_email_time trace
           with_audio with_config_check];
      repeat split; assumption. }
  clearbody wd. clear wc.
  destruct Hd as (D1 & D2 & D3 & D4 & D5 & D6).
  rewrite D4.
  destruct (Z.leb_spec INFERENCE_THRESHOLD (samples_accumulated w + Z.of_nat (length samples)))
    as [_ | Hbad]; [|lia].
  rewrite D3.
  pose proof (pass_sends_mail e buffer AUDIO_BUFFER_SIZE wd q1 q2 D2 Hrms Hinf) as P.
  cbv zeta in P.
  destruct P as (P1 & P2); try assumption; try (rewrite D1; assumption);
    try (rewrite D5; assumption).
  pose proof (process_cfg expf log10f powf hann_cos fftwf_execute e buffer AUDIO_BUFFER_SIZE wd)
    as PC.
  pose proof (process_gunshot_detection_audio expf log10f powf hann_cos fftwf_execute
                e buffer AUDIO_BUFFER_SIZE wd) as (PA1 & PA2 & PA3).
  set (we := snd (process_gunshot_detection expf log10f powf hann_cos fftwf_execute
                    e buffer AUDIO_BUFFER_SIZE wd)) in *.
  cbn [trace last_email_time cfg ml_ready audio_buffer samples_accumulated with_audio].
  rewrite P1, P2, PC, PA1, PA3, D1, D2, D3, D6.
  repeat split; reflexivity.
Qed.

End Mails.

Lemma sample_run_mails :
  let w0 := snd (main_startup sample_log10f sample_powf sample_hann_cos env_mail_start
                   initial_world) in
  let w1 := on_process sample_expf sample_log10f sample_powf sample_hann_cos
              sample_fftwf_execute (env_detect 1000) true (Samples loud_chunk) w0 in
  let w2 := on_process sample_expf sample_log10f sample_powf sample_hann_cos
              sample_fftwf_execute (env_detect 1120) true (Samples loud_chunk) w1 in
  email_times (trace w2) = [1000; 1120].
Proof.
  cbv zeta.
  set (w0 := snd (main_startup sample_log10f sample_powf sample_hann_cos env_mail_start
                    initial_world)).
  assert (F0 : ml_ready w0 = true /\ samples_accumulated w0 = 0 /\
               last_email_time w0 = 0 /\ email_times (trace w0) = [] /\
               cfg w0 = Config F32.c_0_45 true "smtp.gmail.com" 587 "camera@example.org" ""
                               "guard@example.org").
  { vm_compute. repeat split. }
  destruct F0 as (M0 & A0 & L0 & T0 & C0).
  assert (B0 : audio_buffer w0 = audio_buffer initial_world).
  { exact (proj1 (main_startup_audio sample_log10f sample_powf sample_hann_cos
                    env_mail_start)). }
  set (buffer := memcpy_at (audio_buffer initial_world) 0 loud_chunk).
  assert (Hrms : F32.ltb (compute_rms buffer AUDIO_BUFFER_SIZE) MIN_RMS_THRESHOLD = false)
    by (vm_compute; reflexivity).
  assert (Hrms2 : F32.ltb (compute_rms (memcpy_at buffer 0 loud_chunk) AUDIO_BUFFER_SIZE)
                          MIN_RMS_THRESHOLD = false)
    by (vm_compute; reflexivity).
  assert (Hgt : F32.gtb (snd (softmax2 sample_expf (dequantize_output (-128))
                                (dequantize_output 127))) F32.c_0_45 = true)
    by (vm_compute; reflexivity).
  assert (Hfill : INFERENCE_THRESHOLD <= 0 + Z.of_nat (length loud_chunk) <= AUDIO_BUFFER_SIZE)
    by (vm_compute; split; discriminate).
  pose proof (callback_sends_mail sample_expf sample_log10f sample_powf sample_hann_cos
                sample_fftwf_execute (env_detect 1000) loud_chunk w0 (-128) 127 M0 eq_refl)
    as S1.
  cbv zeta in S1. rewrite A0, B0, C0, L0, T0 in S1. fold buffer in S1.
  destruct S1 as (S1a & S1b & S1c & S1d & S1e & S1f);
    [discriminate | exact Hfill | exact Hrms | reflexivity | exact Hgt | reflexivity
     | discriminate | discriminate | discriminate | reflexivity | reflexivity |].
  set (w1 := on_process sample_expf sample_log10f sample_powf sample_hann_cos
               sample_fftwf_execute (env_detect 1000) true (Samples loud_chunk) w0) in *.
  pose proof (callback_sends_mail sample_expf sample_log10f sample_powf sample_hann_cos
                sample_fftwf_execute (env_detect 1120) loud_chunk w1 (-128) 127 S1d eq_refl)
    as S2.
  cbv zeta in S2. rewrite S1f, S1e, S1c, S1b, S1a in S2.
  destruct S2 as (S2a & _);
    [discriminate | exact Hfill | exact Hrms2 | reflexivity | exact Hgt | reflexivity
     | discriminate | discriminate | discriminate | reflexivity | reflexivity |].
  exact S2a.
Qed.

(** [reachable_mails_spaced] after a start-up that finds the mail
    notification configured and two callbacks, at the times 1000 and 1120,
    each of which completes a loud buffer and is answered by a detection: two
    mails, 120 seconds apart. *)
Lemma reachable_mails_spaced_witness :
  let w0 := snd (main_startup sample_log10f sample_powf sample_hann_cos env_mail_start
                   initial_world) in
  let w1 := on_process sample_expf sample_log10f sample_powf sample_hann_cos
              sample_fftwf_execute (env_detect 1000) true (Samples loud_chunk) w0 in
  let w2 := on_process sample_expf sample_log10f sample_powf sample_hann_cos
              sample_fftwf_execute (env_detect 1120) true (Samples loud_chunk) w1 in
  email_times (trace w2) = [1000; 1120] /\ spaced (email_times (trace w2)).
Proof.
  cbv zeta. split; [exact sample_run_mails|].
  assert (H0 : fst (main_startup sample_log10f sample_powf sample_hann_cos env_mail_start
                      initial_world) = None) by (vm_compute; reflexivity).
  assert (Hc : chunk_ok (Samples loud_chunk)) by (vm_compute; reflexivity).
  exact (proj1 (reachable_mails_spaced sample_expf sample_log10f sample_powf
                  sample_hann_cos sample_fftwf_execute _
                  (reach_on_process sample_expf sample_log10f sample_powf sample_hann_cos
                     sample_fftwf_execute (env_detect 1120) true (Samples loud_chunk) _
                     (reach_on_process sample_expf sample_log10f sample_powf sample_hann_cos
                        sample_fftwf_execute (env_detect 1000) true (Samples loud_chunk) _
                        (reach_start sample_expf sample_log10f sample_powf sample_hann_cos
                           sample_fftwf_execute env_mail_start H0) Hc) Hc))).
Defined.

Section MailConditions.

Variable expf log10f : F32.float32 -> F32.float32.
Variable powf : F32.float32 -> F32.float32 -> F32.float32.
Variable hann_cos : Z -> F32.float32.
Variable fftwf_execute :
  list (F32.float32 * F32.float32) -> list (F32.float32 * F32.float32).

(** A pass sends a mail exactly when it detects with the notification
    configured and the cooldown over.  Only then: a mail is sent only when
    mail is enabled, the user name and the recipient are not empty, the clock
    reading [current_time] taken for the cooldown test is at least 120
    seconds after [last_email_time], the transfer succeeds and the pass
    reports a detection; in every other case, a failed transfer included,
    the pass sends no mail and leaves [last_email_time] as it was.  And
    then: a pass on audible samples with the pipeline ready, whose inference
    job answers with a probability above the threshold, sends the mail when
    these conditions hold.  The reading is stored in [last_email_time] and
    restarts the cooldown. *)
Theorem pass_mail_exactly (e : env) (audio : list F32.float32) (num_samples : Z)
    (w : world) :
  let res := process_gunshot_detection expf log10f powf hann_cos fftwf_execute
               e audio num_samples w in
  (same_mail w (snd res) \/
   (email_enabled (cfg w) = true /\ smtp_username (cfg w) <> EmptyString /\
    recipient_email (cfg w) <> EmptyString /\
    EMAIL_RATE_LIMIT_SECONDS <= env_time e - last_email_time w /\
    env_curl_init_ok e = true /\ env_curl_ok e = true /\
    fst res = true /\
    email_times (trace (snd res)) = email_times (trace w) ++ [env_time e] /\
    last_email_time (snd res) = env_time e)) /\
  (forall q1 q2,
     ml_ready w = true ->
     F32.ltb (compute_rms audio num_samples) MIN_RMS_THRESHOLD = false ->
     env_infer e = Some (q1, q2) ->
     F32.gtb (snd (softmax2 expf (dequantize_output q1) (dequantize_output q2)))
             (confidence_threshold (cfg w)) = true ->
     email_enabled (cfg w) = true ->
     smtp_username (cfg w) <> EmptyString ->
     recipient_email (cfg w) <> EmptyString ->
     EMAIL_RATE_LIMIT_SECONDS <= env_time e - last_email_time w ->
     env_curl_init_ok e = true -> env_curl_ok e = true ->
     email_times (trace (snd res)) = email_times (trace w) ++ [env_time e] /\
     last_email_time (snd res) = env_time e).
Proof.
  cbv zeta. split.
  - exact (pass_mail_conditions expf log10f powf hann_cos fftwf_execute e audio num_samples w).
  - intros q1 q2 H1 H2 H3 H4 H5 H6 H7 H8 H9 H10.
    exact (pass_sends_mail expf log10f powf hann_cos fftwf_execute e audio num_samples w
             q1 q2 H1 H2 H3 H4 H5 H6 H7 H8 H9 H10).
Qed.

End MailConditions.

(** [pass_mail_exactly] on a pass over one loud sample at the time 1000, in
    the state after a start-up that finds the mail notification configured:
    one mail. *)
Lemma pass_mail_exactly_witness :
  let w0 := snd (main_startup sample_log10f sample_powf sample_hann_cos env_mail_start
                   initial_world) in
  email_times (trace (snd (process_gunshot_detection sample_expf sample_log10f sample_powf
                             sample_hann_cos sample_fftwf_execute (env_detect 1000)
                             [F32.c_1] 1 w0)))
  = email_times (trace w0) ++ [1000].
Proof.
  cbv zeta.
  set (w0 := snd (main_startup sample_log10f sample_powf sample_hann_cos env_mail_start
                    initial_world)).
  assert (F0 : ml_ready w0 = true /\ last_email_time w0 = 0 /\
               cfg w0 = Config F32.c_0_45 true "smtp.gmail.com" 587 "camera@example.org" ""
                               "guard@example.org").
  { vm_compute. repeat split. }
  destruct F0 as (M0 & L0 & C0).
  assert (Hrms : F32.ltb (compute_rms [F32.c_1] 1) MIN_RMS_THRESHOLD = false)
    by (vm_compute; reflexivity).
  assert (Hgt : F32.gtb (snd (softmax2 sample_expf (dequantize_output (-128))
                                (dequantize_output 127)))
                        (confidence_threshold (cfg w0)) = true)
    by (rewrite C0; vm_compute; reflexivity).
  assert (He : email_enabled (cfg w0) = true) by (rewrite C0; reflexivity).
  assert (Hu : smtp_username (cfg w0) <> EmptyString) by (rewrite C0; discriminate).
  assert (Hr : recipient_email (cfg w0) <> EmptyString) by (rewrite C0; discriminate).
  assert (Hc : EMAIL_RATE_LIMIT_SECONDS <= env_time (env_detect 1000) - last_email_time w0)
    by (rewrite L0; discriminate).
  exact (proj1 (proj2 (pass_mail_exactly sample_expf sample_log10f sample_powf
                         sample_hann_cos sample_fftwf_execute (env_detect 1000)
                         [F32.c_1] 1 w0)
                      (-128) 127 M0 Hrms eq_refl Hgt He Hu Hr Hc eq_refl eq_refl)).
Defined.

(** * Threshold validation *)



(** * The filter bank after its build *)

Section FilterBankClaim.

Variable log10f : F32.float32 -> F32.float32.
Variable powf : F32.float32 -> F32.float32 -> F32.float32.

(** The row of weights of a band before normalisation. *)
Lemma triangle_shape left center right k :
  0 <= left < N_FFT_BINS -> 0 <= center < N_FFT_BINS -> 0 <= right < N_FFT_BINS ->
  0 <= k < N_FFT_BINS ->
  let raw := triangle left center right zero_row in
  F32.ltb F32.zero (rd raw k)
  = (support_lo left center <=? k) && (k <? support_hi center right) /\
  (left <= k < center -> rd raw k = weight (k - left) (center - left)) /\
  (center <= k < right -> rd raw k = weight (right - k) (right - center)) /\
  (~ (left <= k < center) -> ~ (center <= k < right) -> rd raw k = F32.zero).
Proof.
  intros Hl Hc Hr Hk. cbv zeta.
  destruct (raw_row_facts _ _ _ k Hl Hc Hr Hk) as (F1 & F2 & F3 & F4 & F5).
  destruct (triangle_spec _ _ _ Hl Hc Hr) as (_ & Hrd).
  split; [|split; [|split]].
  - destruct (Z.leb_spec (support_lo left center) k),
             (Z.ltb_spec k (support_hi center right)); cbn [andb];
      [|rewrite F5 by lia; reflexivity ..].
    apply pos_ltb; [exact F1|].
    assert (1 # 512 <= F32.to_Q (rd (triangle left center right zero_row) k))%Q
      by (apply F4; lia).
    lra.
  - intros Hin. rewrite Hrd.
    destruct (Z.leb_spec center k), (Z.ltb_spec k right); cbn [andb]; try lia;
      destruct (Z.leb_spec left k), (Z.ltb_spec k center); cbn [andb]; try lia;
      reflexivity.
  - intros Hin. rewrite Hrd.
    destruct (Z.leb_spec center k), (Z.ltb_spec k right); cbn [andb]; try lia.
    reflexivity.
  - intros H1 H2. rewrite Hrd.
    destruct (Z.leb_spec center k), (Z.ltb_spec k right); cbn [andb]; try lia;
      destruct (Z.leb_spec left k), (Z.ltb_spec k center); cbn [andb]; try lia;
      reflexivity.
Qed.

(** C6: the first call of [init_mel_filter_bank] builds the matrix and sets
    the flag.  The bin indices come from the C library's [log10f] and [powf];
    for a library that gives no negative index: every entry of the
    N_MELS x N_FFT_BINS matrix is non-negative; before the normalisation the
    row of a band holds the rising weights (k - left) / (center - left) on
    [left, center), the falling weights (right - k) / (right - center) on
    [center, right) and zero elsewhere, and its non-zero entries are those
    of one contiguous range of bins; the stored row is that row after the
    area normalisation, and when the range is not empty its entries sum to 1
    within the tolerance 2^-12 of the binary32 operations.  Every later call
    finds the flag set and returns at once: the state, the matrix included,
    is left as it is. *)
Theorem C6_filter_bank_postcondition (w : world) :
  mel_filters_initialized (dsp_state w) = false ->
  bin_points_valid log10f powf = true ->
  let built := init_mel_filter_bank log10f powf w in
  let bank := mel_filter_bank (dsp_state (snd built)) in
  fst built = true /\
  (forall m k, 0 <= m < N_MELS -> 0 <= k < N_FFT_BINS ->
     F32.leb F32.zero (rd (rd_row bank m) k) = true) /\
  (forall m, 0 <= m < N_MELS ->
     let left := bin_point log10f powf m in
     let center := bin_point log10f powf (m + 1) in
     let right := bin_point log10f powf (m + 2) in
     let raw := triangle left center right zero_row in
     rd_row bank m = normalize_row raw /\
     (forall k, 0 <= k < N_FFT_BINS ->
        F32.ltb F32.zero (rd raw k)
        = (support_lo left center <=? k) && (k <? support_hi center right) /\
        (left <= k < center -> rd raw k = weight (k - left) (center - left)) /\
        (center <= k < right -> rd raw k = weight (right - k) (right - center)) /\
        (~ (left <= k < center) -> ~ (center <= k < right) -> rd raw k = F32.zero)) /\
     (support_lo left center < support_hi center right ->
        (Qabs (row_sum_Q (rd_row bank m) - 1) <= sum_tolerance)%Q)) /\
  init_mel_filter_bank log10f powf (snd built) = (true, snd built) /\
  (forall w', mel_filters_initialized (dsp_state w') = true ->
              init_mel_filter_bank log10f powf w' = (true, w')).
Proof.
  intros Hinit Hbins. cbv zeta.
  destruct (init_mel_filter_bank_builds log10f powf w Hinit) as (B1 & B2 & Hbank).
  cbv zeta in B1, B2, Hbank. rewrite Hbank.
  destruct (build_filter_bank_spec (bin_point log10f powf)) as (_ & Hrow).
  split; [exact B1|]. split; [|split; [|split]].
  - intros m k Hm Hk. rewrite Hrow by exact Hm. unfold build_row.
    destruct (band_bins log10f powf m Hbins Hm) as (Hl & Hc & Hr).
    apply build_row_nonneg; assumption.
  - intros m Hm.
    destruct (band_bins log10f powf m Hbins Hm) as (Hl & Hc & Hr).
    split; [rewrite Hrow by exact Hm; reflexivity|]. split.
    + intros k Hk. exact (triangle_shape _ _ _ k Hl Hc Hr Hk).
    + intros Hs. rewrite Hrow by exact Hm. unfold build_row.
      destruct (normalized_row_sum _ _ _ Hl Hc Hr Hs) as (_ & _ & N3). exact N3.
  - apply init_mel_filter_bank_cached. exact B2.
  - intros w' Hw'. apply init_mel_filter_bank_cached. exact Hw'.
Qed.

End FilterBankClaim.

(** C6 on the bank built at start-up with the sample library functions:
    band 0 sums to 1 within the tolerance. *)
Lemma C6_filter_bank_postcondition_witness :
  (Qabs (row_sum_Q (rd_row (mel_filter_bank
                              (dsp_state (snd (init_mel_filter_bank sample_log10f sample_powf
                                                 initial_world)))) 0) - 1)
   <= sum_tolerance)%Q.
Proof.
  assert (Hb : bin_points_valid sample_log10f sample_powf = true)
    by (vm_compute; reflexivity).
  assert (Hm : 0 <= 0 < N_MELS) by (split; [discriminate | reflexivity]).
  assert (Hs : support_lo (bin_point sample_log10f sample_powf 0)
                          (bin_point sample_log10f sample_powf 1)
               < support_hi (bin_point sample_log10f sample_powf 1)
                            (bin_point sample_log10f sample_powf 2))
    by (vm_compute; reflexivity).
  exact (proj2 (proj2 (proj1 (proj2 (proj2 (C6_filter_bank_postcondition
                                              sample_log10f sample_powf initial_world
                                              eq_refl Hb))) 0 Hm)) Hs).
Defined.
